(** * SciPubCrawl: the harvesting core of [search_crossref.py] and
    [search_europe_pmc.py]

    A shallow embedding of the cursor-paginated, deduplicating harvesting
    code and of the regex relevance filter, with the properties the
    specification states about them.

    Conventions of the embedding.
    - A Python [str] is a [string] that holds its UTF-8 bytes; a lone
      surrogate, which a [str] may hold, has the three bytes the same
      scheme gives it.  The [str] methods work on the code points, with
      the tables of Unicode 14 (CPython 3.11).  Text files are opened with
      [encoding="utf-8"]: their content is the bytes of the text that
      Python's text layer hands to the program.
    - A Python exception is a value of [py_exception], threaded through
      the [exc] monad; a function that cannot raise is a plain function.
    - [json.loads] / [json.dumps] are those of CPython's [json] with its
      defaults: [ensure_ascii], the separators [", "] and [": "], the
      constants [NaN], [Infinity] and [-Infinity], and the limit of 4300
      digits on an integer.  A [float] is held as its [repr]; the
      conversion of a number text to a [float] is an interpreter service,
      the class [PyFloat].
    - A Python [set] of identity keys is a [gset string]; a [dict] is an
      association list in insertion order with pairwise distinct keys.
    - [hash], [re.compile(p, re.I)] and [Pattern.search] are interpreter
      services: they are the fields of the class [PyRuntime].
    - A harvest runs against a script: the list of what the successive
      calls of [requests.get] bring back. *)

From Stdlib Require Import ZArith NArith List String Ascii Bool Lia.
From Stdlib Require Import Decimal DecimalString DecimalN DecimalFacts.
From stdpp Require Import base gmap strings list.

Import ListNotations.
Set Warnings "-register-all".
Local Open Scope Z_scope.

(** ** Python exceptions and the exception monad *)

Inductive py_exception : Type :=
| AttributeError   (* [x.get], [x.strip] on a value without that attribute *)
| TypeError        (* item assignment or iteration on an unfit value *)
| ReError.         (* [re.compile] on an invalid pattern *)

Inductive exc (A : Type) : Type :=
| Ok (a : A)
| Raise (e : py_exception).
Arguments Ok {A} a.
Arguments Raise {A} e.

Definition exc_bind {A B} (m : exc A) (k : A -> exc B) : exc B :=
  match m with
  | Ok a => k a
  | Raise e => Raise e
  end.
Arguments exc_bind {A B} !m k /.

Notation "'let*' x ':=' m 'in' k" := (exc_bind m (fun x => k))
  (at level 10, x name, m at level 100, k at level 200, only parsing).
Notation "'let*' ' p ':=' m 'in' k" :=
  (exc_bind m (fun x => match x with p => k end))
  (at level 10, p pattern, m at level 100, k at level 200, only parsing).

(** ** The Unicode database of the interpreter *)

Module Unicode.
Local Open Scope N_scope.

(** [str.lower] on one code point, where it is another single code
    point: the code points [lo, lo + step, ..] up to [hi] go to [to],
    [to + step], ..; each entry is [(lo, hi, step, to)]. *)
Definition lower_runs : list (N * N * N * N) :=
  [(65, 90, 1, 97); (192, 214, 1, 224); (216, 222, 1, 248);
   (256, 302, 2, 257); (306, 310, 2, 307); (313, 327, 2, 314);
   (330, 374, 2, 331); (376, 376, 1, 255); (377, 381, 2, 378);
   (385, 385, 1, 595); (386, 388, 2, 387); (390, 390, 1, 596);
   (391, 391, 1, 392); (393, 394, 1, 598); (395, 395, 1, 396);
   (398, 398, 1, 477); (399, 399, 1, 601); (400, 400, 1, 603);
   (401, 401, 1, 402); (403, 403, 1, 608); (404, 404, 1, 611);
   (406, 406, 1, 617); (407, 407, 1, 616); (408, 408, 1, 409);
   (412, 412, 1, 623); (413, 413, 1, 626); (415, 415, 1, 629);
   (416, 420, 2, 417); (422, 422, 1, 640); (423, 423, 1, 424);
   (425, 425, 1, 643); (428, 428, 1, 429); (430, 430, 1, 648);
   (431, 431, 1, 432); (433, 434, 1, 650); (435, 437, 2, 436);
   (439, 439, 1, 658); (440, 440, 1, 441); (444, 444, 1, 445);
   (452, 452, 1, 454); (453, 453, 1, 454); (455, 455, 1, 457);
   (456, 456, 1, 457); (458, 458, 1, 460); (459, 475, 2, 460);
   (478, 494, 2, 479); (497, 497, 1, 499); (498, 500, 2, 499);
   (502, 502, 1, 405); (503, 503, 1, 447); (504, 542, 2, 505);
   (544, 544, 1, 414); (546, 562, 2, 547); (570, 570, 1, 11365);
   (571, 571, 1, 572); (573, 573, 1, 410); (574, 574, 1, 11366);
   (577, 577, 1, 578); (579, 579, 1, 384); (580, 580, 1, 649);
   (581, 581, 1, 652); (582, 590, 2, 583); (880, 882, 2, 881);
   (886, 886, 1, 887); (895, 895, 1, 1011); (902, 902, 1, 940);
   (904, 906, 1, 941); (908, 908, 1, 972); (910, 911, 1, 973);
   (913, 929, 1, 945); (931, 939, 1, 963); (975, 975, 1, 983);
   (984, 1006, 2, 985); (1012, 1012, 1, 952); (1015, 1015, 1, 1016);
   (1017, 1017, 1, 1010); (1018, 1018, 1, 1019); (1021, 1023, 1, 891);
   (1024, 1039, 1, 1104); (1040, 1071, 1, 1072); (1120, 1152, 2, 1121);
   (1162, 1214, 2, 1163); (1216, 1216, 1, 1231); (1217, 1229, 2, 1218);
   (1232, 1326, 2, 1233); (1329, 1366, 1, 1377); (4256, 4293, 1, 11520);
   (4295, 4295, 1, 11559); (4301, 4301, 1, 11565); (5024, 5103, 1, 43888);
   (5104, 5109, 1, 5112); (7312, 7354, 1, 4304); (7357, 7359, 1, 4349);
   (7680, 7828, 2, 7681); (7838, 7838, 1, 223); (7840, 7934, 2, 7841);
   (7944, 7951, 1, 7936); (7960, 7965, 1, 7952); (7976, 7983, 1, 7968);
   (7992, 7999, 1, 7984); (8008, 8013, 1, 8000); (8025, 8031, 2, 8017);
   (8040, 8047, 1, 8032); (8072, 8079, 1, 8064); (8088, 8095, 1, 8080);
   (8104, 8111, 1, 8096); (8120, 8121, 1, 8112); (8122, 8123, 1, 8048);
   (8124, 8124, 1, 8115); (8136, 8139, 1, 8050); (8140, 8140, 1, 8131);
   (8152, 8153, 1, 8144); (8154, 8155, 1, 8054); (8168, 8169, 1, 8160);
   (8170, 8171, 1, 8058); (8172, 8172, 1, 8165); (8184, 8185, 1, 8056);
   (8186, 8187, 1, 8060); (8188, 8188, 1, 8179); (8486, 8486, 1, 969);
   (8490, 8490, 1, 107); (8491, 8491, 1, 229); (8498, 8498, 1, 8526);
   (8544, 8559, 1, 8560); (8579, 8579, 1, 8580); (9398, 9423, 1, 9424);
   (11264, 11311, 1, 11312); (11360, 11360, 1, 11361);
   (11362, 11362, 1, 619); (11363, 11363, 1, 7549); (11364, 11364, 1, 637);
   (11367, 11371, 2, 11368); (11373, 11373, 1, 593); (11374, 11374, 1, 625);
   (11375, 11375, 1, 592); (11376, 11376, 1, 594); (11378, 11378, 1, 11379);
   (11381, 11381, 1, 11382); (11390, 11391, 1, 575);
   (11392, 11490, 2, 11393); (11499, 11501, 2, 11500);
   (11506, 11506, 1, 11507); (42560, 42604, 2, 42561);
   (42624, 42650, 2, 42625); (42786, 42798, 2, 42787);
   (42802, 42862, 2, 42803); (42873, 42875, 2, 42874);
   (42877, 42877, 1, 7545); (42878, 42886, 2, 42879);
   (42891, 42891, 1, 42892); (42893, 42893, 1, 613);
   (42896, 42898, 2, 42897); (42902, 42920, 2, 42903);
   (42922, 42922, 1, 614); (42923, 42923, 1, 604); (42924, 42924, 1, 609);
   (42925, 42925, 1, 620); (42926, 42926, 1, 618); (42928, 42928, 1, 670);
   (42929, 42929, 1, 647); (42930, 42930, 1, 669); (42931, 42931, 1, 43859);
   (42932, 42946, 2, 42933); (42948, 42948, 1, 42900);
   (42949, 42949, 1, 642); (42950, 42950, 1, 7566);
   (42951, 42953, 2, 42952); (42960, 42960, 1, 42961);
   (42966, 42968, 2, 42967); (42997, 42997, 1, 42998);
   (65313, 65338, 1, 65345); (66560, 66599, 1, 66600);
   (66736, 66771, 1, 66776); (66928, 66938, 1, 66967);
   (66940, 66954, 1, 66979); (66956, 66962, 1, 66995);
   (66964, 66965, 1, 67003); (68736, 68786, 1, 68800);
   (71840, 71871, 1, 71872); (93760, 93791, 1, 93792);
   (125184, 125217, 1, 125218)]%N.

(** The cased code points that are not case-ignorable, as ranges. *)
Definition cased_ranges : list (N * N) :=
  [(65, 90); (97, 122); (170, 170); (181, 181); (186, 186); (192, 214);
   (216, 246); (248, 442); (444, 447); (452, 659); (661, 687); (880, 883);
   (886, 887); (891, 893); (895, 895); (902, 902); (904, 906); (908, 908);
   (910, 929); (931, 1013); (1015, 1153); (1162, 1327); (1329, 1366);
   (1376, 1416); (4256, 4293); (4295, 4295); (4301, 4301); (4304, 4346);
   (4349, 4351); (5024, 5109); (5112, 5117); (7296, 7304); (7312, 7354);
   (7357, 7359); (7424, 7467); (7531, 7543); (7545, 7578); (7680, 7957);
   (7960, 7965); (7968, 8005); (8008, 8013); (8016, 8023); (8025, 8025);
   (8027, 8027); (8029, 8029); (8031, 8061); (8064, 8116); (8118, 8124);
   (8126, 8126); (8130, 8132); (8134, 8140); (8144, 8147); (8150, 8155);
   (8160, 8172); (8178, 8180); (8182, 8188); (8450, 8450); (8455, 8455);
   (8458, 8467); (8469, 8469); (8473, 8477); (8484, 8484); (8486, 8486);
   (8488, 8488); (8490, 8493); (8495, 8500); (8505, 8505); (8508, 8511);
   (8517, 8521); (8526, 8526); (8544, 8575); (8579, 8580); (9398, 9449);
   (11264, 11387); (11390, 11492); (11499, 11502); (11506, 11507);
   (11520, 11557); (11559, 11559); (11565, 11565); (42560, 42605);
   (42624, 42651); (42786, 42863); (42865, 42887); (42891, 42894);
   (42896, 42954); (42960, 42961); (42963, 42963); (42965, 42969);
   (42997, 42998); (43002, 43002); (43824, 43866); (43872, 43880);
   (43888, 43967); (64256, 64262); (64275, 64279); (65313, 65338);
   (65345, 65370); (66560, 66639); (66736, 66771); (66776, 66811);
   (66928, 66938); (66940, 66954); (66956, 66962); (66964, 66965);
   (66967, 66977); (66979, 66993); (66995, 67001); (67003, 67004);
   (68736, 68786); (68800, 68850); (71840, 71903); (93760, 93823);
   (119808, 119892); (119894, 119964); (119966, 119967); (119970, 119970);
   (119973, 119974); (119977, 119980); (119982, 119993); (119995, 119995);
   (119997, 120003); (120005, 120069); (120071, 120074); (120077, 120084);
   (120086, 120092); (120094, 120121); (120123, 120126); (120128, 120132);
   (120134, 120134); (120138, 120144); (120146, 120485); (120488, 120512);
   (120514, 120538); (120540, 120570); (120572, 120596); (120598, 120628);
   (120630, 120654); (120656, 120686); (120688, 120712); (120714, 120744);
   (120746, 120770); (120772, 120779); (122624, 122633); (122635, 122654);
   (125184, 125251); (127280, 127305); (127312, 127337); (127344, 127369)]%N.

(** The case-ignorable code points, as ranges. *)
Definition case_ignorable_ranges : list (N * N) :=
  [(39, 39); (46, 46); (58, 58); (94, 94); (96, 96); (168, 168); (173, 173);
   (175, 175); (180, 180); (183, 184); (688, 879); (884, 885); (890, 890);
   (900, 901); (903, 903); (1155, 1161); (1369, 1369); (1375, 1375);
   (1425, 1469); (1471, 1471); (1473, 1474); (1476, 1477); (1479, 1479);
   (1524, 1524); (1536, 1541); (1552, 1562); (1564, 1564); (1600, 1600);
   (1611, 1631); (1648, 1648); (1750, 1757); (1759, 1768); (1770, 1773);
   (1807, 1807); (1809, 1809); (1840, 1866); (1958, 1968); (2027, 2037);
   (2042, 2042); (2045, 2045); (2070, 2093); (2137, 2139); (2184, 2184);
   (2192, 2193); (2200, 2207); (2249, 2306); (2362, 2362); (2364, 2364);
   (2369, 2376); (2381, 2381); (2385, 2391); (2402, 2403); (2417, 2417);
   (2433, 2433); (2492, 2492); (2497, 2500); (2509, 2509); (2530, 2531);
   (2558, 2558); (2561, 2562); (2620, 2620); (2625, 2626); (2631, 2632);
   (2635, 2637); (2641, 2641); (2672, 2673); (2677, 2677); (2689, 2690);
   (2748, 2748); (2753, 2757); (2759, 2760); (2765, 2765); (2786, 2787);
   (2810, 2815); (2817, 2817); (2876, 2876); (2879, 2879); (2881, 2884);
   (2893, 2893); (2901, 2902); (2914, 2915); (2946, 2946); (3008, 3008);
   (3021, 3021); (3072, 3072); (3076, 3076); (3132, 3132); (3134, 3136);
   (3142, 3144); (3146, 3149); (3157, 3158); (3170, 3171); (3201, 3201);
   (3260, 3260); (3263, 3263); (3270, 3270); (3276, 3277); (3298, 3299);
   (3328, 3329); (3387, 3388); (3393, 3396); (3405, 3405); (3426, 3427);
   (3457, 3457); (3530, 3530); (3538, 3540); (3542, 3542); (3633, 3633);
   (3636, 3642); (3654, 3662); (3761, 3761); (3764, 3772); (3782, 3782);
   (3784, 3789); (3864, 3865); (3893, 3893); (3895, 3895); (3897, 3897);
   (3953, 3966); (3968, 3972); (3974, 3975); (3981, 3991); (3993, 4028);
   (4038, 4038); (4141, 4144); (4146, 4151); (4153, 4154); (4157, 4158);
   (4184, 4185); (4190, 4192); (4209, 4212); (4226, 4226); (4229, 4230);
   (4237, 4237); (4253, 4253); (4348, 4348); (4957, 4959); (5906, 5908);
   (5938, 5939); (5970, 5971); (6002, 6003); (6068, 6069); (6071, 6077);
   (6086, 6086); (6089, 6099); (6103, 6103); (6109, 6109); (6155, 6159);
   (6211, 6211); (6277, 6278); (6313, 6313); (6432, 6434); (6439, 6440);
   (6450, 6450); (6457, 6459); (6679, 6680); (6683, 6683); (6742, 6742);
   (6744, 6750); (6752, 6752); (6754, 6754); (6757, 6764); (6771, 6780);
   (6783, 6783); (6823, 6823); (6832, 6862); (6912, 6915); (6964, 6964);
   (6966, 6970); (6972, 6972); (6978, 6978); (7019, 7027); (7040, 7041);
   (7074, 7077); (7080, 7081); (7083, 7085); (7142, 7142); (7144, 7145);
   (7149, 7149); (7151, 7153); (7212, 7219); (7222, 7223); (7288, 7293);
   (7376, 7378); (7380, 7392); (7394, 7400); (7405, 7405); (7412, 7412);
   (7416, 7417); (7468, 7530); (7544, 7544); (7579, 7679); (8125, 8125);
   (8127, 8129); (8141, 8143); (8157, 8159); (8173, 8175); (8189, 8190);
   (8203, 8207); (8216, 8217); (8228, 8228); (8231, 8231); (8234, 8238);
   (8288, 8292); (8294, 8303); (8305, 8305); (8319, 8319); (8336, 8348);
   (8400, 8432); (11388, 11389); (11503, 11505); (11631, 11631);
   (11647, 11647); (11744, 11775); (11823, 11823); (12293, 12293);
   (12330, 12333); (12337, 12341); (12347, 12347); (12441, 12446);
   (12540, 12542); (40981, 40981); (42232, 42237); (42508, 42508);
   (42607, 42610); (42612, 42621); (42623, 42623); (42652, 42655);
   (42736, 42737); (42752, 42785); (42864, 42864); (42888, 42890);
   (42994, 42996); (43000, 43001); (43010, 43010); (43014, 43014);
   (43019, 43019); (43045, 43046); (43052, 43052); (43204, 43205);
   (43232, 43249); (43263, 43263); (43302, 43309); (43335, 43345);
   (43392, 43394); (43443, 43443); (43446, 43449); (43452, 43453);
   (43471, 43471); (43493, 43494); (43561, 43566); (43569, 43570);
   (43573, 43574); (43587, 43587); (43596, 43596); (43632, 43632);
   (43644, 43644); (43696, 43696); (43698, 43700); (43703, 43704);
   (43710, 43711); (43713, 43713); (43741, 43741); (43756, 43757);
   (43763, 43764); (43766, 43766); (43867, 43871); (43881, 43883);
   (44005, 44005); (44008, 44008); (44013, 44013); (64286, 64286);
   (64434, 64450); (65024, 65039); (65043, 65043); (65056, 65071);
   (65106, 65106); (65109, 65109); (65279, 65279); (65287, 65287);
   (65294, 65294); (65306, 65306); (65342, 65342); (65344, 65344);
   (65392, 65392); (65438, 65439); (65507, 65507); (65529, 65531);
   (66045, 66045); (66272, 66272); (66422, 66426); (67456, 67461);
   (67463, 67504); (67506, 67514); (68097, 68099); (68101, 68102);
   (68108, 68111); (68152, 68154); (68159, 68159); (68325, 68326);
   (68900, 68903); (69291, 69292); (69446, 69456); (69506, 69509);
   (69633, 69633); (69688, 69702); (69744, 69744); (69747, 69748);
   (69759, 69761); (69811, 69814); (69817, 69818); (69821, 69821);
   (69826, 69826); (69837, 69837); (69888, 69890); (69927, 69931);
   (69933, 69940); (70003, 70003); (70016, 70017); (70070, 70078);
   (70089, 70092); (70095, 70095); (70191, 70193); (70196, 70196);
   (70198, 70199); (70206, 70206); (70367, 70367); (70371, 70378);
   (70400, 70401); (70459, 70460); (70464, 70464); (70502, 70508);
   (70512, 70516); (70712, 70719); (70722, 70724); (70726, 70726);
   (70750, 70750); (70835, 70840); (70842, 70842); (70847, 70848);
   (70850, 70851); (71090, 71093); (71100, 71101); (71103, 71104);
   (71132, 71133); (71219, 71226); (71229, 71229); (71231, 71232);
   (71339, 71339); (71341, 71341); (71344, 71349); (71351, 71351);
   (71453, 71455); (71458, 71461); (71463, 71467); (71727, 71735);
   (71737, 71738); (71995, 71996); (71998, 71998); (72003, 72003);
   (72148, 72151); (72154, 72155); (72160, 72160); (72193, 72202);
   (72243, 72248); (72251, 72254); (72263, 72263); (72273, 72278);
   (72281, 72283); (72330, 72342); (72344, 72345); (72752, 72758);
   (72760, 72765); (72767, 72767); (72850, 72871); (72874, 72880);
   (72882, 72883); (72885, 72886); (73009, 73014); (73018, 73018);
   (73020, 73021); (73023, 73029); (73031, 73031); (73104, 73105);
   (73109, 73109); (73111, 73111); (73459, 73460); (78896, 78904);
   (92912, 92916); (92976, 92982); (92992, 92995); (94031, 94031);
   (94095, 94111); (94176, 94177); (94179, 94180); (110576, 110579);
   (110581, 110587); (110589, 110590); (113821, 113822); (113824, 113827);
   (118528, 118573); (118576, 118598); (119143, 119145); (119155, 119170);
   (119173, 119179); (119210, 119213); (119362, 119364); (121344, 121398);
   (121403, 121452); (121461, 121461); (121476, 121476); (121499, 121503);
   (121505, 121519); (122880, 122886); (122888, 122904); (122907, 122913);
   (122915, 122916); (122918, 122922); (123184, 123197); (123566, 123566);
   (123628, 123631); (125136, 125142); (125252, 125259); (127995, 127999);
   (917505, 917505); (917536, 917631); (917760, 917999)]%N.

(** [str.isprintable] on one code point, as ranges. *)
Definition printable_ranges : list (N * N) :=
  [(32, 126); (161, 172); (174, 887); (890, 895); (900, 906); (908, 908);
   (910, 929); (931, 1327); (1329, 1366); (1369, 1418); (1421, 1423);
   (1425, 1479); (1488, 1514); (1519, 1524); (1542, 1563); (1565, 1756);
   (1758, 1805); (1808, 1866); (1869, 1969); (1984, 2042); (2045, 2093);
   (2096, 2110); (2112, 2139); (2142, 2142); (2144, 2154); (2160, 2190);
   (2200, 2273); (2275, 2435); (2437, 2444); (2447, 2448); (2451, 2472);
   (2474, 2480); (2482, 2482); (2486, 2489); (2492, 2500); (2503, 2504);
   (2507, 2510); (2519, 2519); (2524, 2525); (2527, 2531); (2534, 2558);
   (2561, 2563); (2565, 2570); (2575, 2576); (2579, 2600); (2602, 2608);
   (2610, 2611); (2613, 2614); (2616, 2617); (2620, 2620); (2622, 2626);
   (2631, 2632); (2635, 2637); (2641, 2641); (2649, 2652); (2654, 2654);
   (2662, 2678); (2689, 2691); (2693, 2701); (2703, 2705); (2707, 2728);
   (2730, 2736); (2738, 2739); (2741, 2745); (2748, 2757); (2759, 2761);
   (2763, 2765); (2768, 2768); (2784, 2787); (2790, 2801); (2809, 2815);
   (2817, 2819); (2821, 2828); (2831, 2832); (2835, 2856); (2858, 2864);
   (2866, 2867); (2869, 2873); (2876, 2884); (2887, 2888); (2891, 2893);
   (2901, 2903); (2908, 2909); (2911, 2915); (2918, 2935); (2946, 2947);
   (2949, 2954); (2958, 2960); (2962, 2965); (2969, 2970); (2972, 2972);
   (2974, 2975); (2979, 2980); (2984, 2986); (2990, 3001); (3006, 3010);
   (3014, 3016); (3018, 3021); (3024, 3024); (3031, 3031); (3046, 3066);
   (3072, 3084); (3086, 3088); (3090, 3112); (3114, 3129); (3132, 3140);
   (3142, 3144); (3146, 3149); (3157, 3158); (3160, 3162); (3165, 3165);
   (3168, 3171); (3174, 3183); (3191, 3212); (3214, 3216); (3218, 3240);
   (3242, 3251); (3253, 3257); (3260, 3268); (3270, 3272); (3274, 3277);
   (3285, 3286); (3293, 3294); (3296, 3299); (3302, 3311); (3313, 3314);
   (3328, 3340); (3342, 3344); (3346, 3396); (3398, 3400); (3402, 3407);
   (3412, 3427); (3430, 3455); (3457, 3459); (3461, 3478); (3482, 3505);
   (3507, 3515); (3517, 3517); (3520, 3526); (3530, 3530); (3535, 3540);
   (3542, 3542); (3544, 3551); (3558, 3567); (3570, 3572); (3585, 3642);
   (3647, 3675); (3713, 3714); (3716, 3716); (3718, 3722); (3724, 3747);
   (3749, 3749); (3751, 3773); (3776, 3780); (3782, 3782); (3784, 3789);
   (3792, 3801); (3804, 3807); (3840, 3911); (3913, 3948); (3953, 3991);
   (3993, 4028); (4030, 4044); (4046, 4058); (4096, 4293); (4295, 4295);
   (4301, 4301); (4304, 4680); (4682, 4685); (4688, 4694); (4696, 4696);
   (4698, 4701); (4704, 4744); (4746, 4749); (4752, 4784); (4786, 4789);
   (4792, 4798); (4800, 4800); (4802, 4805); (4808, 4822); (4824, 4880);
   (4882, 4885); (4888, 4954); (4957, 4988); (4992, 5017); (5024, 5109);
   (5112, 5117); (5120, 5759); (5761, 5788); (5792, 5880); (5888, 5909);
   (5919, 5942); (5952, 5971); (5984, 5996); (5998, 6000); (6002, 6003);
   (6016, 6109); (6112, 6121); (6128, 6137); (6144, 6157); (6159, 6169);
   (6176, 6264); (6272, 6314); (6320, 6389); (6400, 6430); (6432, 6443);
   (6448, 6459); (6464, 6464); (6468, 6509); (6512, 6516); (6528, 6571);
   (6576, 6601); (6608, 6618); (6622, 6683); (6686, 6750); (6752, 6780);
   (6783, 6793); (6800, 6809); (6816, 6829); (6832, 6862); (6912, 6988);
   (6992, 7038); (7040, 7155); (7164, 7223); (7227, 7241); (7245, 7304);
   (7312, 7354); (7357, 7367); (7376, 7418); (7424, 7957); (7960, 7965);
   (7968, 8005); (8008, 8013); (8016, 8023); (8025, 8025); (8027, 8027);
   (8029, 8029); (8031, 8061); (8064, 8116); (8118, 8132); (8134, 8147);
   (8150, 8155); (8157, 8175); (8178, 8180); (8182, 8190); (8208, 8231);
   (8240, 8286); (8304, 8305); (8308, 8334); (8336, 8348); (8352, 8384);
   (8400, 8432); (8448, 8587); (8592, 9254); (9280, 9290); (9312, 11123);
   (11126, 11157); (11159, 11507); (11513, 11557); (11559, 11559);
   (11565, 11565); (11568, 11623); (11631, 11632); (11647, 11670);
   (11680, 11686); (11688, 11694); (11696, 11702); (11704, 11710);
   (11712, 11718); (11720, 11726); (11728, 11734); (11736, 11742);
   (11744, 11869); (11904, 11929); (11931, 12019); (12032, 12245);
   (12272, 12283); (12289, 12351); (12353, 12438); (12441, 12543);
   (12549, 12591); (12593, 12686); (12688, 12771); (12784, 12830);
   (12832, 42124); (42128, 42182); (42192, 42539); (42560, 42743);
   (42752, 42954); (42960, 42961); (42963, 42963); (42965, 42969);
   (42994, 43052); (43056, 43065); (43072, 43127); (43136, 43205);
   (43214, 43225); (43232, 43347); (43359, 43388); (43392, 43469);
   (43471, 43481); (43486, 43518); (43520, 43574); (43584, 43597);
   (43600, 43609); (43612, 43714); (43739, 43766); (43777, 43782);
   (43785, 43790); (43793, 43798); (43808, 43814); (43816, 43822);
   (43824, 43883); (43888, 44013); (44016, 44025); (44032, 55203);
   (55216, 55238); (55243, 55291); (63744, 64109); (64112, 64217);
   (64256, 64262); (64275, 64279); (64285, 64310); (64312, 64316);
   (64318, 64318); (64320, 64321); (64323, 64324); (64326, 64450);
   (64467, 64911); (64914, 64967); (64975, 64975); (65008, 65049);
   (65056, 65106); (65108, 65126); (65128, 65131); (65136, 65140);
   (65142, 65276); (65281, 65470); (65474, 65479); (65482, 65487);
   (65490, 65495); (65498, 65500); (65504, 65510); (65512, 65518);
   (65532, 65533); (65536, 65547); (65549, 65574); (65576, 65594);
   (65596, 65597); (65599, 65613); (65616, 65629); (65664, 65786);
   (65792, 65794); (65799, 65843); (65847, 65934); (65936, 65948);
   (65952, 65952); (66000, 66045); (66176, 66204); (66208, 66256);
   (66272, 66299); (66304, 66339); (66349, 66378); (66384, 66426);
   (66432, 66461); (66463, 66499); (66504, 66517); (66560, 66717);
   (66720, 66729); (66736, 66771); (66776, 66811); (66816, 66855);
   (66864, 66915); (66927, 66938); (66940, 66954); (66956, 66962);
   (66964, 66965); (66967, 66977); (66979, 66993); (66995, 67001);
   (67003, 67004); (67072, 67382); (67392, 67413); (67424, 67431);
   (67456, 67461); (67463, 67504); (67506, 67514); (67584, 67589);
   (67592, 67592); (67594, 67637); (67639, 67640); (67644, 67644);
   (67647, 67669); (67671, 67742); (67751, 67759); (67808, 67826);
   (67828, 67829); (67835, 67867); (67871, 67897); (67903, 67903);
   (67968, 68023); (68028, 68047); (68050, 68099); (68101, 68102);
   (68108, 68115); (68117, 68119); (68121, 68149); (68152, 68154);
   (68159, 68168); (68176, 68184); (68192, 68255); (68288, 68326);
   (68331, 68342); (68352, 68405); (68409, 68437); (68440, 68466);
   (68472, 68497); (68505, 68508); (68521, 68527); (68608, 68680);
   (68736, 68786); (68800, 68850); (68858, 68903); (68912, 68921);
   (69216, 69246); (69248, 69289); (69291, 69293); (69296, 69297);
   (69376, 69415); (69424, 69465); (69488, 69513); (69552, 69579);
   (69600, 69622); (69632, 69709); (69714, 69749); (69759, 69820);
   (69822, 69826); (69840, 69864); (69872, 69881); (69888, 69940);
   (69942, 69959); (69968, 70006); (70016, 70111); (70113, 70132);
   (70144, 70161); (70163, 70206); (70272, 70278); (70280, 70280);
   (70282, 70285); (70287, 70301); (70303, 70313); (70320, 70378);
   (70384, 70393); (70400, 70403); (70405, 70412); (70415, 70416);
   (70419, 70440); (70442, 70448); (70450, 70451); (70453, 70457);
   (70459, 70468); (70471, 70472); (70475, 70477); (70480, 70480);
   (70487, 70487); (70493, 70499); (70502, 70508); (70512, 70516);
   (70656, 70747); (70749, 70753); (70784, 70855); (70864, 70873);
   (71040, 71093); (71096, 71133); (71168, 71236); (71248, 71257);
   (71264, 71276); (71296, 71353); (71360, 71369); (71424, 71450);
   (71453, 71467); (71472, 71494); (71680, 71739); (71840, 71922);
   (71935, 71942); (71945, 71945); (71948, 71955); (71957, 71958);
   (71960, 71989); (71991, 71992); (71995, 72006); (72016, 72025);
   (72096, 72103); (72106, 72151); (72154, 72164); (72192, 72263);
   (72272, 72354); (72368, 72440); (72704, 72712); (72714, 72758);
   (72760, 72773); (72784, 72812); (72816, 72847); (72850, 72871);
   (72873, 72886); (72960, 72966); (72968, 72969); (72971, 73014);
   (73018, 73018); (73020, 73021); (73023, 73031); (73040, 73049);
   (73056, 73061); (73063, 73064); (73066, 73102); (73104, 73105);
   (73107, 73112); (73120, 73129); (73440, 73464); (73648, 73648);
   (73664, 73713); (73727, 74649); (74752, 74862); (74864, 74868);
   (74880, 75075); (77712, 77810); (77824, 78894); (82944, 83526);
   (92160, 92728); (92736, 92766); (92768, 92777); (92782, 92862);
   (92864, 92873); (92880, 92909); (92912, 92917); (92928, 92997);
   (93008, 93017); (93019, 93025); (93027, 93047); (93053, 93071);
   (93760, 93850); (93952, 94026); (94031, 94087); (94095, 94111);
   (94176, 94180); (94192, 94193); (94208, 100343); (100352, 101589);
   (101632, 101640); (110576, 110579); (110581, 110587); (110589, 110590);
   (110592, 110882); (110928, 110930); (110948, 110951); (110960, 111355);
   (113664, 113770); (113776, 113788); (113792, 113800); (113808, 113817);
   (113820, 113823); (118528, 118573); (118576, 118598); (118608, 118723);
   (118784, 119029); (119040, 119078); (119081, 119154); (119163, 119274);
   (119296, 119365); (119520, 119539); (119552, 119638); (119648, 119672);
   (119808, 119892); (119894, 119964); (119966, 119967); (119970, 119970);
   (119973, 119974); (119977, 119980); (119982, 119993); (119995, 119995);
   (119997, 120003); (120005, 120069); (120071, 120074); (120077, 120084);
   (120086, 120092); (120094, 120121); (120123, 120126); (120128, 120132);
   (120134, 120134); (120138, 120144); (120146, 120485); (120488, 120779);
   (120782, 121483); (121499, 121503); (121505, 121519); (122624, 122654);
   (122880, 122886); (122888, 122904); (122907, 122913); (122915, 122916);
   (122918, 122922); (123136, 123180); (123184, 123197); (123200, 123209);
   (123214, 123215); (123536, 123566); (123584, 123641); (123647, 123647);
   (124896, 124902); (124904, 124907); (124909, 124910); (124912, 124926);
   (124928, 125124); (125127, 125142); (125184, 125259); (125264, 125273);
   (125278, 125279); (126065, 126132); (126209, 126269); (126464, 126467);
   (126469, 126495); (126497, 126498); (126500, 126500); (126503, 126503);
   (126505, 126514); (126516, 126519); (126521, 126521); (126523, 126523);
   (126530, 126530); (126535, 126535); (126537, 126537); (126539, 126539);
   (126541, 126543); (126545, 126546); (126548, 126548); (126551, 126551);
   (126553, 126553); (126555, 126555); (126557, 126557); (126559, 126559);
   (126561, 126562); (126564, 126564); (126567, 126570); (126572, 126578);
   (126580, 126583); (126585, 126588); (126590, 126590); (126592, 126601);
   (126603, 126619); (126625, 126627); (126629, 126633); (126635, 126651);
   (126704, 126705); (126976, 127019); (127024, 127123); (127136, 127150);
   (127153, 127167); (127169, 127183); (127185, 127221); (127232, 127405);
   (127462, 127490); (127504, 127547); (127552, 127560); (127568, 127569);
   (127584, 127589); (127744, 128727); (128733, 128748); (128752, 128764);
   (128768, 128883); (128896, 128984); (128992, 129003); (129008, 129008);
   (129024, 129035); (129040, 129095); (129104, 129113); (129120, 129159);
   (129168, 129197); (129200, 129201); (129280, 129619); (129632, 129645);
   (129648, 129652); (129656, 129660); (129664, 129670); (129680, 129708);
   (129712, 129722); (129728, 129733); (129744, 129753); (129760, 129767);
   (129776, 129782); (129792, 129938); (129940, 129994); (130032, 130041);
   (131072, 173791); (173824, 177976); (177984, 178205); (178208, 183969);
   (183984, 191456); (194560, 195101); (196608, 201546); (917760, 917999)]%N.

Definition in_ranges (n : N) (rs : list (N * N)) : bool :=
  existsb (fun r => (fst r <=? n) && (n <=? snd r)) rs.

Definition expand_run (r : N * N * N * N) : list (N * N) :=
  let '(lo, hi, step, to) := r in
  map (fun k => (lo + N.of_nat k * step, to + N.of_nat k * step))
    (seq 0 (N.to_nat ((hi - lo) / step) + 1)).

Definition lower_pairs : list (N * N) :=
  Eval vm_compute in flat_map expand_run lower_runs.

Fixpoint assoc (n : N) (t : list (N * N)) : option N :=
  match t with
  | [] => None
  | (k, v) :: t' => if k =? n then Some v else assoc n t'
  end.

(** The code points a [str] may hold. *)
Definition max_code : N := 1114112.

Definition is_high (n : N) : bool := (55296 <=? n) && (n <=? 56319).
Definition is_low (n : N) : bool := (56320 <=? n) && (n <=? 57343).
Definition is_surrogate (n : N) : bool := (55296 <=? n) && (n <=? 57343).

(** [str.isspace] on one code point. *)
Definition space_ranges : list (N * N) :=
  [(9, 13); (28, 32); (133, 133); (160, 160); (5760, 5760); (8192, 8202);
   (8232, 8233); (8239, 8239); (8287, 8287); (12288, 12288)].

Definition is_space (n : N) : bool := in_ranges n space_ranges.

Definition is_printable (n : N) : bool := in_ranges n printable_ranges.
Definition is_cased (n : N) : bool := in_ranges n cased_ranges.
Definition is_case_ignorable (n : N) : bool :=
  in_ranges n case_ignorable_ranges.

(** [str.lower] on one code point, out of context: capital I with a dot
    above becomes two code points, every other one at most another. *)
Definition lower_full (n : N) : list N :=
  if n =? 304 then [105; 775]
  else
    match assoc n lower_pairs with
    | Some m => [m]
    | None => [n]
    end.

Definition capital_sigma : N := 931.
Definition small_sigma : N := 963.
Definition final_sigma : N := 962.

(** Whether a cased letter follows, case-ignorable code points apart. *)
Fixpoint cased_ahead (l : list N) : bool :=
  match l with
  | [] => false
  | c :: r => if is_case_ignorable c then cased_ahead r else is_cased c
  end.

(** [str.lower] on the code points of a text.  [before] says whether a
    cased letter comes before, case-ignorable code points apart: a
    capital sigma between such a letter and no such letter is a final
    one. *)
Fixpoint lower_from (before : bool) (l : list N) : list N :=
  match l with
  | [] => []
  | c :: r =>
      (if c =? capital_sigma
       then [if before && negb (cased_ahead r) then final_sigma
             else small_sigma]
       else lower_full c)
      ++ lower_from (if is_case_ignorable c then before else is_cased c) r
  end.

Fixpoint lstrip (l : list N) : list N :=
  match l with
  | [] => []
  | c :: r => if is_space c then lstrip r else l
  end.

(** Drops the trailing white space: a code point is kept when something
    that is kept follows it, or when it is not white space. *)
Fixpoint rstrip (l : list N) : list N :=
  match l with
  | [] => []
  | c :: r =>
      match rstrip r with
      | [] => if is_space c then [] else [c]
      | r' => c :: r'
      end
  end.

End Unicode.

(** ** UTF-8 *)

Module Utf8.
Local Open Scope N_scope.

Definition byte (n : N) : ascii := ascii_of_N n.

(** The bytes of one code point. *)
Definition encode_cp (n : N) : string :=
  if n <? 128 then String (byte n) ""
  else if n <? 2048 then
    String (byte (192 + n / 64)) (String (byte (128 + n mod 64)) "")
  else if n <? 65536 then
    String (byte (224 + n / 4096))
      (String (byte (128 + (n / 64) mod 64))
         (String (byte (128 + n mod 64)) ""))
  else
    String (byte (240 + n / 262144))
      (String (byte (128 + (n / 4096) mod 64))
         (String (byte (128 + (n / 64) mod 64))
            (String (byte (128 + n mod 64)) ""))).

Fixpoint encode (l : list N) : string :=
  match l with
  | [] => ""
  | n :: r => encode_cp n +:+ encode r
  end.

Definition is_cont (c : ascii) : bool :=
  (128 <=? N_of_ascii c) && (N_of_ascii c <? 192).

Definition low6 (c : ascii) : N := N_of_ascii c - 128.

Definition cons_cp (n : N) (r : option (list N)) : option (list N) :=
  match r with
  | Some l => Some (n :: l)
  | None => None
  end.

(** The code points of a byte string, when it is the encoding of a text:
    every code point in its shortest form and below [max_code]. *)
Fixpoint decode (s : string) : option (list N) :=
  match s with
  | EmptyString => Some []
  | String a r =>
      let x := N_of_ascii a in
      if x <? 128 then cons_cp x (decode r)
      else
        match r with
        | EmptyString => None
        | String b r1 =>
            if negb (is_cont b) then None
            else if x <? 224 then
              let n := (x - 192) * 64 + low6 b in
              if (192 <=? x) && (128 <=? n) then cons_cp n (decode r1)
              else None
            else
              match r1 with
              | EmptyString => None
              | String c r2 =>
                  if negb (is_cont c) then None
                  else if x <? 240 then
                    let n := ((x - 224) * 64 + low6 b) * 64 + low6 c in
                    if 2048 <=? n then cons_cp n (decode r2) else None
                  else
                    match r2 with
                    | EmptyString => None
                    | String d r3 =>
                        if negb (is_cont d) then None
                        else
                          let n :=
                            (((x - 240) * 64 + low6 b) * 64 + low6 c) * 64
                            + low6 d in
                          if (65536 <=? n) && (n <? Unicode.max_code)
                          then cons_cp n (decode r3)
                          else None
                    end
              end
        end
  end.

(** The code point of every byte: how a text of ASCII reads. *)
Fixpoint codes (s : string) : list N :=
  match s with
  | EmptyString => []
  | String c r => N_of_ascii c :: codes r
  end.

End Utf8.

(** ** Strings: the [str] methods the code calls *)

Module PyStr.

Definition code (c : ascii) : N := N_of_ascii c.

(** A method of [str], from what it does to the code points.  Bytes that
    are no text are left as they are. *)
Definition on_text (f : list N -> list N) (s : string) : string :=
  match Utf8.decode s with
  | Some l => Utf8.encode (f l)
  | None => s
  end.

(** [s.lower()] *)
Definition lower : string -> string := on_text (Unicode.lower_from false).

(** [s.strip()] *)
Definition strip : string -> string :=
  on_text (fun l => Unicode.rstrip (Unicode.lstrip l)).

(** The characters of [s], as [for c in s] gives them. *)
Definition chars (s : string) : list string :=
  match Utf8.decode s with
  | Some l => map Utf8.encode_cp l
  | None => map (fun c => String c "") (list_ascii_of_string s)
  end.

(** [sep.join(parts)] *)
Fixpoint join (sep : string) (parts : list string) : string :=
  match parts with
  | [] => ""
  | [p] => p
  | p :: ps => p +:+ sep +:+ join sep ps
  end.

(** [str(n)] for an [int]. *)
Definition of_N (n : N) : string := NilEmpty.string_of_uint (N.to_uint n).

Definition of_Z (n : Z) : string :=
  match n with
  | Zneg p => String "-" (of_N (Npos p))
  | _ => of_N (Z.to_N n)
  end.

Definition nl : string := String (ascii_of_N 10) "".

(** [a in b] for two strings. *)
Fixpoint prefix (p s : string) : bool :=
  match p, s with
  | EmptyString, _ => true
  | String a p', String b s' => Ascii.eqb a b && prefix p' s'
  | String _ _, EmptyString => false
  end.

Fixpoint contains (p s : string) : bool :=
  prefix p s ||
  match s with
  | EmptyString => false
  | String _ r => contains p r
  end.

End PyStr.

(** ** Dictionaries: association lists in insertion order *)

Module PyDict.
Section Dict.
Context {V : Type}.

Fixpoint lookup (d : list (string * V)) (k : string) : option V :=
  match d with
  | [] => None
  | (k', v) :: d' => if String.eqb k' k then Some v else lookup d' k
  end.

(** [d[k] = v]: overwrites in place, else appends. *)
Fixpoint set (d : list (string * V)) (k : string) (v : V)
  : list (string * V) :=
  match d with
  | [] => [(k, v)]
  | (k', v') :: d' =>
      if String.eqb k' k then (k', v) :: d' else (k', v') :: set d' k v
  end.

(** [dict(pairs)]: a later pair overwrites the value of an earlier one. *)
Definition of_pairs (ps : list (string * V)) : list (string * V) :=
  fold_left (fun d kv => set d (fst kv) (snd kv)) ps [].

Definition keys (d : list (string * V)) : list string := map fst d.
Definition values (d : list (string * V)) : list V := map snd d.
End Dict.
End PyDict.

(** ** JSON values, [json.dumps] and [json.loads] *)

(** A decoded JSON value.  A [float] is held as the text [repr] gives it:
    [1.5], [1e+16], [inf], [-inf], [nan]. *)
Inductive json : Type :=
| JNull
| JBool (b : bool)
| JInt (n : Z)
| JFloat (repr : string)
| JStr (s : string)
| JArr (items : list json)
| JObj (members : list (string * json)).

(** [repr(float(text))] for the text of a JSON number that has a fraction
    or an exponent: the shortest decimal text that reads back as the
    double nearest to the number, [inf] or [-inf] beyond the range. *)
Class PyFloat : Type := {
  float_repr : string -> string;
}.

Module Json.
Local Open Scope N_scope.

(** Python truth value of a decoded JSON value: [None], [False], [0],
    [0.0], the empty string, list and dict are false. *)
Definition truthy (v : json) : bool :=
  match v with
  | JNull => false
  | JBool b => b
  | JInt n => negb (n =? 0)%Z
  | JFloat r => negb (String.eqb r "0.0" || String.eqb r "-0.0")
  | JStr s => negb (String.eqb s "")
  | JArr l => match l with [] => false | _ => true end
  | JObj d => match d with [] => false | _ => true end
  end.

(** [a or b] *)
Definition or_ (a b : json) : json := if truthy a then a else b.

(** [d.get(k)]: the value under [k], [None] when absent. *)
Definition get (d : list (string * json)) (k : string) : json :=
  match PyDict.lookup d k with
  | Some v => v
  | None => JNull
  end.

(** [d.get(k, default)] *)
Definition get_default (d : list (string * json)) (k : string)
  (dflt : json) : json :=
  match PyDict.lookup d k with
  | Some v => v
  | None => dflt
  end.

(** *** Encoding ([ensure_ascii=True], separators [", "] and [": "]) *)

Definition dquote : ascii := ascii_of_N 34.
Definition backslash : ascii := ascii_of_N 92.

Definition hex_digit (n : N) : ascii :=
  ascii_of_N (if n <? 10 then 48 + n else 87 + n).

(** [\uXXXX] *)
Definition u_escape (n : N) : string :=
  String backslash
    (String "u"
       (String (hex_digit (n / 4096))
          (String (hex_digit ((n / 256) mod 16))
             (String (hex_digit ((n / 16) mod 16))
                (String (hex_digit (n mod 16)) ""))))).

(** One code point of a string literal: printable ASCII stays, the rest
    is escaped, beyond the basic plane as a surrogate pair. *)
Definition escape_cp (n : N) : string :=
  if n =? 34 then String backslash (String dquote "")
  else if n =? 92 then String backslash (String backslash "")
  else if n =? 10 then String backslash "n"
  else if n =? 13 then String backslash "r"
  else if n =? 9 then String backslash "t"
  else if n =? 8 then String backslash "b"
  else if n =? 12 then String backslash "f"
  else if (32 <=? n) && (n <=? 126) then String (ascii_of_N n) ""
  else if n <? 65536 then u_escape n
  else
    u_escape (55296 + (n - 65536) / 1024)
    +:+ u_escape (56320 + (n - 65536) mod 1024).

Fixpoint escape_cps (l : list N) : string :=
  match l with
  | [] => ""
  | n :: r => escape_cp n +:+ escape_cps r
  end.

(** The body of the literal of [s].  Bytes that are no text are written
    byte by byte. *)
Definition escape (s : string) : string :=
  match Utf8.decode s with
  | Some l => escape_cps l
  | None => escape_cps (Utf8.codes s)
  end.

Definition quote (s : string) : string :=
  String dquote (escape s +:+ String dquote "").

Definition dumps_member (dumps : json -> string) (kv : string * json)
  : string :=
  quote (fst kv) +:+ ": " +:+ dumps (snd kv).

(** [float.__repr__], but for the three values JSON has no number for. *)
Definition dumps_float (r : string) : string :=
  if String.eqb r "nan" then "NaN"
  else if String.eqb r "inf" then "Infinity"
  else if String.eqb r "-inf" then "-Infinity"
  else r.

Fixpoint dumps (v : json) : string :=
  match v with
  | JNull => "null"
  | JBool true => "true"
  | JBool false => "false"
  | JInt n => PyStr.of_Z n
  | JFloat r => dumps_float r
  | JStr s => quote s
  | JArr l => "[" +:+ PyStr.join ", " (map dumps l) +:+ "]"
  | JObj d => "{" +:+ PyStr.join ", " (map (dumps_member dumps) d) +:+ "}"
  end.

(** *** Decoding: the scanner, on the code points of the text *)

Definition is_ws (c : N) : bool :=
  (c =? 32) || (c =? 9) || (c =? 10) || (c =? 13).

Fixpoint skip_ws (s : list N) : list N :=
  match s with
  | [] => []
  | c :: r => if is_ws c then skip_ws r else s
  end.

(** The code point an escape letter stands for. *)
Definition unescape (e : N) : option N :=
  if e =? 34 then Some 34
  else if e =? 92 then Some 92
  else if e =? 47 then Some 47
  else if e =? 98 then Some 8
  else if e =? 102 then Some 12
  else if e =? 110 then Some 10
  else if e =? 114 then Some 13
  else if e =? 116 then Some 9
  else None.

Definition hex_value (c : N) : option N :=
  if (48 <=? c) && (c <=? 57) then Some (c - 48)
  else if (97 <=? c) && (c <=? 102) then Some (c - 87)
  else if (65 <=? c) && (c <=? 70) then Some (c - 55)
  else None.

(** The number of [\uXXXX]. *)
Definition hex4 (a b c d : N) : option N :=
  match hex_value a, hex_value b, hex_value c, hex_value d with
  | Some x, Some y, Some z, Some w => Some (((x * 16 + y) * 16 + z) * 16 + w)
  | _, _, _, _ => None
  end.

(** [Py_UNICODE_JOIN_SURROGATES] *)
Definition join_surrogates (hi lo : N) : N :=
  65536 + (hi - 55296) * 1024 + (lo - 56320).

Definition cons_char (c : N) (r : option (list N * list N))
  : option (list N * list N) :=
  match r with
  | Some (s, rest) => Some (c :: s, rest)
  | None => None
  end.

(** The body of a string literal, after its opening quote: the decoded
    code points and what follows the closing quote.  A raw control
    character is refused (strict mode).  A high surrogate escape that a
    low surrogate escape follows makes one code point with it.  The text
    itself holds no surrogate: the text layer refuses them. *)
Fixpoint scan_string (s : list N) : option (list N * list N) :=
  match s with
  | [] => None
  | c :: r =>
      if c =? 34 then Some ([], r)
      else if c =? 92 then
        match r with
        | [] => None
        | e :: r1 =>
            match unescape e with
            | Some x => cons_char x (scan_string r1)
            | None =>
                if e =? 117 then
                  match r1 with
                  | h1 :: h2 :: h3 :: h4 :: r2 =>
                      match hex4 h1 h2 h3 h4 with
                      | None => None
                      | Some x =>
                          if Unicode.is_high x then
                            match r2 with
                            | b :: u :: l1 :: l2 :: l3 :: l4 :: r3 =>
                                if (b =? 92) && (u =? 117) then
                                  match hex4 l1 l2 l3 l4 with
                                  | None => None
                                  | Some y =>
                                      if Unicode.is_low y
                                      then cons_char (join_surrogates x y)
                                             (scan_string r3)
                                      else cons_char x (scan_string r2)
                                  end
                                else cons_char x (scan_string r2)
                            | _ => cons_char x (scan_string r2)
                            end
                          else cons_char x (scan_string r2)
                      end
                  | _ => None
                  end
                else None
            end
        end
      else if c <? 32 then None
      else if Unicode.is_surrogate c || (Unicode.max_code <=? c) then None
      else cons_char c (scan_string r)
  end.

Definition digit_cons (c : N) : option (uint -> uint) :=
  match c with
  | 48 => Some D0 | 49 => Some D1 | 50 => Some D2 | 51 => Some D3
  | 52 => Some D4 | 53 => Some D5 | 54 => Some D6 | 55 => Some D7
  | 56 => Some D8 | 57 => Some D9 | _ => None
  end.

(** The longest run of decimal digits at the head of [s]. *)
Fixpoint scan_digits (s : list N) : uint * list N :=
  match s with
  | [] => (Nil, [])
  | c :: r =>
      match digit_cons c with
      | Some d => let (u, r') := scan_digits r in (d u, r')
      | None => (Nil, s)
      end
  end.

(** [sys.get_int_max_str_digits()] *)
Definition int_max_str_digits : nat := 4300.

Definition no_digits (u : uint) : bool :=
  match u with
  | Nil => true
  | _ => false
  end.

(** The fraction of a number, when there is one: a point and digits. *)
Definition scan_frac (s : list N) : string * list N :=
  match s with
  | c :: r =>
      if c =? 46 then
        let (u, r') := scan_digits r in
        if no_digits u then (EmptyString, s)
        else (String "." (NilEmpty.string_of_uint u), r')
      else (EmptyString, s)
  | [] => (EmptyString, s)
  end.

Definition scan_sign (s : list N) : string * list N :=
  match s with
  | c :: r =>
      if c =? 43 then ("+"%string, r)
      else if c =? 45 then ("-"%string, r)
      else (EmptyString, s)
  | [] => (EmptyString, s)
  end.

(** The exponent of a number, when there is one: [e] or [E], a sign or
    none, and digits. *)
Definition scan_exp (s : list N) : string * list N :=
  match s with
  | c :: r =>
      if (c =? 101) || (c =? 69) then
        let (sign, r1) := scan_sign r in
        let (u, r') := scan_digits r1 in
        if no_digits u then (EmptyString, s)
        else (String (ascii_of_N c) (sign +:+ NilEmpty.string_of_uint u), r')
      else (EmptyString, s)
  | [] => (EmptyString, s)
  end.

Section WithFloat.
Context `{PyFloat}.

(** A number: an optional minus, [0] or digits that start with a non-zero
    one, then a fraction and an exponent or none.  With neither it is an
    [int], refused beyond the limit of digits; else it is the [float] of
    its text. *)
Definition scan_number (s : list N) : option (json * list N) :=
  let (minus, s1) :=
    match s with
    | c :: r => if c =? 45 then ("-"%string, r) else (EmptyString, s)
    | [] => (EmptyString, s)
    end in
  let (u, r) := scan_digits s1 in
  if negb (uint_beq (unorm u) u) then None
  else
    let (frac, r1) := scan_frac r in
    let (ex, r2) := scan_exp r1 in
    if String.eqb frac "" && String.eqb ex "" then
      if (int_max_str_digits <? nb_digits u)%nat then None
      else
        Some (JInt (if String.eqb minus "" then Z.of_N (N.of_uint u)
                    else - Z.of_N (N.of_uint u))%Z, r)
    else
      Some (JFloat
              (float_repr (minus +:+ NilEmpty.string_of_uint u +:+ frac
                           +:+ ex)), r2).

Fixpoint strip_prefix (p : list N) (s : list N) : option (list N) :=
  match p, s with
  | [], _ => Some s
  | a :: p', b :: s' => if a =? b then strip_prefix p' s' else None
  | _ :: _, [] => None
  end.

Definition constants : list (string * json) :=
  [("null", JNull); ("true", JBool true); ("false", JBool false);
   ("NaN", JFloat "nan"); ("Infinity", JFloat "inf");
   ("-Infinity", JFloat "-inf")]%string.

Fixpoint scan_constant (cs : list (string * json)) (s : list N)
  : option (json * list N) :=
  match cs with
  | [] => None
  | (name, v) :: cs' =>
      match strip_prefix (Utf8.codes name) s with
      | Some r => Some (v, r)
      | None => scan_constant cs' s
      end
  end.

Definition scan_literal (s : list N) : option (json * list N) :=
  match scan_constant constants s with
  | Some vr => Some vr
  | None => scan_number s
  end.

(** A decoded string, as a [str]. *)
Definition text (l : list N) : string := Utf8.encode l.

(** The recursive-descent scanner.  [parse_value] starts at the first
    character of a value; [parse_elems] after [[] and white space, at the
    first element; [parse_members] at the quote of a key.  The fuel
    bounds the nesting of calls; the length of the text is enough for
    every text. *)
Fixpoint parse_value (fuel : nat) (s : list N) : option (json * list N) :=
  match fuel with
  | O => None
  | S fuel' =>
      match s with
      | [] => None
      | c :: r =>
          if c =? 34 then
            match scan_string r with
            | Some (x, r') => Some (JStr (text x), r')
            | None => None
            end
          else if c =? 91 then
            match skip_ws r with
            | c' :: r' =>
                if c' =? 93 then Some (JArr [], r')
                else
                  match parse_elems fuel' (c' :: r') with
                  | Some (l, r'') => Some (JArr l, r'')
                  | None => None
                  end
            | [] => None
            end
          else if c =? 123 then
            match skip_ws r with
            | c' :: r' =>
                if c' =? 125 then Some (JObj [], r')
                else
                  match parse_members fuel' (c' :: r') with
                  | Some (ps, r'') => Some (JObj (PyDict.of_pairs ps), r'')
                  | None => None
                  end
            | [] => None
            end
          else scan_literal s
      end
  end
with parse_elems (fuel : nat) (s : list N) : option (list json * list N) :=
  match fuel with
  | O => None
  | S fuel' =>
      match parse_value fuel' s with
      | None => None
      | Some (v, r) =>
          match skip_ws r with
          | c :: r' =>
              if c =? 93 then Some ([v], r')
              else if c =? 44 then
                match parse_elems fuel' (skip_ws r') with
                | Some (l, r'') => Some (v :: l, r'')
                | None => None
                end
              else None
          | [] => None
          end
      end
  end
with parse_members (fuel : nat) (s : list N)
  : option (list (string * json) * list N) :=
  match fuel with
  | O => None
  | S fuel' =>
      match s with
      | [] => None
      | q :: r =>
          if negb (q =? 34) then None
          else
            match scan_string r with
            | None => None
            | Some (k, r1) =>
                match skip_ws r1 with
                | [] => None
                | c :: r2 =>
                    if negb (c =? 58) then None
                    else
                      match parse_value fuel' (skip_ws r2) with
                      | None => None
                      | Some (v, r3) =>
                          match skip_ws r3 with
                          | [] => None
                          | c' :: r4 =>
                              if c' =? 125
                              then Some ([(text k, v)], r4)
                              else if c' =? 44 then
                                match parse_members fuel' (skip_ws r4) with
                                | Some (ps, r5) =>
                                    Some ((text k, v) :: ps, r5)
                                | None => None
                                end
                              else None
                          end
                      end
                end
            end
      end
  end.

(** The scanner on a text: one value, white space around it. *)
Definition loads_text (t : list N) : option json :=
  match parse_value (length t) (skip_ws t) with
  | Some (v, r) =>
      match skip_ws r with
      | [] => Some v
      | _ :: _ => None
      end
  | None => None
  end.

(** [json.loads(s)]: [None] stands for the exception it raises, a
    [JSONDecodeError] or the [ValueError] of the limit of digits. *)
Definition loads (s : string) : option json :=
  match Utf8.decode s with
  | Some t => loads_text t
  | None => None
  end.

(** *** What [json.loads] returns *)

Fixpoint no_pair (l : list N) : bool :=
  match l with
  | a :: r =>
      match r with
      | b :: _ => negb (Unicode.is_high a && Unicode.is_low b)
      | [] => true
      end && no_pair r
  | [] => true
  end.

(** A text in which no low surrogate follows a high one. *)
Definition wf_str (s : string) : bool :=
  match Utf8.decode s with
  | Some l => no_pair l
  | None => false
  end.

(** A [float] that reads back from its [repr]. *)
Definition float_text (r : string) : bool :=
  match scan_number (Utf8.codes r) with
  | Some (JFloat x, []) => String.eqb x r
  | _ => false
  end.

Definition wf_float (r : string) : bool :=
  String.eqb r "nan" || String.eqb r "inf" || String.eqb r "-inf"
  || float_text r.

(** Keys pairwise distinct at every depth, integers within the limit of
    digits, floats that read back. *)
Fixpoint wf (v : json) : bool :=
  match v with
  | JInt n => (nb_digits (N.to_uint (Z.abs_N n)) <=? int_max_str_digits)%nat
  | JFloat r => wf_float r
  | JStr s => wf_str s
  | JArr l => forallb wf l
  | JObj d =>
      bool_decide (NoDup (map fst d))
      && forallb wf_str (map fst d)
      && forallb (fun kv => wf (snd kv)) d
  | _ => true
  end.

End WithFloat.

(** Writing test data: every apostrophe of [s] becomes a double quote. *)
Fixpoint lit (s : string) : string :=
  match s with
  | EmptyString => EmptyString
  | String c r =>
      String (if (PyStr.code c =? 39)%N then dquote else c) (lit r)
  end.

End Json.

(** [float(repr(x)) == x]: the float of a number text is written by
    [repr] as a text that reads back as the same float. *)
Class PyFloatLaws `{PyFloat} : Prop := {
  float_reads_back :
    forall s r rest,
      Json.scan_number s = Some (JFloat r, rest) -> Json.wf_float r = true;
}.

(** ** Induction on JSON values *)

Section JsonInd.
Variable P : json -> Prop.
Hypothesis Hnull : P JNull.
Hypothesis Hbool : forall b, P (JBool b).
Hypothesis Hint : forall n, P (JInt n).
Hypothesis Hfloat : forall r, P (JFloat r).
Hypothesis Hstr : forall s, P (JStr s).
Hypothesis Harr : forall l, Forall P l -> P (JArr l).
Hypothesis Hobj : forall d, Forall (fun kv => P (snd kv)) d -> P (JObj d).

Fixpoint json_nested_ind (v : json) : P v :=
  match v with
  | JNull => Hnull
  | JBool b => Hbool b
  | JInt n => Hint n
  | JFloat r => Hfloat r
  | JStr s => Hstr s
  | JArr l =>
      Harr l
        ((fix go (l : list json) : Forall P l :=
            match l with
            | [] => @List.Forall_nil _ P
            | x :: l' => @List.Forall_cons _ P x l' (json_nested_ind x) (go l')
            end) l)
  | JObj d =>
      Hobj d
        ((fix go (d : list (string * json))
            : Forall (fun kv => P (snd kv)) d :=
            match d with
            | [] => @List.Forall_nil _ _
            | kv :: d' =>
                @List.Forall_cons _ _ kv d' (json_nested_ind (snd kv)) (go d')
            end) d)
  end.
End JsonInd.

(** ** [str(v)] on a decoded JSON value *)

Module PyRepr.
Local Open Scope N_scope.

Definition squote : ascii := ascii_of_N 39.

Fixpoint has_char (c : ascii) (s : string) : bool :=
  match s with
  | EmptyString => false
  | String a r => Ascii.eqb a c || has_char c r
  end.

(** [repr] quotes with an apostrophe unless the text has one and has no
    double quote. *)
Definition quote_of (s : string) : ascii :=
  if has_char squote s && negb (has_char Json.dquote s)
  then Json.dquote else squote.

Fixpoint hex_text (digits : nat) (n : N) : string :=
  match digits with
  | O => ""
  | S k => hex_text k (n / 16) +:+ String (Json.hex_digit (n mod 16)) ""
  end.

(** One code point of the [repr] of a [str] quoted with [q]. *)
Definition repr_cp (q : N) (n : N) : string :=
  if (n =? q) || (n =? 92)
  then String Json.backslash (String (ascii_of_N n) "")
  else if n =? 9 then String Json.backslash "t"
  else if n =? 10 then String Json.backslash "n"
  else if n =? 13 then String Json.backslash "r"
  else if (n <? 32) || (n =? 127)
  then String Json.backslash (String "x" (hex_text 2 n))
  else if n <? 127 then String (ascii_of_N n) ""
  else if Unicode.is_printable n then Utf8.encode_cp n
  else if n <? 256 then String Json.backslash (String "x" (hex_text 2 n))
  else if n <? 65536
  then String Json.backslash (String "u" (hex_text 4 n))
  else String Json.backslash (String "U" (hex_text 8 n)).

Fixpoint repr_body (q : N) (l : list N) : string :=
  match l with
  | [] => ""
  | n :: r => repr_cp q n +:+ repr_body q r
  end.

Definition repr_str (s : string) : string :=
  let q := quote_of s in
  let l :=
    match Utf8.decode s with
    | Some l => l
    | None => Utf8.codes s
    end in
  String q (repr_body (N_of_ascii q) l +:+ String q "").

Definition repr_member (repr : json -> string) (kv : string * json)
  : string :=
  repr_str (fst kv) +:+ ": " +:+ repr (snd kv).

Fixpoint repr (v : json) : string :=
  match v with
  | JNull => "None"
  | JBool true => "True"
  | JBool false => "False"
  | JInt n => PyStr.of_Z n
  | JFloat r => r
  | JStr s => repr_str s
  | JArr l => "[" +:+ PyStr.join ", " (map repr l) +:+ "]"
  | JObj d => "{" +:+ PyStr.join ", " (map (repr_member repr) d) +:+ "}"
  end.

(** [str(v)]: a string is itself, anything else is its [repr]. *)
Definition py_str (v : json) : string :=
  match v with
  | JStr s => s
  | _ => repr v
  end.

End PyRepr.

(** ** Text files *)

Module PyFile.

(** [for line in f] on a file opened in text mode: a line ends after a
    line feed; a carriage return, alone or before a line feed, is read
    as a line feed; the last line may lack its terminator. *)
Fixpoint lines_from (cur : string) (s : string) : list string :=
  match s with
  | EmptyString =>
      match cur with
      | EmptyString => []
      | String _ _ => [cur]
      end
  | String c r =>
      if (PyStr.code c =? 10)%N then (cur +:+ PyStr.nl) :: lines_from "" r
      else if (PyStr.code c =? 13)%N then
        match r with
        | String c' r' =>
            if (PyStr.code c' =? 10)%N
            then (cur +:+ PyStr.nl) :: lines_from "" r'
            else (cur +:+ PyStr.nl) :: lines_from "" r
        | EmptyString => (cur +:+ PyStr.nl) :: lines_from "" r
        end
      else lines_from (cur +:+ String c "") r
  end.

Definition lines (content : string) : list string := lines_from "" content.

(** [f.write(json.dumps(obj) + "\n")] on the content written so far. *)
Definition write_record (out : string) (obj : json) : string :=
  out +:+ Json.dumps obj +:+ PyStr.nl.

End PyFile.
(** ** Control: [for] loops whose body may raise *)

Fixpoint for_each {A S : Type} (body : A -> S -> exc S) (items : list A)
  (s : S) : exc S :=
  match items with
  | [] => Ok s
  | x :: rest =>
      match body x s with
      | Ok s' => for_each body rest s'
      | Raise e => Raise e
      end
  end.

(** [for x in v] on a decoded JSON value: a list gives its items, a string
    its characters, a dict its keys; anything else is not iterable. *)
Definition iter_items (v : json) : exc (list json) :=
  match v with
  | JArr l => Ok l
  | JStr s => Ok (map JStr (PyStr.chars s))
  | JObj d => Ok (map JStr (PyDict.keys d))
  | _ => Raise TypeError
  end.

(** [v[k] = x]: item assignment with a string key needs a dict. *)
Definition set_item (v : json) (k : string) (x : json) : exc json :=
  match v with
  | JObj d => Ok (JObj (PyDict.set d k x))
  | _ => Raise TypeError
  end.

(** ** Interpreter services *)

Class PyRuntime : Type := {
  (** [re.Pattern] *)
  pattern : Type;
  (** [re.compile(p, re.I)]; [None] stands for [re.error]. *)
  re_compile : string -> option pattern;
  (** [rx.search(text) is not None] *)
  re_search : pattern -> string -> bool;
  (** [hash(s)] on a [str], fixed for the life of the process. *)
  py_hash : string -> Z;
}.

(** ** The HTTP exchange *)

(** What one [requests.get] brings back. *)
Inductive response : Type :=
| Resp429                 (* status 429 *)
| RespError               (* anything that raises [RequestException] *)
| RespOk (data : json).   (* success, with its decoded body *)

Inductive pause : Type :=
| RateLimitCooldown       (* [time.sleep(60)] *)
| ErrorCooldown           (* [time.sleep(30)] *)
| Politeness.             (* the delay between two pages *)

(** What a harvest does, in order. *)
Inductive event : Type :=
| EvRequest (query : string) (cursor : json)
| EvSleep (p : pause)
| EvRecord (query : string) (item : json).

(** How a harvesting loop ends on a finite script of responses. *)
Inductive outcome (A : Type) : Type :=
| Returned (a : A) (rest : list response)
| Raised (e : py_exception)
| Blocked (a : A) (cursor : json).
Arguments Returned {A} a rest.
Arguments Raised {A} e.
Arguments Blocked {A} a cursor.

(** The [while True] loop of the two pagination clients, against a script
    of responses: the answers [requests.get] gives, in order.  A 429 and a
    [RequestException] both retry the request with the cursor unchanged;
    a decoded page goes to [handle], which says whether a next page is to
    be asked for, and with which cursor.  When the script runs out the
    loop is left waiting for an answer. *)
Section Paginate.
Context {St : Type}.
Variable emit : event -> St -> St.
Variable handle : json -> St -> exc (St * option json).
Variable query : string.

Fixpoint paginate (cursor : json) (rs : list response) (st : St)
  : outcome St :=
  match rs with
  | [] => Blocked st cursor
  | r :: rs' =>
      let st := emit (EvRequest query cursor) st in
      match r with
      | Resp429 =>
          paginate cursor rs' (emit (EvSleep RateLimitCooldown) st)
      | RespError =>
          paginate cursor rs' (emit (EvSleep ErrorCooldown) st)
      | RespOk data =>
          match handle data st with
          | Raise e => Raised e
          | Ok (st', None) => Returned st' rs'
          | Ok (st', Some next_cursor) =>
              paginate next_cursor rs' (emit (EvSleep Politeness) st')
          end
      end
  end.
End Paginate.


Definition records_of (log : list event) : list (string * json) :=
  omap (fun e => match e with EvRecord q x => Some (q, x) | _ => None end)
    log.

(** Reading a JSONL text. *)
Definition line_of (obj : json) : string := Json.dumps obj +:+ PyStr.nl.

Fixpoint render (objs : list json) : string :=
  match objs with
  | [] => ""
  | o :: rest => line_of o +:+ render rest
  end.

Definition parsed `{PyFloat} (content : string) : list json :=
  omap Json.loads (PyFile.lines content).

Definition is_object (v : json) : bool :=
  match v with JObj _ => true | _ => false end.

Definition strs_of (l : list json) : list string :=
  omap (fun v => match v with JStr s => Some s | _ => None end) l.

(** [_text_to_str], the same in both modules. *)
Definition _text_to_str (val : json) : string :=
  match val with
  | JArr l => PyStr.join " " (strs_of l)
  | JStr s => s
  | _ => ""
  end.

(** ** The regex relevance filter, the same in both modules *)

Section RegexFilter.
Context `{PyRuntime}.

Fixpoint _compile_patterns (patterns : list string)
  : exc (list pattern) :=
  match patterns with
  | [] => Ok []
  | p :: ps =>
      match re_compile p with
      | None => Raise ReError
      | Some rx =>
          let* rxs := _compile_patterns ps in
          Ok (rx :: rxs)
      end
  end.

Definition _default_regex_config : list (string * json) :=
  [("groups", JObj []); ("scope", JStr "field")].

(** One turn of the loop over [groups_cfg.items()]. *)
Definition normalize_group (item : string * json)
  (groups_compiled : list (string * list pattern))
  : exc (list (string * list pattern)) :=
  let (g, pats) := item in
  let pats := match pats with JStr _ => JArr [pats] | _ => pats end in
  match pats with
  | JArr l =>
      let* rxs := _compile_patterns (strs_of l) in
      Ok (PyDict.set groups_compiled g rxs)
  | _ => Ok groups_compiled
  end.

Definition _normalize_regex_cfg (cfg : json)
  : exc (list (string * list pattern) * string) :=
  let cfg :=
    match cfg with JObj d => d | _ => _default_regex_config end in
  let scope := Json.or_ (Json.get cfg "scope") (JStr "field") in
  let groups_cfg_raw := Json.get cfg "groups" in
  let groups_cfg :=
    match groups_cfg_raw with
    | JObj g => g
    | _ => []
    end in
  let* groups_compiled := for_each normalize_group groups_cfg [] in
  Ok (groups_compiled, PyRepr.py_str scope).

(** The loop of [_text_matches_groups] over [groups.values()]. *)
Fixpoint every_group_matches (text : string)
  (vals : list (list pattern)) : bool :=
  match vals with
  | [] => true
  | pats :: rest =>
      if negb (existsb (fun rx => re_search rx text) pats) then false
      else every_group_matches text rest
  end.

Definition _text_matches_groups (text : json)
  (groups : list (string * list pattern)) : bool :=
  match groups with
  | [] => false
  | _ :: _ =>
      if negb (Json.truthy text) then false
      else
        let text :=
          match text with
          | JArr l => JStr (PyStr.join " " (strs_of l))
          | _ => text
          end in
        match text with
        | JStr s => every_group_matches s (PyDict.values groups)
        | _ => false
        end
  end.

(** [" ".join(x for x in (title, abstract) if x)] *)
Definition combined_text (title abstract : string) : string :=
  PyStr.join " "
    (filter (fun x => x <> "") [title; abstract]).

(** The body shared by [_matches_entry_groups] and
    [_eupmc_matches_entry_groups], once the two fields are read. *)
Definition matches_fields (title abstract : string)
  (groups : list (string * list pattern)) (scope : string) : bool :=
  if String.eqb scope "title" then _text_matches_groups (JStr title) groups
  else if String.eqb scope "abstract"
  then _text_matches_groups (JStr abstract) groups
  else if String.eqb scope "field"
  then _text_matches_groups (JStr title) groups
       || _text_matches_groups (JStr abstract) groups
  else _text_matches_groups (JStr (combined_text title abstract)) groups.

End RegexFilter.

(** Per-file statistics of a de-duplication pass; [missing] is the field
    [missing_doi] of Crossref and [missing_key] of Europe PMC. *)
Record dedup_stats : Type := DedupStats {
  total : Z;
  kept : Z;
  duplicates : Z;
  missing : Z;
}.

(** The local variables of the de-duplication loop. *)
Record dedup_state : Type := DedupState {
  dd_seen : gset string;
  dd_out : string;
  dd_total : Z;
  dd_kept : Z;
  dd_missing : Z;
}.

Definition dedup_init : dedup_state := DedupState ∅ "" 0 0 0.

Definition dedup_result (st : dedup_state) : string * dedup_stats :=
  (dd_out st,
   DedupStats (dd_total st) (dd_kept st) (dd_total st - dd_kept st)
     (dd_missing st)).

(** The body of [for line in fin] in [_deduplicate_jsonl_file]; the two
    modules differ in the identity key only. *)
Definition dedup_line `{PyFloat} (key_of : json -> exc string)
  (line : string)
  (st : dedup_state) : exc dedup_state :=
  let '(DedupState seen out total kept missing_key) := st in
  let total := total + 1 in
  match Json.loads line with
  | None => Ok (DedupState seen out total kept missing_key)
  | Some obj =>
      let* key := key_of obj in
      if String.eqb key "" then
        Ok (DedupState seen (PyFile.write_record out obj) total
              (kept + 1) (missing_key + 1))
      else if bool_decide (key ∈ seen) then
        Ok (DedupState seen out total kept missing_key)
      else
        Ok (DedupState ({[key]} ∪ seen) (PyFile.write_record out obj)
              total (kept + 1) missing_key)
  end.

Definition dedup_file `{PyFloat} (key_of : json -> exc string)
  (content : string)
  : exc (string * dedup_stats) :=
  let* st := for_each (dedup_line key_of) (PyFile.lines content) dedup_init in
  Ok (dedup_result st).

(** Statistics of a filter pass. *)
Record filter_stats : Type := FilterStats {
  f_total : Z;
  f_kept : Z;
}.

Record filter_state : Type := FilterState {
  fl_seen : gset string;
  fl_out : string;
  fl_total : Z;
  fl_kept : Z;
}.

(** The state a keyword harvest threads through all its queries. *)
Record harvest : Type := Harvest {
  h_seen : gset string;
  h_file : string;
  h_log : list event;
}.

Definition log_event (e : event) (st : harvest) : harvest :=
  Harvest (h_seen st) (h_file st) (h_log st ++ [e]).

(** ** [search_crossref.py] *)

Module Crossref.

(** [(obj.get("DOI") or obj.get("doi") or "").strip().lower()] *)
Definition doi_of (obj : json) : exc string :=
  match obj with
  | JObj d =>
      match Json.or_ (Json.or_ (Json.get d "DOI") (Json.get d "doi"))
              (JStr "") with
      | JStr s => Ok (PyStr.lower (PyStr.strip s))
      | _ => Raise AttributeError
      end
  | _ => Raise AttributeError
  end.

(** [_deduplicate_jsonl_file]: from the content of the input file to the
    content of the output file and the statistics. *)
Definition _deduplicate_jsonl_file `{PyFloat} (content : string)
  : exc (string * dedup_stats) :=
  dedup_file doi_of content.

Section Filter.
Context `{PyFloat} `{PyRuntime}.

Definition _matches_entry_groups (entry : list (string * json))
  (groups : list (string * list pattern)) (scope : string) : bool :=
  let title := _text_to_str (Json.get entry "title") in
  let abstract := _text_to_str (Json.get entry "abstract") in
  matches_fields title abstract groups scope.

(** The body of [for line in fin] in [regex_filter_crossref_jsonl]. *)
Definition filter_line (groups : list (string * list pattern))
  (scope : string) (line : string) (st : filter_state)
  : exc filter_state :=
  let '(FilterState seen out total kept) := st in
  match Json.loads line with
  | None => Ok st
  | Some obj =>
      let total := total + 1 in
      match obj with
      | JObj entry =>
          if _matches_entry_groups entry groups scope then
            let* doi := doi_of obj in
            if negb (String.eqb doi "") && bool_decide (doi ∈ seen)
            then Ok (FilterState seen out total kept)
            else
              let seen :=
                if negb (String.eqb doi "") then {[doi]} ∪ seen
                else seen in
              Ok (FilterState seen (PyFile.write_record out obj)
                    total (kept + 1))
          else Ok (FilterState seen out total kept)
      | _ => Raise AttributeError
      end
  end.

Definition regex_filter_crossref_jsonl (content : string)
  (regex_cfg : json) : exc (string * filter_stats) :=
  let* '(groups, scope) := _normalize_regex_cfg regex_cfg in
  let* st := for_each (filter_line groups scope) (PyFile.lines content)
               (FilterState ∅ "" 0 0) in
  Ok (fl_out st, FilterStats (fl_total st) (fl_kept st)).

End Filter.

(** The body of [for entry in batch] in [search_crossref_cursor]. *)
Definition write_entry (q : string) (dedupe_on_write : bool)
  (entry : json) (st : harvest) : exc harvest :=
  let st := log_event (EvRecord q entry) st in
  let* entry := set_item entry "source_query" (JStr q) in
  let* doi := doi_of entry in
  if dedupe_on_write && negb (String.eqb doi "") then
    if bool_decide (doi ∈ h_seen st) then Ok st
    else
      Ok (Harvest ({[doi]} ∪ h_seen st)
            (PyFile.write_record (h_file st) entry) (h_log st))
  else
    Ok (Harvest (h_seen st)
          (PyFile.write_record (h_file st) entry) (h_log st)).

(** [data.get("message", {}).get(key, dflt)] *)
Definition message_field (data : json) (key : string) (dflt : json)
  : exc json :=
  match data with
  | JObj d =>
      match Json.get_default d "message" (JObj []) with
      | JObj m => Ok (Json.get_default m key dflt)
      | _ => Raise AttributeError
      end
  | _ => Raise AttributeError
  end.

(** What the loop does with a decoded page: the new state, and the
    cursor of the next page when there is one. *)
Definition handle_page (q : string) (rows : Z) (dedupe_on_write : bool)
  (data : json) (st : harvest) : exc (harvest * option json) :=
  let* batch := message_field data "items" (JArr []) in
  let* entries := iter_items batch in
  let* st' := for_each (write_entry q dedupe_on_write) entries st in
  if negb (Json.truthy batch) || (Z.of_nat (length entries) <? rows)
  then Ok (st', None)
  else
    let* next_cursor := message_field data "next-cursor" JNull in
    if negb (Json.truthy next_cursor) then Ok (st', None)
    else Ok (st', Some next_cursor).

(** The [while True] loop of [search_crossref_cursor] for one query. *)
Definition cursor_loop (q : string) (rows : Z) (dedupe_on_write : bool)
  : json -> list response -> harvest -> outcome harvest :=
  paginate log_event (handle_page q rows dedupe_on_write) q.

(** The loop [for q in queries]. *)
Fixpoint query_loop (queries : list string) (rows : Z)
  (dedupe_on_write : bool) (rs : list response) (st : harvest)
  : outcome harvest :=
  match queries with
  | [] => Returned st rs
  | q :: qs =>
      match cursor_loop q rows dedupe_on_write (JStr "*") rs st with
      | Returned st' rs' => query_loop qs rows dedupe_on_write rs' st'
      | Raised e => Raised e
      | Blocked st' c => Blocked st' c
      end
  end.

(** [search_crossref_cursor]: the output file starts empty and the set of
    seen DOIs is created once, before the first query. *)
Definition search_crossref_cursor (queries : list string) (rows : Z)
  (dedupe_on_write : bool) (rs : list response) : outcome harvest :=
  query_loop queries rows dedupe_on_write rs (Harvest ∅ "" []).

End Crossref.

(** ** [search_europe_pmc.py] *)

Module EuropePMC.

Section WithRuntime.
Context `{PyFloat} `{PyRuntime}.

Definition _dedup_key_eupmc (entry : json) : exc string :=
  match entry with
  | JObj d =>
      match Json.or_ (Json.or_ (Json.get d "doi") (Json.get d "DOI"))
              (JStr "") with
      | JStr s =>
          let doi := PyStr.lower (PyStr.strip s) in
          if negb (String.eqb doi "") then Ok ("doi:" +:+ doi)
          else
            match Json.or_ (Json.get d "id") (JStr "") with
            | JStr s' =>
                let eid := PyStr.strip s' in
                if negb (String.eqb eid "") then Ok ("id:" +:+ eid)
                else
                  let title := _text_to_str (Json.get d "title") in
                  Ok ("title:" +:+ PyStr.of_Z (py_hash title))
            | _ => Raise AttributeError
            end
      | _ => Raise AttributeError
      end
  | _ => Raise AttributeError
  end.

Definition _deduplicate_jsonl_file (content : string)
  : exc (string * dedup_stats) :=
  dedup_file _dedup_key_eupmc content.

Definition _eupmc_matches_entry_groups (entry : list (string * json))
  (groups : list (string * list pattern)) (scope : string) : bool :=
  let title := _text_to_str (Json.get entry "title") in
  let abstract := _text_to_str (Json.get entry "abstractText") in
  matches_fields title abstract groups scope.

(** [(data.get("resultList") or {}).get("result") or []] *)
Definition page_results (data : json) : exc json :=
  match data with
  | JObj d =>
      match Json.or_ (Json.get d "resultList") (JObj []) with
      | JObj rl => Ok (Json.or_ (Json.get rl "result") (JArr []))
      | _ => Raise AttributeError
      end
  | _ => Raise AttributeError
  end.

(** [data.get("nextCursorMark")] *)
Definition page_next_cursor (data : json) : json :=
  match data with
  | JObj d => Json.get d "nextCursorMark"
  | _ => JNull
  end.

Section Generator.
(** The body of the [for] statement that consumes the generator. *)
Context {S : Type} (body : json -> S -> exc S).

(** [yield item]: the consumer runs its body on the item. *)
Definition yield_item (query : string) (item : json)
  (sl : S * list event) : exc (S * list event) :=
  let* s' := body item (fst sl) in
  Ok (s', (snd sl ++ [EvRecord query item])%list).

(** What the generator does with a decoded page. *)
Definition handle_page (query : string) (page_size : Z) (data : json)
  (sl : S * list event) : exc ((S * list event) * option json) :=
  let* results := page_results data in
  let* items := iter_items results in
  let* sl' := for_each (yield_item query) items sl in
  let next_cursor := page_next_cursor data in
  if negb (Json.truthy results)
     || (Z.of_nat (length items) <? page_size)
     || negb (Json.truthy next_cursor)
  then Ok (sl', None)
  else Ok (sl', Some next_cursor).

Definition emit (e : event) (sl : S * list event) : S * list event :=
  (fst sl, (snd sl ++ [e])%list).

(** The loop of [eupmc_iter_results], from a given cursor. *)
Definition iter_from (query : string) (page_size : Z)
  : json -> list response -> S * list event
    -> outcome (S * list event) :=
  paginate emit (handle_page query page_size) query.

Definition eupmc_iter_results (query : string) (page_size : Z)
  (rs : list response) (sl : S * list event)
  : outcome (S * list event) :=
  iter_from query page_size (JStr "*") rs sl.

End Generator.

(** The body of [for item in eupmc_iter_results(...)] in
    [search_eupmc_keywords], on the seen keys and the output file. *)
Definition write_item (q : string) (dedupe_on_write : bool)
  (item : json) (s : gset string * string)
  : exc (gset string * string) :=
  let* item := set_item item "source_query" (JStr q) in
  let* key := _dedup_key_eupmc item in
  if dedupe_on_write && bool_decide (key ∈ fst s) then Ok s
  else Ok ({[key]} ∪ fst s, PyFile.write_record (snd s) item).

(** [f"({q}) AND ({extra_and})" if extra_and else q] *)
Definition effective_query (extra_and : option string) (q : string)
  : string :=
  match extra_and with
  | Some e =>
      if String.eqb e "" then q
      else "(" +:+ q +:+ ") AND (" +:+ e +:+ ")"
  | None => q
  end.

Fixpoint keywords_loop (queries : list string) (page_size : Z)
  (dedupe_on_write : bool) (extra_and : option string)
  (rs : list response) (sl : (gset string * string) * list event)
  : outcome ((gset string * string) * list event) :=
  match queries with
  | [] => Returned sl rs
  | q :: qs =>
      match eupmc_iter_results (write_item q dedupe_on_write)
              (effective_query extra_and q) page_size rs sl with
      | Returned sl' rs' =>
          keywords_loop qs page_size dedupe_on_write extra_and rs' sl'
      | Raised e => Raised e
      | Blocked sl' c => Blocked sl' c
      end
  end.

(** [search_eupmc_keywords]: the output file starts empty and the set
    of seen keys is created once, before the first query. *)
Definition search_eupmc_keywords (queries : list string)
  (page_size : Z) (dedupe_on_write : bool) (extra_and : option string)
  (rs : list response) : outcome ((gset string * string) * list event) :=
  keywords_loop queries page_size dedupe_on_write extra_and rs
    ((∅, ""), []).

End WithRuntime.

End EuropePMC.

(** ** Vocabulary of the statements *)

(** *** Text *)

Definition printable_char (c : ascii) : bool :=
  ((32 <=? PyStr.code c) && (PyStr.code c <=? 126))%N.

Fixpoint printable (s : string) : bool :=
  match s with
  | EmptyString => true
  | String c r => printable_char c && printable r
  end.

Definition is_digit (c : N) : bool := ((48 <=? c) && (c <=? 57))%N.

(** What may follow a number: nothing that a number goes on with. *)
Definition stop_char (c : N) : bool :=
  negb (is_digit c || (c =? 46) || (c =? 101) || (c =? 69)
        || (c =? 43) || (c =? 45))%N.

Definition number_stop (s : list N) : Prop :=
  match s with
  | [] => True
  | c :: _ => stop_char c = true
  end.

(** The first character of an encoded value: never white space, never a
    closing bracket. *)
Definition value_head (c : N) : bool :=
  (negb (Json.is_ws c) && negb (c =? 93) && negb (c =? 125))%N.

(** Scanning the encoding of [v], with enough fuel, gives [v] back and
    stops right after it. *)
Definition decodes_back `{PyFloat} (v : json) : Prop :=
  forall fuel rest,
    (String.length (Json.dumps v) <= fuel)%nat ->
    number_stop rest ->
    Json.parse_value fuel (Utf8.codes (Json.dumps v) ++ rest)
    = Some (v, rest).

(** *** Unicode tables *)

(** The code points of a list of ranges. *)
Definition enum_ranges (rs : list (N * N)) : list N :=
  flat_map (fun r =>
              map (fun k => (fst r + N.of_nat k)%N)
                (seq 0 (N.to_nat (snd r - fst r) + 1))) rs.

(** A code point that [str.lower] leaves alone in every context, that is
    no white space, and that a [str] may hold. *)
Definition lower_fixed (d : N) : bool :=
  (negb (d =? Unicode.capital_sigma) && negb (d =? 304)
   && match Unicode.assoc d Unicode.lower_pairs with
      | None => true
      | Some _ => false
      end
   && negb (Unicode.is_space d) && (d <? Unicode.max_code))%N.

(** White space is in no table of letters. *)
Definition plain_space (c : N) : bool :=
  (negb (c =? Unicode.capital_sigma) && negb (c =? 304)
   && match Unicode.assoc c Unicode.lower_pairs with
      | None => true
      | Some _ => false
      end
   && negb (Unicode.is_case_ignorable c) && negb (Unicode.is_cased c)
   && (c <? Unicode.max_code))%N.

(** What one step of [str.lower] writes. *)
Definition lower_step (before : bool) (c : N) (r : list N) : list N :=
  if (c =? Unicode.capital_sigma)%N
  then [if before && negb (Unicode.cased_ahead r) then Unicode.final_sigma
        else Unicode.small_sigma]
  else Unicode.lower_full c.

(** A code point that [str.lower] maps to itself, in every context. *)
Definition stays (d : N) : Prop :=
  d <> Unicode.capital_sigma /\ Unicode.lower_full d = [d].

(** *** The text of a number *)

Definition no_digit_head (s : list N) : Prop :=
  match s with
  | [] => True
  | c :: _ => Json.digit_cons c = None
  end.

(** The fraction of a number text: none, or a point and digits. *)
Definition frac_text (t : string) : Prop :=
  t = "" \/ exists u, u <> Nil /\ t = String "." (NilEmpty.string_of_uint u).

(** The exponent of a number text: none, or the letter, a sign or none,
    and digits. *)
Definition exp_text (t : string) : Prop :=
  t = ""
  \/ exists c sign u,
       (c = 101 \/ c = 69)%N /\ (sign = "" \/ sign = "+" \/ sign = "-")
       /\ u <> Nil
       /\ t = String (ascii_of_N c) (sign +:+ NilEmpty.string_of_uint u).

(** The text of a JSON number that is a float. *)
Definition float_literal (t : string) : Prop :=
  exists minus u frac ex,
    (minus = "" \/ minus = "-") /\ unorm u = u
    /\ frac_text frac /\ exp_text ex /\ ~ (frac = "" /\ ex = "")
    /\ t = minus +:+ NilEmpty.string_of_uint u +:+ frac +:+ ex.

(** What follows a fraction: the letter of an exponent, or what may
    follow the number. *)
Definition after_frac (rest : list N) : Prop :=
  match rest with
  | [] => True
  | c :: _ => is_digit c = false /\ c <> 46%N
  end.

(** A number text starts with a digit, or a minus and a digit. *)
Definition number_head (s : list N) : Prop :=
  match s with
  | c :: r =>
      is_digit c = true
      \/ (c = 45%N /\ match r with d :: _ => is_digit d = true | [] => False end)
  | [] => False
  end.

(** *** Surrogates in a string literal *)

(** What may follow the escape of a lone high surrogate: anything but
    the escape of a low one. *)
Definition low_escape (s : list N) : bool :=
  match s with
  | b :: u :: l1 :: l2 :: l3 :: l4 :: _ =>
      ((b =? 92) && (u =? 117))%N
      && match Json.hex4 l1 l2 l3 l4 with
         | Some y => Unicode.is_low y
         | None => false
         end
  | _ => false
  end.

(** The escape that comes next is well formed. *)
Definition sound_escape (s : list N) : bool :=
  match s with
  | b :: u :: l1 :: l2 :: l3 :: l4 :: _ =>
      negb ((b =? 92) && (u =? 117))%N
      || match Json.hex4 l1 l2 l3 l4 with
         | Some _ => true
         | None => false
         end
  | _ => true
  end.

Definition starts_low (l : list N) : bool :=
  match l with
  | c :: _ => Unicode.is_low c
  | [] => false
  end.

(** What the scanner of string literals returns: code points a [str] may
    hold, without a surrogate pair; and it starts with a low surrogate
    only when the literal starts with the escape of one. *)
Definition sound_scan (s : list N) : Prop :=
  forall x r,
    Json.scan_string s = Some (x, r) ->
    Forall (fun n => (n < Unicode.max_code)%N) x
    /\ Json.no_pair x = true
    /\ (starts_low x = true -> low_escape s = true).

(** *** Keeping the first record of every identity key *)

Section Keeps.
Context {A : Type} (key : A -> exc string).

(** [keeps seen l K seen']: starting with the keys [seen], a pass over
    [l] keeps the records [K] and ends with the keys [seen'].  A record
    without a key is kept; a record with a new key is kept and its key
    remembered; a record with a known key is dropped. *)
Inductive keeps : gset string -> list A -> list A -> gset string -> Prop :=
| keeps_nil s : keeps s [] [] s
| keeps_nokey s x l K s' :
    key x = Ok "" -> keeps s l K s' -> keeps s (x :: l) (x :: K) s'
| keeps_new s x k l K s' :
    key x = Ok k -> k <> "" -> k ∉ s ->
    keeps ({[k]} ∪ s) l K s' -> keeps s (x :: l) (x :: K) s'
| keeps_dup s x k l K s' :
    key x = Ok k -> k <> "" -> k ∈ s ->
    keeps s l K s' -> keeps s (x :: l) K s'.

Definition has_no_key (x : A) : bool :=
  match key x with
  | Ok k => String.eqb k ""
  | Raise _ => false
  end.

(** The non-empty identity keys of a list of records, in order. *)
Definition keys_of (l : list A) : list string :=
  omap (fun x =>
          match key x with
          | Ok k => if String.eqb k "" then None else Some k
          | Raise _ => None
          end) l.
End Keeps.

(** *** The two clients, and the passes over a stored file *)

Inductive source : Type := SrcCrossref | SrcEuropePMC.

Inductive pass : Type :=
| DedupCrossref
| DedupEuropePMC
| FilterCrossref (regex_cfg : json).

Section Passes.
Context `{PyFloat} `{PyRuntime}.

Definition deduplicate (c : source) (content : string)
  : exc (string * dedup_stats) :=
  match c with
  | SrcCrossref => Crossref._deduplicate_jsonl_file content
  | SrcEuropePMC => EuropePMC._deduplicate_jsonl_file content
  end.

(** The output file of a pass. *)
Definition run_pass (p : pass) (content : string) : exc string :=
  match p with
  | DedupCrossref =>
      let* r := Crossref._deduplicate_jsonl_file content in
      Ok (fst r)
  | DedupEuropePMC =>
      let* r := EuropePMC._deduplicate_jsonl_file content in
      Ok (fst r)
  | FilterCrossref regex_cfg =>
      let* r := Crossref.regex_filter_crossref_jsonl content regex_cfg in
      Ok (fst r)
  end.

(** The relevance filter as the specification words it: every group
    has a pattern that matches the selected text; under [combined] the
    text is the title, a space, and the abstract. *)
Definition spec_text_matches (text : string)
  (groups : list (string * list pattern)) : bool :=
  forallb (fun g => existsb (fun rx => re_search rx text) (snd g)) groups.

Definition spec_matches (title abstract : string)
  (groups : list (string * list pattern)) (scope : string) : bool :=
  if String.eqb scope "title" then spec_text_matches title groups
  else if String.eqb scope "abstract"
  then spec_text_matches abstract groups
  else if String.eqb scope "field"
  then spec_text_matches title groups || spec_text_matches abstract groups
  else spec_text_matches (title +:+ " " +:+ abstract) groups.

(** A text satisfies the groups, as the code has it. *)
Definition satisfies (text : string)
  (groups : list (string * list pattern)) : Prop :=
  groups <> [] /\ text <> "" /\
  Forall (fun g => Exists (fun rx => re_search rx text = true) (snd g))
    groups.
End Passes.

(** A record as [search_*_keywords] writes it: tagged with its query. *)
Definition tagged (qe : string * json) : json :=
  match snd qe with
  | JObj d => JObj (PyDict.set d "source_query" (JStr (fst qe)))
  | v => v
  end.



(** The identity key of a record as it arrives, paired with its query. *)
Definition crossref_arrival_key (qe : string * json) : exc string :=
  Crossref.doi_of (snd qe).

Definition eupmc_arrival_key `{PyRuntime} (qe : string * json) : exc string :=
  EuropePMC._dedup_key_eupmc (snd qe).

(** An arrival of Europe PMC under the query that was sent for it. *)
Definition effective (extra_and : option string) (qe : string * json)
  : string * json :=
  (EuropePMC.effective_query extra_and (fst qe), snd qe).

(** What a keyword harvest of Crossref maintains: the file holds, tagged,
    the first arrival of every DOI, and every arrival without one. *)
Definition crossref_inv (st : harvest) : Prop :=
  exists W,
    keeps crossref_arrival_key ∅ (records_of (h_log st)) W (h_seen st)
    /\ h_file st = render (map tagged W)
    /\ Forall (fun qe => is_object (snd qe) = true) W.

(** The same for Europe PMC, whose trace names the effective query. *)
Definition eupmc_inv `{PyRuntime} (extra_and : option string)
  (sl : (gset string * string) * list event) : Prop :=
  exists W,
    keeps eupmc_arrival_key ∅ (records_of (snd sl))
      (map (effective extra_and) W) (fst (fst sl))
    /\ snd (fst sl) = render (map tagged W)
    /\ Forall (fun qe => is_object (snd qe) = true) W.


(** ** A runtime and data to run the examples on *)

Module Demo.

Definition is_alnum_space (c : ascii) : bool :=
  let n := PyStr.code c in
  (((48 <=? n) && (n <=? 57)) || ((65 <=? n) && (n <=? 90))
   || ((97 <=? n) && (n <=? 122)) || (n =? 32))%N.

Fixpoint plain (s : string) : bool :=
  match s with
  | EmptyString => true
  | String c r => is_alnum_space c && plain r
  end.

(** A polynomial hash, standing for the interpreter's. *)
Fixpoint poly_hash (acc : Z) (s : string) : Z :=
  match s with
  | EmptyString => acc
  | String c r =>
      poly_hash ((acc * 1000003 + Z.of_N (PyStr.code c)) mod 2 ^ 61) r
  end.

(** Patterns made of ASCII letters, digits and spaces only: such a pattern
    has no regex operator, and searching it with [re.I] is a case-blind
    substring test.  This engine refuses every other pattern. *)
#[global] Instance literal_runtime : PyRuntime := {|
  pattern := string;
  re_compile := fun p => if plain p then Some (PyStr.lower p) else None;
  re_search := fun rx text => PyStr.contains rx (PyStr.lower text);
  py_hash := poly_hash 0;
|}.

(** Floats that print as they were written: [repr(float(t))] is [t]. *)
Definition floats_as_written : PyFloat := {| float_repr := fun t => t |}.

(** The end-to-end scenario of the specification. *)
Definition scenario_file : string :=
  Json.lit "{'DOI':'10.1/a','title':'Lithium anode'}" +:+ PyStr.nl +:+
  Json.lit "{'DOI':'10.1/A','title':'dup'}" +:+ PyStr.nl +:+
  Json.lit "{'title':'no doi'}" +:+ PyStr.nl.

Definition scenario_output : string :=
  Json.lit "{'DOI': '10.1/a', 'title': 'Lithium anode'}" +:+ PyStr.nl +:+
  Json.lit "{'title': 'no doi'}" +:+ PyStr.nl.

Definition lithium : json :=
  JObj [("DOI", JStr "10.1/a"); ("title", JStr "Lithium anode")].

Definition no_doi : json := JObj [("title", JStr "no doi")].

(** Two Europe PMC records with neither DOI nor id and the same title. *)
Definition same_title : json := JObj [("title", JStr "Same")].

Definition same_title_file : string :=
  Json.lit "{'title': 'Same'}" +:+ PyStr.nl +:+
  Json.lit "{'title': 'Same'}" +:+ PyStr.nl.

(** The configuration [{"groups": {"A": ["foo"], "B": ["bar"]}}], with a
    scope. *)
Definition cfg_AB (scope : json) : json :=
  JObj [("groups", JObj [("A", JArr [JStr "foo"]); ("B", JArr [JStr "bar"])]);
        ("scope", scope)].

Definition groups_of (cfg : json) : list (string * list pattern) :=
  match _normalize_regex_cfg cfg with
  | Ok (groups, _) => groups
  | Raise _ => []
  end.

Definition foo_bar_entry : list (string * json) :=
  [("title", JStr "foo"); ("abstract", JStr "bar")].

Definition foo_bar_file : string := line_of (JObj foo_bar_entry).

(** Pages as the two services send them. *)
Definition crossref_page (items : list json) (next : json) : json :=
  JObj [("message", JObj [("items", JArr items); ("next-cursor", next)])].


(** A configuration with the single group [A] and one pattern. *)
Definition cfg_one (pat : string) : json :=
  JObj [("groups", JObj [("A", JArr [JStr pat])])].

Definition bar_only : list (string * json) := [("abstract", JStr "bar")].



Definition rec_a : json := JObj [("DOI", JStr "10.1/a")].
Definition rec_A : json := JObj [("DOI", JStr "10.1/A"); ("title", JStr "t")].
Definition rec_b : json := JObj [("DOI", JStr "10.1/b")].
Definition rec_c : json := JObj [("title", JStr "no doi")].

End Demo.

(** * Proofs *)
(** * Facts about strings *)

Section StringFacts.

Lemma sapp_cons c (a b : string) : String c a +:+ b = String c (a +:+ b).
Proof. reflexivity. Qed.

Lemma sapp_nil_l (a : string) : "" +:+ a = a.
Proof. reflexivity. Qed.

Lemma sapp_assoc (a b c : string) : (a +:+ b) +:+ c = a +:+ (b +:+ c).
Proof.
  induction a as [|x a IH]; [reflexivity|].
  rewrite !sapp_cons. now f_equal.
Qed.

Lemma sapp_nil_r (a : string) : a +:+ "" = a.
Proof.
  induction a as [|x a IH]; [reflexivity|].
  rewrite sapp_cons. now f_equal.
Qed.

Lemma slength_app (a b : string) :
  String.length (a +:+ b) = (String.length a + String.length b)%nat.
Proof.
  induction a as [|x a IH]; [reflexivity|].
  rewrite sapp_cons. simpl. now f_equal.
Qed.

Lemma codes_app (a b : string) :
  Utf8.codes (a +:+ b) = Utf8.codes a ++ Utf8.codes b.
Proof.
  induction a as [|x a IH]; [reflexivity|].
  rewrite sapp_cons. simpl. now f_equal.
Qed.

Lemma codes_length (a : string) :
  length (Utf8.codes a) = String.length a.
Proof. induction a as [|x a IH]; simpl; auto. Qed.

Lemma codes_inj (a b : string) : Utf8.codes a = Utf8.codes b -> a = b.
Proof.
  revert b. induction a as [|x a IH]; intros [|y b]; try discriminate;
    [reflexivity|].
  simpl. intros [= Hxy Hab]. f_equal; [|now apply IH].
  rewrite <- (ascii_N_embedding x), <- (ascii_N_embedding y). now f_equal.
Qed.

End StringFacts.

(** * UTF-8 *)

Section Utf8Facts.
Local Open Scope N_scope.

Ltac Zify.zify_post_hook ::= Z.to_euclidean_division_equations.

Ltac cases_N :=
  repeat match goal with
         | |- context [?a <? ?b] => destruct (N.ltb_spec a b); try lia
         | |- context [?a <=? ?b] => destruct (N.leb_spec a b); try lia
         | |- context [?a =? ?b] => destruct (N.eqb_spec a b); try lia
         end.

Lemma code_byte n : n < 256 -> N_of_ascii (Utf8.byte n) = n.
Proof. apply N_ascii_embedding. Qed.

Lemma code_bound c : N_of_ascii c < 256.
Proof. apply N_ascii_bounded. Qed.

Lemma byte_code c : Utf8.byte (N_of_ascii c) = c.
Proof. apply ascii_N_embedding. Qed.

Lemma decode_encode_cp n s :
  n < Unicode.max_code ->
  Utf8.decode (Utf8.encode_cp n +:+ s) = Utf8.cons_cp n (Utf8.decode s).
Proof.
  unfold Unicode.max_code. intros Hn. unfold Utf8.encode_cp.
  destruct (N.ltb_spec n 128).
  { rewrite sapp_cons, sapp_nil_l. cbn [Utf8.decode].
    rewrite code_byte by lia.
    destruct (N.ltb_spec n 128); [reflexivity | lia]. }
  destruct (N.ltb_spec n 2048).
  { rewrite !sapp_cons, sapp_nil_l. cbn [Utf8.decode].
    unfold Utf8.is_cont, Utf8.low6.
    rewrite !code_byte by lia.
    repeat match goal with
           | |- context [?a <? ?b] => destruct (N.ltb_spec a b); try lia
           | |- context [?a <=? ?b] => destruct (N.leb_spec a b); try lia
           end.
    cbn [negb andb]. f_equal. lia. }
  destruct (N.ltb_spec n 65536).
  { rewrite !sapp_cons, sapp_nil_l. cbn [Utf8.decode].
    unfold Utf8.is_cont, Utf8.low6.
    rewrite !code_byte by lia.
    repeat match goal with
           | |- context [?a <? ?b] => destruct (N.ltb_spec a b); try lia
           | |- context [?a <=? ?b] => destruct (N.leb_spec a b); try lia
           end.
    cbn [negb andb]. f_equal. lia. }
  rewrite !sapp_cons, sapp_nil_l. cbn [Utf8.decode].
  unfold Utf8.is_cont, Utf8.low6, Unicode.max_code.
  rewrite !code_byte by lia.
  repeat match goal with
         | |- context [?a <? ?b] => destruct (N.ltb_spec a b); try lia
         | |- context [?a <=? ?b] => destruct (N.leb_spec a b); try lia
         end.
  cbn [negb andb]. f_equal. lia.
Qed.

Lemma encode_app l1 l2 :
  Utf8.encode (l1 ++ l2) = Utf8.encode l1 +:+ Utf8.encode l2.
Proof.
  induction l1 as [|n l1 IH]; [reflexivity|].
  simpl. now rewrite IH, sapp_assoc.
Qed.

Lemma decode_encode l :
  Forall (fun n => n < Unicode.max_code) l ->
  Utf8.decode (Utf8.encode l) = Some l.
Proof.
  induction 1 as [|n l Hn _ IH]; [reflexivity|].
  cbn [Utf8.encode]. now rewrite decode_encode_cp, IH.
Qed.

Lemma cons_cp_some n r l :
  Utf8.cons_cp n r = Some l -> exists l', r = Some l' /\ l = n :: l'.
Proof. destruct r; [intros [= <-]; eauto | discriminate]. Qed.

(** A text that decodes is the encoding of its code points, all of them
    below [max_code]. *)
Lemma decode_spec_fuel k :
  forall s l,
    (String.length s <= k)%nat -> Utf8.decode s = Some l ->
    Utf8.encode l = s /\ Forall (fun n => n < Unicode.max_code) l.
Proof.
  induction k as [|k IH]; intros s l Hk Hd.
  { destruct s; [|simpl in Hk; lia]. injection Hd as <-. now split. }
  destruct s as [|a r]; [injection Hd as <-; now split|].
  cbn [Utf8.decode] in Hd. simpl in Hk.
  pose proof (code_bound a) as Ba. rewrite <- (byte_code a).
  set (x := N_of_ascii a) in *. clearbody x.
  destruct (N.ltb_spec x 128).
  { apply cons_cp_some in Hd as (l' & Hd & ->).
    destruct (IH r l' ltac:(lia) Hd) as [<- Hv].
    split.
    - cbn [Utf8.encode]. unfold Utf8.encode_cp.
      destruct (N.ltb_spec x 128); [reflexivity | lia].
    - constructor; [unfold Unicode.max_code; lia | exact Hv]. }
  destruct r as [|b r1]; [discriminate|]. simpl in Hk.
  unfold Utf8.is_cont, Utf8.low6 in Hd.
  pose proof (code_bound b) as Bb. rewrite <- (byte_code b).
  set (y := N_of_ascii b) in *. clearbody y.
  destruct (N.leb_spec 128 y); [|discriminate].
  destruct (N.ltb_spec y 192); [|discriminate].
  cbn [andb negb] in Hd.
  destruct (N.ltb_spec x 224).
  { destruct (N.leb_spec 192 x); [|discriminate].
    destruct (N.leb_spec 128 ((x - 192) * 64 + (y - 128))); [|discriminate].
    cbn [andb] in Hd.
    apply cons_cp_some in Hd as (l' & Hd & ->).
    destruct (IH r1 l' ltac:(lia) Hd) as [<- Hv].
    split.
    - cbn [Utf8.encode]. unfold Utf8.encode_cp.
      cases_N. rewrite !sapp_cons, sapp_nil_l.
      repeat (f_equal; try lia).
    - constructor; [unfold Unicode.max_code; lia | exact Hv]. }
  destruct r1 as [|c r2]; [discriminate|]. simpl in Hk.
  unfold Utf8.is_cont, Utf8.low6 in Hd.
  pose proof (code_bound c) as Bc. rewrite <- (byte_code c).
  set (z := N_of_ascii c) in *. clearbody z.
  destruct (N.leb_spec 128 z); [|discriminate].
  destruct (N.ltb_spec z 192); [|discriminate].
  cbn [andb negb] in Hd.
  destruct (N.ltb_spec x 240).
  { destruct (N.leb_spec 2048 (((x - 224) * 64 + (y - 128)) * 64 + (z - 128)));
      [|discriminate].
    apply cons_cp_some in Hd as (l' & Hd & ->).
    destruct (IH r2 l' ltac:(lia) Hd) as [<- Hv].
    split.
    - cbn [Utf8.encode]. unfold Utf8.encode_cp.
      cases_N. rewrite !sapp_cons, sapp_nil_l.
      repeat (f_equal; try lia).
    - constructor; [unfold Unicode.max_code; lia | exact Hv]. }
  destruct r2 as [|d r3]; [discriminate|]. simpl in Hk.
  unfold Utf8.is_cont, Utf8.low6 in Hd.
  pose proof (code_bound d) as Bd. rewrite <- (byte_code d).
  set (w := N_of_ascii d) in *. clearbody w.
  destruct (N.leb_spec 128 w); [|discriminate].
  destruct (N.ltb_spec w 192); [|discriminate].
  cbn [andb negb] in Hd. unfold Unicode.max_code in Hd.
  destruct (N.leb_spec 65536
              ((((x - 240) * 64 + (y - 128)) * 64 + (z - 128)) * 64
               + (w - 128))); [|discriminate].
  destruct (N.ltb_spec
              ((((x - 240) * 64 + (y - 128)) * 64 + (z - 128)) * 64
               + (w - 128)) 1114112); [|discriminate].
  cbn [andb] in Hd.
  apply cons_cp_some in Hd as (l' & Hd & ->).
  destruct (IH r3 l' ltac:(lia) Hd) as [<- Hv].
  split.
  - cbn [Utf8.encode]. unfold Utf8.encode_cp.
    cases_N. rewrite !sapp_cons, sapp_nil_l.
    repeat (f_equal; try lia).
  - constructor; [unfold Unicode.max_code; lia | exact Hv].
Qed.

Lemma encode_decode s l : Utf8.decode s = Some l -> Utf8.encode l = s.
Proof. intros H. now apply (decode_spec_fuel (String.length s) s l). Qed.

Lemma decode_valid s l :
  Utf8.decode s = Some l -> Forall (fun n => n < Unicode.max_code) l.
Proof. intros H. now apply (decode_spec_fuel (String.length s) s l). Qed.

Lemma encode_inj l1 l2 :
  Forall (fun n => n < Unicode.max_code) l1 ->
  Forall (fun n => n < Unicode.max_code) l2 ->
  Utf8.encode l1 = Utf8.encode l2 -> l1 = l2.
Proof.
  intros H1 H2 E. apply decode_encode in H1, H2. congruence.
Qed.

End Utf8Facts.

(** * Case and white space *)

Section UnicodeFacts.
Local Open Scope N_scope.

Lemma in_ranges_enum c rs :
  Unicode.in_ranges c rs = true -> In c (enum_ranges rs).
Proof.
  unfold Unicode.in_ranges, enum_ranges. intros H.
  apply existsb_exists in H as ([lo hi] & Hin & Hc). cbn [fst snd] in Hc.
  apply andb_true_iff in Hc as [H1 H2].
  apply N.leb_le in H1, H2.
  apply in_flat_map. exists (lo, hi). split; [exact Hin|]. cbn [fst snd].
  apply in_map_iff. exists (N.to_nat (c - lo)). split; [lia|].
  apply in_seq. lia.
Qed.

Lemma assoc_in n t m : Unicode.assoc n t = Some m -> In (n, m) t.
Proof.
  induction t as [|[k v] t IH]; [discriminate|]. cbn [Unicode.assoc].
  destruct (N.eqb_spec k n) as [->|_].
  - intros [= ->]. now left.
  - intros H. right. auto.
Qed.

Lemma lower_pairs_fixed :
  forallb (fun p => lower_fixed (snd p)) Unicode.lower_pairs = true.
Proof. vm_compute. reflexivity. Qed.

Lemma spaces_plain :
  forallb plain_space (enum_ranges Unicode.space_ranges) = true.
Proof. vm_compute. reflexivity. Qed.

Lemma lower_fixed_spec d :
  lower_fixed d = true ->
  d <> Unicode.capital_sigma /\ Unicode.lower_full d = [d]
  /\ Unicode.is_space d = false /\ d < Unicode.max_code.
Proof.
  unfold lower_fixed, Unicode.lower_full. intros H.
  repeat (apply andb_true_iff in H as [H ?]).
  destruct (N.eqb_spec d Unicode.capital_sigma); [discriminate|].
  destruct (N.eqb_spec d 304); [discriminate|].
  destruct (Unicode.assoc d Unicode.lower_pairs); [discriminate|].
  split_and!; auto.
  - now apply negb_true_iff.
  - now apply N.ltb_lt.
Qed.

Lemma space_plain c :
  Unicode.is_space c = true ->
  c <> Unicode.capital_sigma /\ Unicode.lower_full c = [c]
  /\ Unicode.is_case_ignorable c = false /\ Unicode.is_cased c = false
  /\ c < Unicode.max_code.
Proof.
  intros H. apply in_ranges_enum in H.
  pose proof spaces_plain as Hall. rewrite forallb_forall in Hall.
  specialize (Hall c H). unfold plain_space, Unicode.lower_full in *.
  repeat (apply andb_true_iff in Hall as [Hall ?]).
  destruct (N.eqb_spec c Unicode.capital_sigma); [discriminate|].
  destruct (N.eqb_spec c 304); [discriminate|].
  destruct (Unicode.assoc c Unicode.lower_pairs); [discriminate|].
  split_and!; auto; try now apply negb_true_iff.
  now apply N.ltb_lt.
Qed.

End UnicodeFacts.

Section LowerStrip.
Local Open Scope N_scope.
Implicit Types (l r : list N) (b : bool).

Lemma lower_from_cons b c r :
  Unicode.lower_from b (c :: r)
  = lower_step b c r
    ++ Unicode.lower_from
         (if Unicode.is_case_ignorable c then b else Unicode.is_cased c) r.
Proof. reflexivity. Qed.

(** Whatever [str.lower] writes is left alone by [str.lower]. *)
Lemma lower_full_fixed c :
  Forall (fun d => lower_fixed d = true \/ (d = c /\ stays c))
    (Unicode.lower_full c).
Proof.
  remember (Unicode.lower_full c) as out eqn:Eo.
  unfold Unicode.lower_full in Eo.
  destruct (N.eqb_spec c 304) as [->|Hne].
  { subst out. repeat constructor. }
  destruct (Unicode.assoc c Unicode.lower_pairs) as [m|] eqn:E; subst out.
  - apply assoc_in in E. pose proof lower_pairs_fixed as Hall.
    rewrite forallb_forall in Hall. specialize (Hall _ E).
    repeat constructor. exact Hall.
  - constructor; [|constructor]. right. split; [reflexivity|]. split.
    + intros ->. vm_compute in E. discriminate.
    + unfold Unicode.lower_full.
      destruct (N.eqb_spec c 304); [contradiction|]. now rewrite E.
Qed.

Lemma lower_step_fixed b c r :
  Forall (fun d => lower_fixed d = true \/ (d = c /\ stays c))
    (lower_step b c r).
Proof.
  unfold lower_step.
  destruct (N.eqb_spec c Unicode.capital_sigma) as [->|_];
    [|now apply lower_full_fixed].
  destruct (b && negb (Unicode.cased_ahead r)); repeat constructor.
Qed.

Lemma lower_step_nonempty b c r : lower_step b c r <> [].
Proof.
  unfold lower_step, Unicode.lower_full.
  destruct (c =? Unicode.capital_sigma); [discriminate|].
  destruct (c =? 304); [discriminate|].
  destruct (Unicode.assoc c Unicode.lower_pairs); discriminate.
Qed.

Lemma lower_step_stays b c r : Forall stays (lower_step b c r).
Proof.
  eapply Forall_impl; [apply lower_step_fixed|].
  intros d [Hd|(-> & H)]; [|exact H].
  apply lower_fixed_spec in Hd as (? & ? & _). now split.
Qed.

Lemma lower_step_valid b c r :
  c < Unicode.max_code -> Forall (fun n => n < Unicode.max_code) (lower_step b c r).
Proof.
  intros Hc. eapply Forall_impl; [apply lower_step_fixed|].
  intros d [Hd|(-> & _)]; [|exact Hc].
  now apply lower_fixed_spec in Hd as (_ & _ & _ & ?).
Qed.

Lemma lower_step_nonspace b c r :
  c < Unicode.max_code -> Unicode.is_space c = false ->
  Forall (fun d => Unicode.is_space d = false) (lower_step b c r).
Proof.
  intros Hc Hs. eapply Forall_impl; [apply lower_step_fixed|].
  intros d [Hd|(-> & _)]; [|exact Hs].
  now apply lower_fixed_spec in Hd as (_ & _ & ? & _).
Qed.

Lemma lower_step_space b c r :
  Unicode.is_space c = true -> lower_step b c r = [c].
Proof.
  intros Hs. apply space_plain in Hs as (Hne & Hl & _). unfold lower_step.
  destruct (N.eqb_spec c Unicode.capital_sigma); [contradiction | exact Hl].
Qed.

Lemma lower_from_stays b l : Forall stays l -> Unicode.lower_from b l = l.
Proof.
  intros H. revert b. induction H as [|d l [Hne Hd] _ IH]; intros b;
    [reflexivity|].
  rewrite lower_from_cons, IH. unfold lower_step.
  destruct (N.eqb_spec d Unicode.capital_sigma); [contradiction|].
  now rewrite Hd.
Qed.

Lemma lower_from_all b l :
  Forall (fun n => n < Unicode.max_code) l ->
  Forall stays (Unicode.lower_from b l)
  /\ Forall (fun n => n < Unicode.max_code) (Unicode.lower_from b l).
Proof.
  intros H. revert b. induction H as [|c l Hc _ IH]; intros b;
    [split; constructor|].
  rewrite lower_from_cons. split; apply Forall_app; split;
    try apply IH; [apply lower_step_stays | now apply lower_step_valid].
Qed.

Lemma lower_from_idem b b' l :
  Forall (fun n => n < Unicode.max_code) l ->
  Unicode.lower_from b' (Unicode.lower_from b l) = Unicode.lower_from b l.
Proof. intros H. now apply lower_from_stays, lower_from_all. Qed.

Lemma lower_from_nil b l : Unicode.lower_from b l = [] <-> l = [].
Proof.
  split; [|now intros ->]. destruct l as [|c l]; [reflexivity|].
  rewrite lower_from_cons. intros H. apply app_eq_nil in H as [H _].
  now apply lower_step_nonempty in H.
Qed.

(** White space at the two ends. *)
Lemma lower_from_spaces b l :
  Forall (fun c => Unicode.is_space c = true) l -> Unicode.lower_from b l = l.
Proof.
  intros H. apply lower_from_stays. eapply Forall_impl; [exact H|].
  intros c Hc. apply space_plain in Hc as (? & ? & _). now split.
Qed.

Lemma rstrip_nil l :
  Unicode.rstrip l = [] <-> Forall (fun c => Unicode.is_space c = true) l.
Proof.
  induction l as [|c l IH]; [split; [constructor | reflexivity]|].
  cbn [Unicode.rstrip]. destruct (Unicode.rstrip l) as [|x r'] eqn:E.
  - destruct (Unicode.is_space c) eqn:Hc.
    + split; [|reflexivity]. intros _. constructor; [exact Hc|].
      now apply IH.
    + split; [discriminate|]. intros H. apply Forall_cons in H as [H _].
      congruence.
  - split; [discriminate|]. intros H. apply Forall_cons in H as [_ H].
    apply IH in H. discriminate.
Qed.

Lemma cased_ahead_spaces l :
  Forall (fun c => Unicode.is_space c = true) l ->
  Unicode.cased_ahead l = false.
Proof.
  intros [|c r Hc _]; [reflexivity|]. cbn [Unicode.cased_ahead].
  apply space_plain in Hc as (_ & _ & -> & -> & _). reflexivity.
Qed.

Lemma cased_ahead_rstrip l :
  Unicode.cased_ahead (Unicode.rstrip l) = Unicode.cased_ahead l.
Proof.
  induction l as [|c l IH]; [reflexivity|].
  cbn [Unicode.rstrip]. destruct (Unicode.rstrip l) as [|x r'] eqn:E.
  - apply rstrip_nil in E.
    destruct (Unicode.is_space c) eqn:Hc.
    + symmetry. apply cased_ahead_spaces. now constructor.
    + cbn [Unicode.cased_ahead]. rewrite (cased_ahead_spaces l E).
      reflexivity.
  - cbn [Unicode.cased_ahead] in *. now rewrite IH.
Qed.

Lemma lower_step_rstrip b c r :
  lower_step b c (Unicode.rstrip r) = lower_step b c r.
Proof. unfold lower_step. now rewrite cased_ahead_rstrip. Qed.

Lemma rstrip_app_keep a x :
  Unicode.rstrip x <> [] ->
  Unicode.rstrip (a ++ x) = a ++ Unicode.rstrip x.
Proof.
  intros Hx. induction a as [|c a IH]; [reflexivity|].
  cbn [app Unicode.rstrip]. rewrite IH.
  destruct (a ++ Unicode.rstrip x) eqn:E; [|reflexivity].
  apply app_eq_nil in E as [_ E]. contradiction.
Qed.

Lemma rstrip_nonspace a :
  a <> [] -> Forall (fun d => Unicode.is_space d = false) a ->
  Unicode.rstrip a = a.
Proof.
  intros Hne H. induction H as [|c a Hc Ha IH]; [contradiction|].
  cbn [Unicode.rstrip]. destruct a as [|d a].
  - cbn [Unicode.rstrip]. now rewrite Hc.
  - rewrite IH by discriminate. reflexivity.
Qed.

Lemma rstrip_app_spaces a x :
  a <> [] -> Forall (fun d => Unicode.is_space d = false) a ->
  Forall (fun c => Unicode.is_space c = true) x ->
  Unicode.rstrip (a ++ x) = a.
Proof.
  intros Hne Ha Hx. destruct x as [|c x].
  - rewrite app_nil_r. now apply rstrip_nonspace.
  - induction Ha as [|d a Hd Ha IH]; [contradiction|].
    cbn [app Unicode.rstrip]. destruct a as [|e a].
    + cbn [app]. apply rstrip_nil in Hx. rewrite Hx. now rewrite Hd.
    + rewrite IH by discriminate. reflexivity.
Qed.

Lemma lower_rstrip b l :
  Forall (fun n => n < Unicode.max_code) l ->
  Unicode.lower_from b (Unicode.rstrip l)
  = Unicode.rstrip (Unicode.lower_from b l).
Proof.
  intros H. revert b. induction H as [|c l Hc Hl IH]; intros b;
    [reflexivity|].
  rewrite lower_from_cons. cbn [Unicode.rstrip].
  destruct (Unicode.rstrip l) as [|x r'] eqn:E.
  - apply rstrip_nil in E. rewrite (lower_from_spaces _ l E).
    destruct (Unicode.is_space c) eqn:Hs.
    + rewrite lower_step_space by exact Hs. cbn [app].
      symmetry. apply rstrip_nil. now constructor.
    + rewrite rstrip_app_spaces;
        [| apply lower_step_nonempty | now apply lower_step_nonspace
         | exact E].
      rewrite lower_from_cons. cbn [Unicode.lower_from].
      rewrite app_nil_r. unfold lower_step.
      now rewrite (cased_ahead_spaces l E).
  - rewrite lower_from_cons, IH. rewrite <- E, lower_step_rstrip.
    rewrite rstrip_app_keep; [reflexivity|].
    rewrite <- IH, lower_from_nil. discriminate.
Qed.

Lemma lower_lstrip l :
  Forall (fun n => n < Unicode.max_code) l ->
  Unicode.lower_from false (Unicode.lstrip l)
  = Unicode.lstrip (Unicode.lower_from false l).
Proof.
  induction 1 as [|c l Hc Hl IH]; [reflexivity|].
  cbn [Unicode.lstrip]. destruct (Unicode.is_space c) eqn:Hs.
  - rewrite IH, lower_from_cons, lower_step_space by exact Hs.
    apply space_plain in Hs as Hp. destruct Hp as (_ & _ & -> & -> & _).
    cbn [app Unicode.lstrip]. now rewrite Hs.
  - rewrite lower_from_cons.
    pose proof (lower_step_nonempty false c l) as Hne.
    pose proof (lower_step_nonspace false c l Hc Hs) as Hns.
    destruct (lower_step false c l) as [|d a]; [contradiction|].
    apply Forall_cons in Hns as [Hd _].
    cbn [app Unicode.lstrip]. now rewrite Hd.
Qed.

Lemma lstrip_valid l : Forall (fun n => n < Unicode.max_code) l -> Forall (fun n => n < Unicode.max_code) (Unicode.lstrip l).
Proof.
  induction 1 as [|c l Hc Hl IH]; [constructor|].
  cbn [Unicode.lstrip]. destruct (Unicode.is_space c); [exact IH|].
  now constructor.
Qed.

Lemma rstrip_valid l : Forall (fun n => n < Unicode.max_code) l -> Forall (fun n => n < Unicode.max_code) (Unicode.rstrip l).
Proof.
  induction 1 as [|c l Hc Hl IH]; [constructor|].
  cbn [Unicode.rstrip]. destruct (Unicode.rstrip l).
  - destruct (Unicode.is_space c); repeat constructor; exact Hc.
  - now constructor.
Qed.

Lemma encode_cp_nonempty n : Utf8.encode_cp n <> "".
Proof.
  unfold Utf8.encode_cp.
  repeat match goal with |- context [if ?b then _ else _] => destruct b end;
    discriminate.
Qed.

Lemma encode_nil l : Utf8.encode l = "" <-> l = [].
Proof.
  split; [|now intros ->]. destruct l as [|n l]; [reflexivity|].
  cbn [Utf8.encode]. pose proof (encode_cp_nonempty n).
  destruct (Utf8.encode_cp n); [contradiction | discriminate].
Qed.

(** The same on strings. *)
Lemma lower_idem s : PyStr.lower (PyStr.lower s) = PyStr.lower s.
Proof.
  unfold PyStr.lower, PyStr.on_text.
  destruct (Utf8.decode s) as [l|] eqn:E; [|now rewrite E].
  pose proof (decode_valid _ _ E) as Hv.
  rewrite decode_encode by now apply lower_from_all.
  now rewrite lower_from_idem.
Qed.

Lemma lower_strip s :
  PyStr.lower (PyStr.strip s) = PyStr.strip (PyStr.lower s).
Proof.
  unfold PyStr.lower, PyStr.strip, PyStr.on_text.
  destruct (Utf8.decode s) as [l|] eqn:E; [|now rewrite E].
  pose proof (decode_valid _ _ E) as Hv.
  rewrite decode_encode by now apply rstrip_valid, lstrip_valid.
  rewrite decode_encode by now apply lower_from_all.
  f_equal. rewrite lower_rstrip by now apply lstrip_valid.
  now rewrite lower_lstrip.
Qed.

Lemma lower_empty s : String.eqb (PyStr.lower s) "" = String.eqb s "".
Proof.
  unfold PyStr.lower, PyStr.on_text.
  destruct (Utf8.decode s) as [l|] eqn:E; [|reflexivity].
  apply encode_decode in E as <-.
  destruct (String.eqb_spec (Utf8.encode (Unicode.lower_from false l)) "")
    as [H1|H1], (String.eqb_spec (Utf8.encode l) "") as [H2|H2];
    try reflexivity; exfalso.
  - apply encode_nil, lower_from_nil in H1. apply H2. now rewrite H1.
  - apply encode_nil in H2. apply H1. now rewrite H2.
Qed.

End LowerStrip.

(** * The scanner on numbers *)

Section Numbers.
Local Open Scope N_scope.

Lemma digit_cons_none c : Json.digit_cons c = None <-> is_digit c = false.
Proof.
  unfold is_digit.
  destruct c as [|p]; [split; reflexivity|].
  do 6 (destruct p as [p|p|]; try (split; reflexivity));
    cbn; split; intros; try reflexivity; try discriminate; exfalso;
    repeat match goal with
           | H : (_ && _) = false |- _ => apply andb_false_iff in H as [H|H]
           | H : (_ <=? _) = false |- _ => apply N.leb_gt in H
           end; lia.
Qed.

Lemma digit_cons_some c d u :
  Json.digit_cons c = Some d ->
  Utf8.codes (NilEmpty.string_of_uint (d u))
  = c :: Utf8.codes (NilEmpty.string_of_uint u).
Proof.
  destruct c as [|p]; [discriminate|].
  do 6 (destruct p as [p|p|]; try discriminate);
    intros [= <-]; reflexivity.
Qed.

Lemma stop_no_digit rest : number_stop rest -> no_digit_head rest.
Proof.
  destruct rest as [|c r]; [trivial|]. cbn. unfold stop_char. intros H.
  apply negb_true_iff in H. repeat (apply orb_false_iff in H as [H ?]).
  now apply digit_cons_none.
Qed.

Lemma scan_digits_stop rest :
  no_digit_head rest -> Json.scan_digits rest = (Nil, rest).
Proof. destruct rest as [|c r]; simpl; [reflexivity|]. now intros ->. Qed.

Lemma scan_digits_uint u rest :
  no_digit_head rest ->
  Json.scan_digits (Utf8.codes (NilEmpty.string_of_uint u) ++ rest)
  = (u, rest).
Proof.
  intros H. induction u; simpl NilEmpty.string_of_uint;
    [now apply scan_digits_stop | ..];
    cbn [Utf8.codes app Json.scan_digits];
    (change (N_of_ascii _) with 48 || change (N_of_ascii _) with 49
     || change (N_of_ascii _) with 50 || change (N_of_ascii _) with 51
     || change (N_of_ascii _) with 52 || change (N_of_ascii _) with 53
     || change (N_of_ascii _) with 54 || change (N_of_ascii _) with 55
     || change (N_of_ascii _) with 56 || change (N_of_ascii _) with 57);
    cbn [Json.digit_cons]; rewrite IHu; reflexivity.
Qed.

(** What the scanner of digits read, and where it stopped. *)
Lemma scan_digits_text s :
  forall u r,
    Json.scan_digits s = (u, r) ->
    s = Utf8.codes (NilEmpty.string_of_uint u) ++ r /\ no_digit_head r.
Proof.
  induction s as [|c s IH]; intros u r.
  - intros [= <- <-]. now split.
  - cbn [Json.scan_digits]. destruct (Json.digit_cons c) as [d|] eqn:Hd.
    + destruct (Json.scan_digits s) as [u' r'] eqn:E. intros [= <- <-].
      destruct (IH _ _ eq_refl) as [-> Hr]. split; [|exact Hr].
      now rewrite (digit_cons_some c d u' Hd).
    + intros [= <- <-]. split; [reflexivity | exact Hd].
Qed.

Lemma sou_nonempty u :
  u <> Nil ->
  exists c r, Utf8.codes (NilEmpty.string_of_uint u) = c :: r
              /\ is_digit c = true.
Proof.
  destruct u; [congruence | ..]; intros _; eexists _, _; split; reflexivity.
Qed.

Lemma unorm_nonnil u : unorm u = u -> u <> Nil.
Proof. intros H ->. discriminate. Qed.

Lemma digit_not_stop c : is_digit c = true -> Json.digit_cons c <> None.
Proof. intros H E. apply digit_cons_none in E. congruence. Qed.

(** Fractions. *)
Lemma no_digits_nil u : Json.no_digits u = true <-> u = Nil.
Proof. destruct u; split; intros H; try reflexivity; discriminate H. Qed.

Lemma scan_frac_spec s t r :
  Json.scan_frac s = (t, r) -> frac_text t /\ s = Utf8.codes t ++ r.
Proof.
  unfold Json.scan_frac.
  destruct s as [|c s]; [intros [= <- <-]; split; [now left | reflexivity]|].
  destruct (N.eqb_spec c 46) as [->|Hne];
    [|intros [= <- <-]; split; [now left | reflexivity]].
  destruct (Json.scan_digits s) as [u r'] eqn:E.
  apply scan_digits_text in E as [-> Hr].
  destruct (Json.no_digits u) eqn:Hu; intros [= <- <-].
  - split; [now left | reflexivity].
  - split; [|reflexivity]. right. exists u. split; [|reflexivity].
    intros ->. discriminate.
Qed.

Lemma stop_char_spec c :
  stop_char c = true ->
  is_digit c = false /\ c <> 46 /\ c <> 101 /\ c <> 69 /\ c <> 43 /\ c <> 45.
Proof.
  unfold stop_char. intros H. apply negb_true_iff in H.
  repeat (apply orb_false_iff in H as [H ?]).
  repeat match goal with
         | H : (_ =? _) = false |- _ => apply N.eqb_neq in H
         end.
  auto 10.
Qed.

Lemma scan_frac_none rest :
  number_stop rest -> Json.scan_frac rest = (EmptyString, rest).
Proof.
  destruct rest as [|c r]; [reflexivity|]. cbn [number_stop]. intros H.
  apply stop_char_spec in H as (_ & H & _). unfold Json.scan_frac.
  destruct (N.eqb_spec c 46); [contradiction | reflexivity].
Qed.

Lemma scan_frac_render t rest :
  frac_text t -> after_frac rest ->
  Json.scan_frac (Utf8.codes t ++ rest) = (t, rest).
Proof.
  intros [->|(u & Hu & ->)] Hrest.
  - cbn [Utf8.codes app]. destruct rest as [|c r]; [reflexivity|].
    destruct Hrest as [_ Hc]. unfold Json.scan_frac.
    destruct (N.eqb_spec c 46); [contradiction | reflexivity].
  - cbn [Utf8.codes app]. unfold Json.scan_frac.
    change (N_of_ascii "." =? 46) with true. cbv iota.
    rewrite scan_digits_uint.
    + destruct (Json.no_digits u) eqn:E; [|reflexivity].
      apply no_digits_nil in E. contradiction.
    + destruct rest as [|c r]; [exact I|]. destruct Hrest as [Hc _].
      now apply digit_cons_none.
Qed.

(** Exponents. *)
Lemma scan_sign_spec s sign r :
  Json.scan_sign s = (sign, r) ->
  (sign = "" \/ sign = "+" \/ sign = "-")%string /\ s = Utf8.codes sign ++ r.
Proof.
  unfold Json.scan_sign. destruct s as [|c s]; [intros [= <- <-]; auto|].
  destruct (N.eqb_spec c 43) as [->|_]; [intros [= <- <-]; auto|].
  destruct (N.eqb_spec c 45) as [->|_]; intros [= <- <-]; auto.
Qed.

Lemma scan_exp_spec s t r :
  Json.scan_exp s = (t, r) -> exp_text t /\ s = Utf8.codes t ++ r.
Proof.
  unfold Json.scan_exp.
  destruct s as [|c s]; [intros [= <- <-]; split; [now left | reflexivity]|].
  destruct ((c =? 101) || (c =? 69)) eqn:Hc;
    [|intros [= <- <-]; split; [now left | reflexivity]].
  destruct (Json.scan_sign s) as [sign r1] eqn:Es.
  apply scan_sign_spec in Es as [Hsign ->].
  destruct (Json.scan_digits r1) as [u r'] eqn:E.
  apply scan_digits_text in E as [-> Hr].
  destruct (Json.no_digits u) eqn:Hu; intros [= <- <-].
  - split; [now left | reflexivity].
  - assert (Hc' : c = 101 \/ c = 69).
    { apply orb_true_iff in Hc as [Hc|Hc]; apply N.eqb_eq in Hc; auto. }
    split.
    + right. exists c, sign, u. split_and!; auto. intros ->. discriminate.
    + destruct Hc' as [->| ->]; cbn [Utf8.codes app];
        rewrite codes_app, <- app_assoc; reflexivity.
Qed.

Lemma scan_exp_none rest :
  number_stop rest -> Json.scan_exp rest = (EmptyString, rest).
Proof.
  destruct rest as [|c r]; [reflexivity|]. cbn [number_stop]. intros H.
  apply stop_char_spec in H as (_ & _ & H1 & H2 & _). unfold Json.scan_exp.
  destruct (N.eqb_spec c 101); [contradiction|].
  destruct (N.eqb_spec c 69); [contradiction | reflexivity].
Qed.

Lemma scan_exp_render t rest :
  exp_text t -> number_stop rest ->
  Json.scan_exp (Utf8.codes t ++ rest) = (t, rest).
Proof.
  intros [->|(c & sign & u & Hc & Hsign & Hu & ->)] Hrest.
  - now apply scan_exp_none.
  - cbn [Utf8.codes app]. rewrite codes_app, <- app_assoc.
    unfold Json.scan_exp.
    assert (Hcode : N_of_ascii (ascii_of_N c) = c)
      by (destruct Hc as [->| ->]; reflexivity).
    rewrite Hcode.
    assert (Htest : (c =? 101) || (c =? 69) = true)
      by (destruct Hc as [->| ->]; reflexivity).
    rewrite Htest.
    destruct (sou_nonempty u Hu) as (d & r & Ed & Hd).
    assert (Hs : Json.scan_sign
                   (Utf8.codes sign
                    ++ Utf8.codes (NilEmpty.string_of_uint u) ++ rest)
                 = (sign, Utf8.codes (NilEmpty.string_of_uint u) ++ rest)).
    { destruct Hsign as [->|[->| ->]]; try reflexivity.
      cbn [Utf8.codes app]. rewrite Ed. cbn [app]. unfold Json.scan_sign.
      unfold is_digit in Hd. apply andb_true_iff in Hd as [H1 H2].
      apply N.leb_le in H1, H2.
      destruct (N.eqb_spec d 43); [lia|].
      destruct (N.eqb_spec d 45); [lia | reflexivity]. }
    rewrite Hs, scan_digits_uint by now apply stop_no_digit.
    destruct (Json.no_digits u) eqn:E; [|reflexivity].
    apply no_digits_nil in E. contradiction.
Qed.

End Numbers.

Section NumberScan.
Context `{PyFloat}.
Local Open Scope N_scope.

Lemma sapp_codes4 (a b c d : string) rest :
  Utf8.codes (a +:+ b +:+ c +:+ d) ++ rest
  = Utf8.codes a ++ Utf8.codes b ++ Utf8.codes c ++ Utf8.codes d ++ rest.
Proof. now rewrite !codes_app, <- !app_assoc. Qed.

(** A number that the scanner reads as a float has the text of one. *)
Lemma scan_number_shape s x r2 :
  Json.scan_number s = Some (JFloat x, r2) ->
  exists t, float_literal t /\ x = float_repr t /\ s = Utf8.codes t ++ r2.
Proof.
  unfold Json.scan_number.
  set (ms := match s with
             | c :: r => if c =? 45 then ("-"%string, r) else (EmptyString, s)
             | [] => (EmptyString, s)
             end).
  assert (Hms : (fst ms = "" \/ fst ms = "-")%string
                /\ s = Utf8.codes (fst ms) ++ snd ms).
  { subst ms. destruct s as [|c s]; [auto|].
    destruct (N.eqb_spec c 45) as [->|_]; auto. }
  destruct ms as [minus s1]. cbn [fst snd] in Hms. destruct Hms as [Hm ->].
  destruct (Json.scan_digits s1) as [u r] eqn:Ed.
  apply scan_digits_text in Ed as [-> Hr].
  destruct (uint_beq (unorm u) u) eqn:Hu; [|discriminate]. cbn [negb].
  apply internal_uint_dec_bl in Hu.
  destruct (Json.scan_frac r) as [frac r1] eqn:Ef.
  apply scan_frac_spec in Ef as [Hf ->].
  destruct (Json.scan_exp r1) as [ex r2'] eqn:Ee.
  apply scan_exp_spec in Ee as [He ->].
  destruct (String.eqb_spec frac "") as [->|Hfne].
  - destruct (String.eqb_spec ex "") as [->|Hene]; cbn [andb].
    + destruct (Json.int_max_str_digits <? nb_digits u)%nat; discriminate.
    + intros [= <- <-]. eexists. split_and!; [|reflexivity|].
      * exists minus, u, EmptyString, ex. split_and!; auto.
        intros [_ ?]. contradiction.
      * now rewrite sapp_codes4.
  - cbn [andb]. intros [= <- <-]. eexists. split_and!; [|reflexivity|].
    + exists minus, u, frac, ex. split_and!; auto.
      intros [? _]. contradiction.
    + now rewrite sapp_codes4.
Qed.

Lemma exp_text_head ex rest :
  exp_text ex -> number_stop rest ->
  after_frac (Utf8.codes ex ++ rest) /\ no_digit_head (Utf8.codes ex ++ rest).
Proof.
  intros [->|(c & sign & u & Hc & _ & _ & ->)] Hrest.
  - cbn [Utf8.codes app]. split; [|now apply stop_no_digit].
    destruct rest as [|c r]; [exact I|].
    apply stop_char_spec in Hrest as (? & ? & _). now split.
  - cbn [Utf8.codes app].
    assert (Hcode : N_of_ascii (ascii_of_N c) = c)
      by (destruct Hc as [->| ->]; reflexivity).
    rewrite Hcode. destruct Hc as [->| ->]; repeat split; discriminate.
Qed.

Lemma frac_text_head frac ex rest :
  frac_text frac -> exp_text ex -> number_stop rest ->
  no_digit_head (Utf8.codes frac ++ Utf8.codes ex ++ rest).
Proof.
  intros [->|(u & _ & ->)] He Hrest.
  - cbn [Utf8.codes app]. now apply exp_text_head.
  - reflexivity.
Qed.

(** The text of a float is read as the float of that text. *)
Lemma scan_number_render t rest :
  float_literal t -> number_stop rest ->
  Json.scan_number (Utf8.codes t ++ rest)
  = Some (JFloat (float_repr t), rest).
Proof.
  intros (minus & u & frac & ex & Hm & Hu & Hf & He & Hne & ->) Hrest.
  rewrite sapp_codes4. unfold Json.scan_number.
  destruct (sou_nonempty u (unorm_nonnil u Hu)) as (d & r & Ed & Hd).
  assert (Hd45 : (d =? 45) = false).
  { unfold is_digit in Hd. apply andb_true_iff in Hd as [H1 H2].
    apply N.leb_le in H1, H2. apply N.eqb_neq. lia. }
  set (tail := Utf8.codes frac ++ Utf8.codes ex ++ rest).
  assert (Hms : match Utf8.codes minus
                      ++ Utf8.codes (NilEmpty.string_of_uint u) ++ tail with
                | c :: r0 =>
                    if c =? 45 then ("-"%string, r0)
                    else (EmptyString,
                          Utf8.codes minus
                          ++ Utf8.codes (NilEmpty.string_of_uint u) ++ tail)
                | [] => (EmptyString,
                         Utf8.codes minus
                         ++ Utf8.codes (NilEmpty.string_of_uint u) ++ tail)
                end
                = (minus, Utf8.codes (NilEmpty.string_of_uint u) ++ tail)).
  { destruct Hm as [->| ->]; [|reflexivity].
    cbn [Utf8.codes app]. rewrite Ed. cbn [app]. now rewrite Hd45. }
  rewrite Hms. subst tail.
  rewrite scan_digits_uint by now apply frac_text_head.
  rewrite Hu, (internal_uint_dec_lb _ _ eq_refl). cbn [negb].
  rewrite scan_frac_render by (auto; now apply exp_text_head).
  rewrite scan_exp_render by auto.
  destruct (String.eqb_spec frac "") as [->|_]; [|reflexivity].
  destruct (String.eqb_spec ex "") as [->|_]; [|reflexivity].
  exfalso. now apply Hne.
Qed.

Lemma to_uint_normal n : unorm (N.to_uint n) = N.to_uint n.
Proof.
  pose proof (Unsigned.to_of (N.to_uint n)) as E.
  rewrite Unsigned.of_to in E. now symmetry.
Qed.

Lemma to_uint_nonnil n : N.to_uint n <> Nil.
Proof.
  destruct n as [|p]; [discriminate|].
  apply DecimalPos.Unsigned.to_uint_nonnil.
Qed.

Lemma scan_number_nat minus n rest :
  (minus = "" \/ minus = "-")%string ->
  number_stop rest ->
  (nb_digits (N.to_uint n) <= Json.int_max_str_digits)%nat ->
  Json.scan_number (Utf8.codes (minus +:+ PyStr.of_N n) ++ rest)
  = Some (JInt (if String.eqb minus "" then Z.of_N n else - Z.of_N n)%Z,
          rest).
Proof.
  intros Hm Hrest Hlim. unfold PyStr.of_N.
  rewrite codes_app, <- app_assoc. unfold Json.scan_number.
  destruct (sou_nonempty _ (to_uint_nonnil n)) as (d & r & Ed & Hd).
  assert (Hd45 : (d =? 45) = false).
  { unfold is_digit in Hd. apply andb_true_iff in Hd as [H1 H2].
    apply N.leb_le in H1, H2. apply N.eqb_neq. lia. }
  set (digits := Utf8.codes (NilEmpty.string_of_uint (N.to_uint n))) in *.
  assert (Hms : match Utf8.codes minus ++ digits ++ rest with
                | c :: r0 =>
                    if c =? 45 then ("-"%string, r0)
                    else (EmptyString, Utf8.codes minus ++ digits ++ rest)
                | [] => (EmptyString, Utf8.codes minus ++ digits ++ rest)
                end
                = (minus, digits ++ rest)).
  { destruct Hm as [->| ->]; [|reflexivity].
    cbn [Utf8.codes app]. rewrite Ed. cbn [app]. now rewrite Hd45. }
  rewrite Hms. subst digits.
  rewrite scan_digits_uint by now apply stop_no_digit.
  rewrite to_uint_normal, (internal_uint_dec_lb _ _ eq_refl). cbn [negb].
  rewrite scan_frac_none, scan_exp_none by assumption.
  cbn [String.eqb andb].
  destruct (Nat.ltb_spec Json.int_max_str_digits (nb_digits (N.to_uint n)));
    [lia|].
  now rewrite Unsigned.of_to.
Qed.

Lemma scan_number_int n rest :
  number_stop rest ->
  (nb_digits (N.to_uint (Z.abs_N n)) <= Json.int_max_str_digits)%nat ->
  Json.scan_number (Utf8.codes (PyStr.of_Z n) ++ rest) = Some (JInt n, rest).
Proof.
  intros Hrest Hlim. destruct n as [|p|p]; unfold PyStr.of_Z.
  - apply (scan_number_nat "" 0); auto.
  - rewrite (scan_number_nat "" (Z.to_N (Z.pos p))); auto.
  - change (String "-" (PyStr.of_N (N.pos p)))
      with ("-" +:+ PyStr.of_N (N.pos p)).
    rewrite (scan_number_nat "-" (N.pos p)); auto.
Qed.

(** No number is a constant. *)
Lemma strip_prefix_some p s r :
  Json.strip_prefix p s = Some r -> s = p ++ r.
Proof.
  revert s. induction p as [|a p IH]; intros s; [now intros [= ->]|].
  destruct s as [|b s]; [discriminate|]. cbn [Json.strip_prefix].
  destruct (N.eqb_spec a b) as [->|_]; [|discriminate].
  intros Hs. cbn [app]. f_equal. now apply IH.
Qed.

Lemma strip_prefix_app p r : Json.strip_prefix p (p ++ r) = Some r.
Proof.
  induction p as [|a p IH]; [reflexivity|].
  cbn [app Json.strip_prefix]. now rewrite N.eqb_refl.
Qed.

Lemma scan_constant_some cs s v r :
  Json.scan_constant cs s = Some (v, r) ->
  exists name, In (name, v) cs /\ s = Utf8.codes name ++ r.
Proof.
  induction cs as [|[name x] cs IH]; [discriminate|].
  cbn [Json.scan_constant].
  destruct (Json.strip_prefix (Utf8.codes name) s) as [r'|] eqn:E.
  - intros [= <- <-]. exists name. split; [now left|].
    now apply strip_prefix_some.
  - intros Hs. destruct (IH Hs) as (n & Hin & ->). exists n.
    split; [now right | reflexivity].
Qed.

Lemma scan_constant_number s :
  number_head s -> Json.scan_constant Json.constants s = None.
Proof.
  intros Hs.
  destruct (Json.scan_constant Json.constants s) as [[v r]|] eqn:E;
    [|reflexivity].
  exfalso. apply scan_constant_some in E as (name & Hin & ->).
  assert (Hd : forall c, is_digit c = true -> 48 <= c <= 57).
  { unfold is_digit. intros c Hc. apply andb_true_iff in Hc as [H1 H2].
    apply N.leb_le in H1, H2. lia. }
  unfold Json.constants in Hin. cbn [In] in Hin.
  repeat destruct Hin as [Hin|Hin]; try contradiction;
    injection Hin as <- _; cbn in Hs;
    destruct Hs as [Hs|[Hs1 Hs2]];
    try (apply Hd in Hs; lia); try discriminate Hs1.
  apply Hd in Hs2. lia.
Qed.

Lemma scan_literal_number s :
  number_head s -> Json.scan_literal s = Json.scan_number s.
Proof.
  intros Hs. unfold Json.scan_literal.
  now rewrite scan_constant_number.
Qed.

Lemma parse_value_number f s :
  number_head s ->
  Json.parse_value (S f) s = Json.scan_number s.
Proof.
  intros Hs. rewrite <- scan_literal_number by exact Hs.
  destruct s as [|c r]; [contradiction|]. cbn [Json.parse_value].
  assert (Hc : is_digit c = true \/ c = 45)
    by (destruct Hs as [?|[? _]]; auto).
  assert ((c =? 34) = false /\ (c =? 91) = false /\ (c =? 123) = false)
    as (-> & -> & ->); [|reflexivity].
  destruct Hc as [Hc| ->]; [|repeat split].
  unfold is_digit in Hc. apply andb_true_iff in Hc as [H1 H2].
  apply N.leb_le in H1, H2. repeat split; apply N.eqb_neq; lia.
Qed.

End NumberScan.

(** * The encoder writes printable ASCII only *)

Section Printable.
Context `{PyFloat}.
Local Open Scope N_scope.

Ltac Zify.zify_post_hook ::= Z.to_euclidean_division_equations.

Lemma printable_app a b :
  printable (a +:+ b) = printable a && printable b.
Proof.
  induction a as [|x a IH]; [reflexivity|].
  rewrite sapp_cons. simpl. rewrite <- andb_assoc. now f_equal.
Qed.

Lemma hex_digit_cases d :
  d < 16 ->
  exists c, Json.hex_digit d = c /\ printable_char c = true
            /\ Json.hex_value (N_of_ascii c) = Some d.
Proof.
  intros Hd.
  assert (d = 0 \/ d = 1 \/ d = 2 \/ d = 3 \/ d = 4 \/ d = 5 \/ d = 6 \/ d = 7
          \/ d = 8 \/ d = 9 \/ d = 10 \/ d = 11 \/ d = 12 \/ d = 13
          \/ d = 14 \/ d = 15) as Hc by lia.
  repeat destruct Hc as [->|Hc]; try subst d;
    eexists; split_and!; reflexivity.
Qed.

Lemma printable_hex_digit d :
  d < 16 -> printable_char (Json.hex_digit d) = true.
Proof. intros Hd. now destruct (hex_digit_cases d Hd) as (c & -> & ? & _). Qed.

Lemma printable_u_escape n : n < 65536 -> printable (Json.u_escape n) = true.
Proof.
  intros Hn. unfold Json.u_escape. cbn [printable].
  rewrite !printable_hex_digit by lia. reflexivity.
Qed.

Lemma printable_escape_cp n :
  n < Unicode.max_code -> printable (Json.escape_cp n) = true.
Proof.
  unfold Unicode.max_code. intros Hn. unfold Json.escape_cp.
  repeat match goal with
         | |- context [?a =? ?b] =>
             destruct (N.eqb_spec a b); [reflexivity|]
         end.
  destruct (N.leb_spec 32 n); cbn [andb].
  - destruct (N.leb_spec n 126).
    + cbn [printable]. unfold printable_char, PyStr.code.
      rewrite N_ascii_embedding by lia.
      destruct (N.leb_spec 32 n); [|lia].
      destruct (N.leb_spec n 126); [reflexivity | lia].
    + destruct (N.ltb_spec n 65536); [now apply printable_u_escape|].
      rewrite printable_app, !printable_u_escape by lia. reflexivity.
  - destruct (N.ltb_spec n 65536); [now apply printable_u_escape | lia].
Qed.

Lemma printable_escape_cps l :
  Forall (fun n => n < Unicode.max_code) l ->
  printable (Json.escape_cps l) = true.
Proof.
  induction 1 as [|n l Hn _ IH]; [reflexivity|].
  cbn [Json.escape_cps]. now rewrite printable_app, printable_escape_cp, IH.
Qed.

Lemma codes_valid s : Forall (fun n => n < Unicode.max_code) (Utf8.codes s).
Proof.
  induction s as [|c s IH]; constructor; [|exact IH].
  pose proof (code_bound c). unfold Unicode.max_code. lia.
Qed.

Lemma printable_escape s : printable (Json.escape s) = true.
Proof.
  unfold Json.escape. destruct (Utf8.decode s) as [l|] eqn:E.
  - apply printable_escape_cps. eapply decode_valid, E.
  - apply printable_escape_cps, codes_valid.
Qed.

Lemma printable_quote s : printable (Json.quote s) = true.
Proof.
  unfold Json.quote. simpl.
  now rewrite printable_app, printable_escape.
Qed.

Lemma printable_uint u : printable (NilEmpty.string_of_uint u) = true.
Proof. induction u; simpl; auto. Qed.

Lemma printable_of_Z n : printable (PyStr.of_Z n) = true.
Proof.
  destruct n as [|p|p]; unfold PyStr.of_Z, PyStr.of_N.
  - reflexivity.
  - apply printable_uint.
  - cbn [printable]. now rewrite printable_uint.
Qed.

Lemma printable_join sep l :
  printable sep = true ->
  Forall (fun s => printable s = true) l ->
  printable (PyStr.join sep l) = true.
Proof.
  intros Hsep Hl. induction Hl as [|x l Hx Hl IH]; [reflexivity|].
  destruct l as [|y l]; [exact Hx|].
  change (printable (x +:+ sep +:+ PyStr.join sep (y :: l)) = true).
  now rewrite !printable_app, Hx, Hsep, IH.
Qed.

(** The text of a float. *)
Lemma printable_float_literal t : float_literal t -> printable t = true.
Proof.
  intros (minus & u & frac & ex & Hm & _ & Hf & He & _ & ->).
  rewrite !printable_app, printable_uint.
  assert (printable minus = true) as -> by now destruct Hm as [->| ->].
  assert (printable frac = true) as ->.
  { destruct Hf as [->|(v & _ & ->)]; [reflexivity|].
    cbn [printable]. now rewrite printable_uint. }
  destruct He as [->|(c & sign & v & Hc & Hs & _ & ->)]; [reflexivity|].
  cbn [printable]. rewrite printable_app, printable_uint.
  destruct Hc as [->| ->], Hs as [->|[->| ->]]; reflexivity.
Qed.

Lemma float_literal_head t rest :
  float_literal t -> number_head (Utf8.codes t ++ rest).
Proof.
  intros (minus & u & frac & ex & Hm & Hu & _ & _ & _ & ->).
  rewrite sapp_codes4.
  destruct (sou_nonempty u (unorm_nonnil u Hu)) as (d & r & -> & Hd).
  destruct Hm as [->| ->]; cbn; auto.
Qed.

Lemma float_literal_dumps t : float_literal t -> Json.dumps_float t = t.
Proof.
  intros Ht. pose proof (float_literal_head t [] Ht) as Hh.
  unfold Json.dumps_float.
  destruct (String.eqb_spec t "nan") as [->|_]; [cbn in Hh; intuition discriminate|].
  destruct (String.eqb_spec t "inf") as [->|_]; [cbn in Hh; intuition discriminate|].
  destruct (String.eqb_spec t "-inf") as [->|_]; [cbn in Hh; intuition discriminate|].
  reflexivity.
Qed.

(** A float that reads back is one of the three special values, or has
    the text of a number and is the float of that text. *)
Lemma wf_float_cases r :
  Json.wf_float r = true ->
  r = "nan"%string \/ r = "inf"%string \/ r = "-inf"%string
  \/ (float_literal r /\ float_repr r = r).
Proof.
  unfold Json.wf_float. intros Hr.
  destruct (String.eqb_spec r "nan"); [auto|].
  destruct (String.eqb_spec r "inf"); [auto|].
  destruct (String.eqb_spec r "-inf"); [auto|].
  cbn [orb] in Hr. unfold Json.float_text in Hr.
  destruct (Json.scan_number (Utf8.codes r)) as [[v rest]|] eqn:E;
    [|discriminate].
  destruct v; try discriminate. destruct rest; [|discriminate].
  apply String.eqb_eq in Hr as ->.
  apply scan_number_shape in E as (t & Ht & Hx & Hc).
  rewrite app_nil_r in Hc. apply codes_inj in Hc as <-.
  right; right; right. split; [exact Ht | now symmetry].
Qed.

Lemma float_literal_text t :
  float_literal t -> float_repr t = t -> Json.float_text t = true.
Proof.
  intros Ht Hr. unfold Json.float_text.
  pose proof (scan_number_render t [] Ht I) as E.
  rewrite app_nil_r in E. rewrite E, Hr. apply String.eqb_refl.
Qed.

Lemma printable_dumps_float r :
  Json.wf_float r = true -> printable (Json.dumps_float r) = true.
Proof.
  intros Hr. apply wf_float_cases in Hr as [->|[->|[->|[Ht _]]]];
    try reflexivity.
  rewrite float_literal_dumps by exact Ht. now apply printable_float_literal.
Qed.

Lemma printable_dumps v : Json.wf v = true -> printable (Json.dumps v) = true.
Proof.
  induction v as [| [] | n | r | s | l IH | d IH] using json_nested_ind;
    intros Hwf; try reflexivity.
  - apply printable_of_Z.
  - now apply printable_dumps_float.
  - apply printable_quote.
  - cbn [Json.wf] in Hwf. simpl. rewrite !printable_app. simpl.
    rewrite andb_true_r. apply printable_join; [reflexivity|].
    apply Forall_map. rewrite forallb_forall in Hwf.
    rewrite Forall_forall in IH |- *. intros x Hx.
    apply IH; [exact Hx|]. apply Hwf. now apply list_elem_of_In.
  - cbn [Json.wf] in Hwf. apply andb_true_iff in Hwf as [_ Hwf].
    simpl. rewrite !printable_app. simpl.
    rewrite andb_true_r. apply printable_join; [reflexivity|].
    apply Forall_map. rewrite forallb_forall in Hwf.
    rewrite Forall_forall in IH |- *. intros [k x] Hx.
    unfold Json.dumps_member. cbn [fst snd].
    rewrite !printable_app, printable_quote. cbn [printable andb].
    apply (IH (k, x) Hx). apply (Hwf (k, x)). now apply list_elem_of_In.
Qed.

End Printable.

(** * Reading back what the encoder wrote *)

Section Lines.
Context `{PyFloat}.

Lemma printable_not_newline c :
  printable_char c = true ->
  (PyStr.code c =? 10)%N = false /\ (PyStr.code c =? 13)%N = false.
Proof.
  unfold printable_char. intros Hc.
  apply andb_true_iff in Hc as [H1 H2].
  apply N.leb_le in H1. split; apply N.eqb_neq; lia.
Qed.

Lemma lines_from_printable w cur rest :
  printable w = true ->
  PyFile.lines_from cur (w +:+ PyStr.nl +:+ rest)
  = (cur +:+ w +:+ PyStr.nl) :: PyFile.lines_from "" rest.
Proof.
  revert cur. induction w as [|c w IH]; intros cur Hw.
  - reflexivity.
  - simpl in Hw. apply andb_true_iff in Hw as [Hc Hw].
    destruct (printable_not_newline c Hc) as [H10 H13].
    rewrite sapp_cons. simpl. rewrite H10, H13.
    rewrite IH by exact Hw.
    now rewrite sapp_assoc, sapp_cons.
Qed.

Lemma lines_render K :
  Forall (fun o => Json.wf o = true) K ->
  PyFile.lines (render K) = map line_of K.
Proof.
  induction 1 as [|o K Ho _ IH]; [reflexivity|].
  simpl. unfold line_of at 1. rewrite sapp_assoc.
  unfold PyFile.lines.
  rewrite lines_from_printable by now apply printable_dumps.
  rewrite sapp_nil_l. f_equal. exact IH.
Qed.

(** A text of ASCII is its own encoding. *)
Lemma decode_ascii s :
  Forall (fun n => (n < 128)%N) (Utf8.codes s) ->
  Utf8.decode s = Some (Utf8.codes s).
Proof.
  induction s as [|c s IH]; [reflexivity|].
  cbn [Utf8.codes Utf8.decode]. intros Hs. apply Forall_cons in Hs as [Hc Hs].
  destruct (N.ltb_spec (N_of_ascii c) 128); [|lia].
  now rewrite IH.
Qed.

Lemma printable_ascii s :
  printable s = true -> Forall (fun n => (n < 128)%N) (Utf8.codes s).
Proof.
  induction s as [|c s IH]; [constructor|].
  cbn [printable Utf8.codes]. intros Hs.
  apply andb_true_iff in Hs as [Hc Hs]. constructor; [|now apply IH].
  unfold printable_char, PyStr.code in Hc.
  apply andb_true_iff in Hc as [_ Hc]. apply N.leb_le in Hc. lia.
Qed.

Lemma decode_line v :
  Json.wf v = true ->
  Utf8.decode (line_of v) = Some (Utf8.codes (Json.dumps v) ++ [10%N]).
Proof.
  intros Hv. unfold line_of. rewrite decode_ascii.
  - now rewrite codes_app.
  - rewrite codes_app. apply Forall_app. split.
    + now apply printable_ascii, printable_dumps.
    + repeat constructor.
Qed.

End Lines.

Section Scanning.
Local Open Scope N_scope.

Ltac Zify.zify_post_hook ::= Z.to_euclidean_division_equations.

Lemma hex4_bound a b c d n : Json.hex4 a b c d = Some n -> n < 65536.
Proof.
  unfold Json.hex4.
  assert (Hv : forall x v, Json.hex_value x = Some v -> v < 16).
  { unfold Json.hex_value. intros x v.
    repeat match goal with
           | |- context [?p <=? ?q] => destruct (N.leb_spec p q)
           end; cbn [andb]; intros [= <-]; lia. }
  destruct (Json.hex_value a) as [x|] eqn:Ea; [|discriminate].
  destruct (Json.hex_value b) as [y|] eqn:Eb; [|discriminate].
  destruct (Json.hex_value c) as [z|] eqn:Ec; [|discriminate].
  destruct (Json.hex_value d) as [w|] eqn:Ed; [|discriminate].
  apply Hv in Ea, Eb, Ec, Ed. intros [= <-]. lia.
Qed.

Lemma codes_u_escape n X :
  n < 65536 ->
  exists a b c d,
    Utf8.codes (Json.u_escape n) ++ X = 92 :: 117 :: a :: b :: c :: d :: X
    /\ Json.hex4 a b c d = Some n.
Proof.
  intros Hn. unfold Json.u_escape.
  destruct (hex_digit_cases (n / 4096) ltac:(lia)) as (a & -> & _ & Ha).
  destruct (hex_digit_cases ((n / 256) mod 16) ltac:(lia)) as (b & -> & _ & Hb).
  destruct (hex_digit_cases ((n / 16) mod 16) ltac:(lia)) as (c & -> & _ & Hc).
  destruct (hex_digit_cases (n mod 16) ltac:(lia)) as (d & -> & _ & Hd).
  exists (N_of_ascii a), (N_of_ascii b), (N_of_ascii c), (N_of_ascii d).
  split; [reflexivity|].
  unfold Json.hex4. rewrite Ha, Hb, Hc, Hd. f_equal. lia.
Qed.

(** The escape of a code point starts an escape of a low surrogate only
    when the code point is one. *)
Lemma low_escape_cp n X :
  n < Unicode.max_code ->
  low_escape (Utf8.codes (Json.escape_cp n) ++ X) = Unicode.is_low n
  /\ sound_escape (Utf8.codes (Json.escape_cp n) ++ X) = true.
Proof.
  unfold Unicode.max_code. intros Hn.
  assert (Hlow : forall m, m < 65536 ->
            low_escape (Utf8.codes (Json.u_escape m) ++ X) = Unicode.is_low m
            /\ sound_escape (Utf8.codes (Json.u_escape m) ++ X) = true).
  { intros m Hm. destruct (codes_u_escape m X Hm) as (a & b & c & d & -> & E).
    unfold low_escape, sound_escape. rewrite E. split; reflexivity. }
  assert (Hshort : forall e,
            e <> 117 ->
            low_escape (92 :: e :: X) = false
            /\ sound_escape (92 :: e :: X) = true).
  { intros e He. unfold low_escape, sound_escape.
    destruct X as [|? [|? [|? [|? ?]]]]; split; try reflexivity;
      destruct (N.eqb_spec e 117); try contradiction;
      rewrite ?andb_false_r; reflexivity. }
  assert (Hraw : forall c,
            c <> 92 -> Unicode.is_low c = false ->
            low_escape (c :: X) = Unicode.is_low c
            /\ sound_escape (c :: X) = true).
  { intros c Hc Hl. unfold low_escape, sound_escape. rewrite Hl.
    destruct X as [|? [|? [|? [|? [|? ?]]]]]; split; try reflexivity;
      destruct (N.eqb_spec c 92); try contradiction; reflexivity. }
  assert (Hnl : forall m, m < 55296 -> Unicode.is_low m = false).
  { intros m Hm. unfold Unicode.is_low.
    destruct (N.leb_spec 56320 m); [lia | reflexivity]. }
  unfold Json.escape_cp.
  destruct (N.eqb_spec n 34) as [->|?]; [apply (Hshort 34); lia|].
  destruct (N.eqb_spec n 92) as [->|?]; [apply (Hshort 92); lia|].
  destruct (N.eqb_spec n 10) as [->|?]; [apply (Hshort 110); lia|].
  destruct (N.eqb_spec n 13) as [->|?]; [apply (Hshort 114); lia|].
  destruct (N.eqb_spec n 9) as [->|?]; [apply (Hshort 116); lia|].
  destruct (N.eqb_spec n 8) as [->|?]; [apply (Hshort 98); lia|].
  destruct (N.eqb_spec n 12) as [->|?]; [apply (Hshort 102); lia|].
  destruct (N.leb_spec 32 n); cbn [andb].
  - destruct (N.leb_spec n 126).
    + cbn [Utf8.codes app]. rewrite N_ascii_embedding by lia.
      apply Hraw; [assumption | apply Hnl; lia].
    + destruct (N.ltb_spec n 65536); [now apply Hlow|].
      rewrite codes_app, <- app_assoc.
      destruct (codes_u_escape (55296 + (n - 65536) / 1024)
                  (Utf8.codes (Json.u_escape (56320 + (n - 65536) mod 1024))
                   ++ X) ltac:(lia)) as (a & b & c & d & -> & E).
      unfold low_escape, sound_escape. rewrite E. split; [|reflexivity].
      cbn. unfold Unicode.is_low.
      destruct (N.leb_spec 56320 (55296 + (n - 65536) / 1024)); [lia|].
      destruct (N.leb_spec 56320 n); [|lia].
      destruct (N.leb_spec n 57343); [lia | reflexivity].
  - destruct (N.ltb_spec n 65536); [now apply Hlow | lia].
Qed.

End Scanning.

Section ScanString.
Local Open Scope N_scope.

Ltac Zify.zify_post_hook ::= Z.to_euclidean_division_equations.

Lemma scan_string_short e x r :
  Json.unescape e = Some x ->
  Json.scan_string (92 :: e :: r) = Json.cons_char x (Json.scan_string r).
Proof. intros E. cbn [Json.scan_string]. now rewrite E. Qed.

Lemma scan_string_raw c r :
  c <> 34 -> c <> 92 -> 32 <= c ->
  Unicode.is_surrogate c = false -> c < Unicode.max_code ->
  Json.scan_string (c :: r) = Json.cons_char c (Json.scan_string r).
Proof.
  intros H1 H2 H3 H4 H5. cbn [Json.scan_string].
  destruct (N.eqb_spec c 34); [contradiction|].
  destruct (N.eqb_spec c 92); [contradiction|].
  destruct (N.ltb_spec c 32); [lia|]. rewrite H4.
  destruct (N.leb_spec Unicode.max_code c); [lia | reflexivity].
Qed.

Lemma scan_string_u h1 h2 h3 h4 x r2 :
  Json.hex4 h1 h2 h3 h4 = Some x ->
  Json.scan_string (92 :: 117 :: h1 :: h2 :: h3 :: h4 :: r2)
  = if Unicode.is_high x then
      match r2 with
      | b :: u :: l1 :: l2 :: l3 :: l4 :: r3 =>
          if (b =? 92) && (u =? 117) then
            match Json.hex4 l1 l2 l3 l4 with
            | None => None
            | Some y =>
                if Unicode.is_low y
                then Json.cons_char (Json.join_surrogates x y)
                       (Json.scan_string r3)
                else Json.cons_char x (Json.scan_string r2)
            end
          else Json.cons_char x (Json.scan_string r2)
      | _ => Json.cons_char x (Json.scan_string r2)
      end
    else Json.cons_char x (Json.scan_string r2).
Proof. intros E. cbn [Json.scan_string]. now rewrite E. Qed.

(** A lone surrogate. *)
Lemma scan_string_lone h1 h2 h3 h4 x r2 :
  Json.hex4 h1 h2 h3 h4 = Some x ->
  low_escape r2 = false -> sound_escape r2 = true ->
  Json.scan_string (92 :: 117 :: h1 :: h2 :: h3 :: h4 :: r2)
  = Json.cons_char x (Json.scan_string r2).
Proof.
  intros E Hl Hs. rewrite (scan_string_u _ _ _ _ _ _ E).
  destruct (Unicode.is_high x); [|reflexivity].
  destruct r2 as [|b [|u [|l1 [|l2 [|l3 [|l4 r3]]]]]]; try reflexivity.
  unfold low_escape in Hl. unfold sound_escape in Hs.
  destruct ((b =? 92) && (u =? 117)); [|reflexivity].
  cbn [andb negb orb] in Hl, Hs.
  destruct (Json.hex4 l1 l2 l3 l4) as [y|]; [|discriminate].
  now rewrite Hl.
Qed.

Lemma is_high_not_low n : Unicode.is_high n = true -> Unicode.is_low n = false.
Proof.
  unfold Unicode.is_high, Unicode.is_low. intros Hn.
  apply andb_true_iff in Hn as [_ Hn]. apply N.leb_le in Hn.
  destruct (N.leb_spec 56320 n); [lia | reflexivity].
Qed.

Lemma scan_string_cp n X :
  n < Unicode.max_code ->
  (Unicode.is_high n = true -> low_escape X = false) ->
  sound_escape X = true ->
  Json.scan_string (Utf8.codes (Json.escape_cp n) ++ X)
  = Json.cons_char n (Json.scan_string X).
Proof.
  unfold Unicode.max_code. intros Hn Hhigh Hsound. unfold Json.escape_cp.
  destruct (N.eqb_spec n 34) as [->|?]; [reflexivity|].
  destruct (N.eqb_spec n 92) as [->|?]; [reflexivity|].
  destruct (N.eqb_spec n 10) as [->|?]; [reflexivity|].
  destruct (N.eqb_spec n 13) as [->|?]; [reflexivity|].
  destruct (N.eqb_spec n 9) as [->|?]; [reflexivity|].
  destruct (N.eqb_spec n 8) as [->|?]; [reflexivity|].
  destruct (N.eqb_spec n 12) as [->|?]; [reflexivity|].
  assert (Hu : n < 65536 ->
               Json.scan_string (Utf8.codes (Json.u_escape n) ++ X)
               = Json.cons_char n (Json.scan_string X)).
  { intros Hn'. destruct (codes_u_escape n X Hn') as (a & b & c & d & -> & E).
    destruct (Unicode.is_high n) eqn:Hh.
    - now apply scan_string_lone; auto.
    - rewrite (scan_string_u _ _ _ _ _ _ E), Hh. reflexivity. }
  destruct (N.leb_spec 32 n); cbn [andb].
  - destruct (N.leb_spec n 126).
    + cbn [Utf8.codes app]. rewrite N_ascii_embedding by lia.
      apply scan_string_raw; auto; try lia.
      unfold Unicode.is_surrogate.
      destruct (N.leb_spec 55296 n); [lia | reflexivity].
    + destruct (N.ltb_spec n 65536); [now apply Hu|].
      rewrite codes_app, <- app_assoc.
      set (hi := 55296 + (n - 65536) / 1024).
      set (lo := 56320 + (n - 65536) mod 1024).
      destruct (codes_u_escape lo X ltac:(subst lo; lia))
        as (a' & b' & c' & d' & -> & E').
      destruct (codes_u_escape hi
                  (92 :: 117 :: a' :: b' :: c' :: d' :: X)
                  ltac:(subst hi; lia))
        as (a & b & c & d & -> & E).
      rewrite (scan_string_u _ _ _ _ _ _ E).
      assert (Unicode.is_high hi = true) as ->.
      { unfold Unicode.is_high. subst hi.
        apply andb_true_iff. split; apply N.leb_le; lia. }
      cbn [N.eqb Pos.eqb andb]. rewrite E'.
      assert (Unicode.is_low lo = true) as ->.
      { unfold Unicode.is_low. subst lo.
        apply andb_true_iff. split; apply N.leb_le; lia. }
      f_equal. unfold Json.join_surrogates. subst hi lo. lia.
  - destruct (N.ltb_spec n 65536); [now apply Hu | lia].
Qed.

(** What comes after the escape of a code point of a text without
    surrogate pairs. *)
Lemma escape_cps_next l rest :
  Forall (fun n => n < Unicode.max_code) l ->
  low_escape (Utf8.codes (Json.escape_cps l) ++ 34 :: rest) = starts_low l
  /\ sound_escape (Utf8.codes (Json.escape_cps l) ++ 34 :: rest) = true.
Proof.
  intros [|n l' Hn _].
  - cbn [Json.escape_cps Utf8.codes app starts_low].
    unfold low_escape, sound_escape.
    destruct rest as [|? [|? [|? [|? [|? ?]]]]]; split; reflexivity.
  - cbn [Json.escape_cps starts_low]. rewrite codes_app, <- app_assoc.
    now apply low_escape_cp.
Qed.

Lemma scan_string_escape_cps l rest :
  Forall (fun n => n < Unicode.max_code) l -> Json.no_pair l = true ->
  Json.scan_string (Utf8.codes (Json.escape_cps l) ++ 34 :: rest)
  = Some (l, rest).
Proof.
  induction 1 as [|n l Hn Hl IH]; intros Hp; [reflexivity|].
  cbn [Json.no_pair] in Hp. apply andb_true_iff in Hp as [Hp1 Hp2].
  cbn [Json.escape_cps]. rewrite codes_app, <- app_assoc.
  destruct (escape_cps_next l rest Hl) as [Hlow Hsound].
  rewrite scan_string_cp; auto.
  - now rewrite IH.
  - intros Hh. rewrite Hlow. destruct l as [|m l]; [reflexivity|].
    cbn [starts_low]. rewrite Hh in Hp1. cbn [andb] in Hp1.
    now apply negb_true_iff in Hp1.
Qed.

(** The literal of a string reads back as the string. *)
Lemma scan_string_escape s rest :
  Json.wf_str s = true ->
  exists l,
    Json.text l = s
    /\ Json.scan_string (Utf8.codes (Json.escape s) ++ 34 :: rest)
       = Some (l, rest).
Proof.
  unfold Json.wf_str, Json.escape. intros Hs.
  destruct (Utf8.decode s) as [l|] eqn:E; [|discriminate].
  exists l. split; [now apply encode_decode|].
  apply scan_string_escape_cps; [eapply decode_valid, E | exact Hs].
Qed.

End ScanString.

Section Decoding.
Context `{PyFloat}.
Local Open Scope N_scope.

Lemma is_digit_value_head c : is_digit c = true -> value_head c = true.
Proof.
  unfold is_digit, value_head, Json.is_ws. intros Hc.
  apply andb_true_iff in Hc as [H1 H2]. apply N.leb_le in H1, H2.
  repeat match goal with
         | |- context [?a =? ?b] => destruct (N.eqb_spec a b); [lia|]
         end.
  reflexivity.
Qed.

Lemma number_head_value_head s :
  number_head s -> exists c r, s = c :: r /\ value_head c = true.
Proof.
  destruct s as [|c r]; [contradiction|]. intros [Hc|[-> _]].
  - exists c, r. split; [reflexivity | now apply is_digit_value_head].
  - exists 45, r. split; reflexivity.
Qed.

Lemma of_N_head n rest : number_head (Utf8.codes (PyStr.of_N n) ++ rest).
Proof.
  unfold PyStr.of_N.
  destruct (sou_nonempty _ (to_uint_nonnil n)) as (d & r & -> & Hd).
  now left.
Qed.

Lemma of_Z_head n rest : number_head (Utf8.codes (PyStr.of_Z n) ++ rest).
Proof.
  destruct n as [|p|p]; unfold PyStr.of_Z; try apply of_N_head.
  cbn [Utf8.codes app]. change (N_of_ascii "-") with 45. unfold PyStr.of_N.
  destruct (sou_nonempty _ (to_uint_nonnil (N.pos p))) as (d & r & -> & Hd).
  right. split; [reflexivity | exact Hd].
Qed.

Lemma dumps_head v :
  Json.wf v = true ->
  exists c r, Utf8.codes (Json.dumps v) = c :: r /\ value_head c = true.
Proof.
  intros Hv.
  destruct v as [| [] | n | x | s | l | d];
    try (eexists _, _; split; reflexivity).
  - pose proof (of_Z_head n []) as Hh. rewrite app_nil_r in Hh.
    now apply number_head_value_head.
  - cbn [Json.dumps]. cbn [Json.wf] in Hv.
    apply wf_float_cases in Hv as [->|[->|[->|[Ht _]]]];
      try (eexists _, _; split; reflexivity).
    rewrite float_literal_dumps by exact Ht.
    pose proof (float_literal_head x [] Ht) as Hh. rewrite app_nil_r in Hh.
    now apply number_head_value_head.
Qed.

Lemma skip_ws_head c r :
  Json.is_ws c = false -> Json.skip_ws (c :: r) = c :: r.
Proof. intros Hc. simpl. now rewrite Hc. Qed.

Lemma value_head_ws c : value_head c = true -> Json.is_ws c = false.
Proof.
  unfold value_head. intros Hc.
  apply andb_true_iff in Hc as [Hc _]. apply andb_true_iff in Hc as [Hc _].
  now apply negb_true_iff.
Qed.

Lemma skip_ws_dumps v rest :
  Json.wf v = true ->
  Json.skip_ws (Utf8.codes (Json.dumps v) ++ rest)
  = Utf8.codes (Json.dumps v) ++ rest.
Proof.
  intros Hv. destruct (dumps_head v Hv) as (c & r & -> & Hc).
  now apply skip_ws_head, value_head_ws.
Qed.

Lemma parse_value_int f n rest :
  number_stop rest ->
  (nb_digits (N.to_uint (Z.abs_N n)) <= Json.int_max_str_digits)%nat ->
  Json.parse_value (S f) (Utf8.codes (PyStr.of_Z n) ++ rest)
  = Some (JInt n, rest).
Proof.
  intros Hrest Hlim. rewrite parse_value_number by apply of_Z_head.
  now apply scan_number_int.
Qed.

Lemma parse_value_float f r rest :
  Json.wf_float r = true -> number_stop rest ->
  Json.parse_value (S f) (Utf8.codes (Json.dumps_float r) ++ rest)
  = Some (JFloat r, rest).
Proof.
  intros Hr Hrest.
  apply wf_float_cases in Hr as [->|[->|[->|[Ht Hrepr]]]];
    try reflexivity.
  rewrite float_literal_dumps by exact Ht.
  rewrite parse_value_number by now apply float_literal_head.
  rewrite scan_number_render by assumption. now rewrite Hrepr.
Qed.

Lemma parse_value_str f s rest :
  Json.wf_str s = true ->
  Json.parse_value (S f) (Utf8.codes (Json.quote s) ++ rest)
  = Some (JStr s, rest).
Proof.
  intros Hs. unfold Json.quote.
  cbn [Utf8.codes app]. rewrite codes_app, <- app_assoc.
  cbn [Utf8.codes app Json.parse_value].
  change (N_of_ascii Json.dquote) with 34. cbn [N.eqb Pos.eqb].
  destruct (scan_string_escape s rest Hs) as (l & <- & ->). reflexivity.
Qed.

End Decoding.

Section Dicts.
Context {V : Type}.
Implicit Types (d acc : list (string * V)).

Lemma set_fresh d k v :
  k ∉ map fst d -> PyDict.set d k v = d ++ [(k, v)].
Proof.
  induction d as [|[k' v'] d IH]; intros Hk; [reflexivity|].
  simpl in *. apply not_elem_of_cons in Hk as [Hne Hk].
  destruct (String.eqb_spec k' k) as [->|_]; [congruence|].
  now rewrite IH.
Qed.

Lemma of_pairs_from acc d :
  NoDup (map fst (acc ++ d)) ->
  fold_left (fun d kv => PyDict.set d (fst kv) (snd kv)) d acc = acc ++ d.
Proof.
  revert acc. induction d as [|[k v] d IH]; intros acc Hnd.
  - now rewrite app_nil_r.
  - simpl. rewrite set_fresh.
    + rewrite IH; rewrite <- app_assoc; [reflexivity | exact Hnd].
    + rewrite map_app in Hnd. apply NoDup_app in Hnd as (_ & Hd & _).
      intros Hin. apply (Hd k Hin). simpl. left.
Qed.

Lemma of_pairs_nodup d : NoDup (map fst d) -> PyDict.of_pairs d = d.
Proof. intros H. unfold PyDict.of_pairs. now rewrite of_pairs_from. Qed.

Lemma set_keys d k v :
  map fst (PyDict.set d k v)
  = if bool_decide (k ∈ map fst d) then map fst d else map fst d ++ [k].
Proof.
  induction d as [|[k' v'] d IH]; [reflexivity|].
  simpl. destruct (String.eqb_spec k' k) as [->|Hne].
  - rewrite bool_decide_eq_true_2 by left. reflexivity.
  - simpl. rewrite IH. destruct (bool_decide_reflect (k ∈ map fst d)) as [Hin|Hin].
    + rewrite bool_decide_eq_true_2 by now right. reflexivity.
    + rewrite bool_decide_eq_false_2; [reflexivity|].
      intros Hin'. apply elem_of_cons in Hin' as [->|Hin']; congruence.
Qed.

Lemma set_nodup d k v :
  NoDup (map fst d) -> NoDup (map fst (PyDict.set d k v)).
Proof.
  intros H. rewrite set_keys. case_bool_decide as Hin; [exact H|].
  apply NoDup_app. split_and!; [exact H | | apply NoDup_singleton].
  intros x Hx Hx'. apply list_elem_of_singleton in Hx' as ->. contradiction.
Qed.

Lemma set_forall (P : V -> bool) d k v :
  forallb (fun kv => P (snd kv)) d = true -> P v = true ->
  forallb (fun kv => P (snd kv)) (PyDict.set d k v) = true.
Proof.
  intros Hd Hv. induction d as [|[k' v'] d IH]; simpl in *.
  - now rewrite Hv.
  - apply andb_true_iff in Hd as [H1 H2].
    destruct (String.eqb k' k); simpl; rewrite ?Hv, ?H1, ?H2, ?IH; auto.
Qed.

Lemma of_pairs_spec (P : V -> bool) ps :
  forallb (fun kv => P (snd kv)) ps = true ->
  NoDup (map fst (PyDict.of_pairs ps))
  /\ forallb (fun kv => P (snd kv)) (PyDict.of_pairs ps) = true.
Proof.
  unfold PyDict.of_pairs.
  assert (G : forall acc,
    NoDup (map fst acc) -> forallb (fun kv => P (snd kv)) acc = true ->
    forallb (fun kv => P (snd kv)) ps = true ->
    NoDup (map fst (fold_left (fun d kv => PyDict.set d (fst kv) (snd kv)) ps acc))
    /\ forallb (fun kv => P (snd kv))
         (fold_left (fun d kv => PyDict.set d (fst kv) (snd kv)) ps acc) = true).
  { induction ps as [|[k v] ps IH]; intros acc Hnd Hacc Hps; [now split|].
    simpl in *. apply andb_true_iff in Hps as [Hv Hps].
    apply IH; [now apply set_nodup | now apply set_forall | exact Hps]. }
  intros Hps. apply G; [constructor | reflexivity | exact Hps].
Qed.

Lemma lookup_set_eq d k v : PyDict.lookup (PyDict.set d k v) k = Some v.
Proof.
  induction d as [|[k' v'] d IH]; simpl.
  - now rewrite String.eqb_refl.
  - destruct (String.eqb_spec k' k) as [->|Hne]; simpl.
    + now rewrite String.eqb_refl.
    + destruct (String.eqb_spec k' k); [congruence | exact IH].
Qed.

Lemma lookup_set_ne d k k' v :
  k <> k' -> PyDict.lookup (PyDict.set d k v) k' = PyDict.lookup d k'.
Proof.
  intros Hne. induction d as [|[k0 v0] d IH]; simpl.
  - destruct (String.eqb_spec k k'); [congruence | reflexivity].
  - destruct (String.eqb_spec k0 k) as [->|Hne0]; simpl.
    + destruct (String.eqb_spec k k'); [congruence | reflexivity].
    + now rewrite IH.
Qed.

End Dicts.

Section DictKeys.
Context {V : Type}.
Implicit Types (d : list (string * V)).

Lemma set_keys_forall (P : string -> bool) d k v :
  forallb P (map fst d) = true -> P k = true ->
  forallb P (map fst (PyDict.set d k v)) = true.
Proof.
  intros Hd Hk. rewrite set_keys. case_bool_decide; [exact Hd|].
  rewrite forallb_app, Hd. cbn. now rewrite Hk.
Qed.

Lemma of_pairs_keys (P : string -> bool) (ps : list (string * V)) :
  forallb P (map fst ps) = true ->
  forallb P (map fst (PyDict.of_pairs ps)) = true.
Proof.
  unfold PyDict.of_pairs.
  assert (G : forall (acc : list (string * V)),
    forallb P (map fst acc) = true -> forallb P (map fst ps) = true ->
    forallb P
      (map fst (fold_left (fun d kv => PyDict.set d (fst kv) (snd kv)) ps acc))
    = true).
  { induction ps as [|[k v] ps IH]; intros acc Hacc Hps; [exact Hacc|].
    cbn in Hps. apply andb_true_iff in Hps as [Hk Hps]. cbn [fold_left].
    apply IH; [now apply set_keys_forall | exact Hps]. }
  intros Hps. now apply G.
Qed.

End DictKeys.

Section RoundTrip.
Context `{PyFloat}.
Local Open Scope N_scope.

Lemma skip_ws_space X : Json.skip_ws (32 :: X) = Json.skip_ws X.
Proof. reflexivity. Qed.

Lemma join_cons2 sep x y l :
  PyStr.join sep (x :: y :: l) = x +:+ sep +:+ PyStr.join sep (y :: l).
Proof. reflexivity. Qed.

Lemma codes_join_cons2 x y l rest :
  Utf8.codes (PyStr.join ", " (x :: y :: l)) ++ rest
  = Utf8.codes x ++ 44 :: 32 :: Utf8.codes (PyStr.join ", " (y :: l)) ++ rest.
Proof. rewrite join_cons2, !codes_app, <- !app_assoc. reflexivity. Qed.

Lemma join_dumps_head x l :
  Json.wf x = true ->
  exists c r,
    Utf8.codes (PyStr.join ", " (map Json.dumps (x :: l))) = c :: r
    /\ value_head c = true.
Proof.
  intros Hx. destruct (dumps_head x Hx) as (c & r & Ex & Hc).
  destruct l as [|y l].
  - simpl. eauto.
  - cbn [map]. rewrite join_cons2, codes_app, Ex. cbn [app]. eauto.
Qed.

Lemma value_head_not_close c :
  value_head c = true -> (c =? 93) = false /\ (c =? 125) = false.
Proof.
  unfold value_head. intros Hc.
  apply andb_true_iff in Hc as [Hc H2]. apply andb_true_iff in Hc as [_ H1].
  split; now apply negb_true_iff.
Qed.

Lemma parse_elems_join l :
  Forall (fun v => Json.wf v = true -> decodes_back v) l ->
  forallb Json.wf l = true -> l <> [] ->
  forall fuel rest,
    (S (String.length (PyStr.join ", " (map Json.dumps l))) <= fuel)%nat ->
    Json.parse_elems fuel
      (Utf8.codes (PyStr.join ", " (map Json.dumps l)) ++ 93 :: rest)
    = Some (l, rest).
Proof.
  induction 1 as [|x l Hx Hl IH]; intros Hwf Hne fuel rest Hfuel;
    [congruence|].
  simpl in Hwf. apply andb_true_iff in Hwf as [Hwx Hwl].
  specialize (Hx Hwx).
  destruct fuel as [|f]; [lia|].
  destruct l as [|y l].
  - simpl in Hfuel. cbn [map PyStr.join Json.parse_elems].
    rewrite Hx; [|lia|reflexivity]. reflexivity.
  - cbn [map] in *. rewrite join_cons2 in Hfuel.
    rewrite !slength_app in Hfuel. rewrite codes_join_cons2.
    cbn [Json.parse_elems].
    rewrite Hx; [|lia|reflexivity].
    cbn [Json.skip_ws].
    change (Json.is_ws 44) with false. cbv iota.
    change (44 =? 93) with false. change (44 =? 44) with true. cbv iota.
    rewrite skip_ws_space.
    apply andb_true_iff in Hwl as Hwy. destruct Hwy as [Hwy _].
    destruct (join_dumps_head y l Hwy) as (c & r & HJ & Hc).
    specialize (IH Hwl ltac:(discriminate) f rest ltac:(simpl in *; lia)).
    cbn [map] in HJ. rewrite HJ in IH |- *. cbn [app] in IH |- *.
    rewrite skip_ws_head by now apply value_head_ws.
    rewrite IH. reflexivity.
Qed.

Lemma codes_member k x rest :
  Utf8.codes (Json.dumps_member Json.dumps (k, x)) ++ rest
  = 34 :: Utf8.codes (Json.escape k)
    ++ 34 :: 58 :: 32 :: Utf8.codes (Json.dumps x) ++ rest.
Proof.
  unfold Json.dumps_member, Json.quote. cbn [fst snd].
  repeat first [rewrite codes_app | rewrite <- app_assoc
               | progress cbn [Utf8.codes app]].
  reflexivity.
Qed.

Lemma join_members_head kv d :
  exists r,
    Utf8.codes (PyStr.join ", " (map (Json.dumps_member Json.dumps) (kv :: d)))
    = 34 :: r.
Proof.
  destruct kv as [k x]. destruct d as [|kv' d].
  - cbn [map PyStr.join].
    pose proof (codes_member k x []) as E. rewrite !app_nil_r in E.
    rewrite E. eauto.
  - cbn [map]. rewrite join_cons2, codes_app.
    pose proof (codes_member k x []) as E. rewrite !app_nil_r in E.
    rewrite E. cbn [app]. eauto.
Qed.

Lemma parse_members_join d :
  Forall (fun kv => Json.wf (snd kv) = true -> decodes_back (snd kv)) d ->
  forallb Json.wf_str (map fst d) = true ->
  forallb (fun kv => Json.wf (snd kv)) d = true -> d <> [] ->
  forall fuel rest,
    (S (String.length
          (PyStr.join ", " (map (Json.dumps_member Json.dumps) d)))
     <= fuel)%nat ->
    Json.parse_members fuel
      (Utf8.codes (PyStr.join ", " (map (Json.dumps_member Json.dumps) d))
       ++ 125 :: rest)
    = Some (d, rest).
Proof.
  induction 1 as [|[k x] d Hx Hd IH]; intros Hkeys Hwf Hne fuel rest Hfuel;
    [congruence|].
  cbn [snd forallb map fst] in Hwf, Hx, Hkeys.
  apply andb_true_iff in Hwf as [Hwx Hwd].
  apply andb_true_iff in Hkeys as [Hk Hkeys].
  specialize (Hx Hwx).
  destruct fuel as [|f]; [lia|].
  assert (Hkey : forall X,
    Json.parse_members (S f)
      (Utf8.codes (Json.dumps_member Json.dumps (k, x)) ++ X)
    = match Json.parse_value f (Utf8.codes (Json.dumps x) ++ X) with
      | Some (v, r3) =>
          match Json.skip_ws r3 with
          | [] => None
          | c' :: r4 =>
              if c' =? 125 then Some ([(k, v)], r4)
              else if c' =? 44 then
                match Json.parse_members f (Json.skip_ws r4) with
                | Some (ps, r5) => Some ((k, v) :: ps, r5)
                | None => None
                end
              else None
          end
      | None => None
      end).
  { intros X. rewrite codes_member. cbn [Json.parse_members].
    change (34 =? 34) with true. cbn [negb].
    destruct (scan_string_escape k
                (58 :: 32 :: Utf8.codes (Json.dumps x) ++ X) Hk)
      as (l & <- & ->).
    cbn [Json.skip_ws]. change (Json.is_ws 58) with false. cbv iota.
    change (58 =? 58) with true. cbn [negb].
    now rewrite skip_ws_space, skip_ws_dumps. }
  destruct d as [|kv' d].
  - cbn [map PyStr.join] in Hfuel |- *.
    unfold Json.dumps_member in Hfuel. cbn [fst snd] in Hfuel.
    rewrite !slength_app in Hfuel.
    rewrite Hkey, Hx; [|lia|reflexivity]. reflexivity.
  - cbn [map] in Hfuel, IH |- *. rewrite join_cons2 in Hfuel.
    unfold Json.dumps_member at 1 in Hfuel. cbn [fst snd] in Hfuel.
    rewrite !slength_app in Hfuel.
    rewrite join_cons2, !codes_app, <- !app_assoc.
    rewrite Hkey, Hx; [|lia|reflexivity].
    cbn [Utf8.codes app Json.skip_ws].
    change (N_of_ascii ",") with 44. change (N_of_ascii " ") with 32.
    change (Json.is_ws 44) with false. cbv iota.
    change (44 =? 125) with false. change (44 =? 44) with true. cbv iota.
    rewrite skip_ws_space.
    destruct (join_members_head kv' d) as (r & HJ).
    specialize (IH Hkeys Hwd ltac:(discriminate) f rest
                  ltac:(simpl in *; lia)).
    cbn [map] in HJ. rewrite HJ in IH |- *. cbn [app] in IH |- *.
    rewrite skip_ws_head by reflexivity.
    rewrite IH. reflexivity.
Qed.

Lemma wf_JObj d :
  Json.wf (JObj d) = true ->
  NoDup (map fst d) /\ forallb Json.wf_str (map fst d) = true
  /\ forallb (fun kv => Json.wf (snd kv)) d = true.
Proof.
  cbn [Json.wf]. intros Hd. apply andb_true_iff in Hd as [Hd H3].
  apply andb_true_iff in Hd as [H1 H2].
  split_and!; auto. now apply bool_decide_eq_true in H1.
Qed.

Lemma dumps_nonempty v :
  Json.wf v = true -> (1 <= String.length (Json.dumps v))%nat.
Proof.
  intros Hv. destruct (dumps_head v Hv) as (c & r & E & _).
  rewrite <- codes_length, E. simpl. lia.
Qed.

(** Decoding an encoded value gives the value back. *)
Lemma parse_dumps v : Json.wf v = true -> decodes_back v.
Proof.
  induction v as [| [] | n | x | s | l IH | d IH] using json_nested_ind;
    intros Hwf fuel rest Hfuel Hrest;
    (destruct fuel as [|f];
     [pose proof (dumps_nonempty _ Hwf); lia|]).
  - reflexivity.
  - reflexivity.
  - reflexivity.
  - cbn [Json.wf] in Hwf. apply Nat.leb_le in Hwf.
    now apply parse_value_int.
  - now apply parse_value_float.
  - now apply parse_value_str.
  - cbn [Json.wf] in Hwf. cbn [Json.dumps] in Hfuel |- *.
    rewrite !slength_app in Hfuel.
    rewrite !codes_app, <- !app_assoc. cbn [Utf8.codes app].
    destruct l as [|x l]; [reflexivity|].
    cbn [forallb] in Hwf. apply andb_true_iff in Hwf as Hwx.
    destruct Hwx as [Hwx _].
    destruct (join_dumps_head x l Hwx) as (c & r & HJ & Hc).
    pose proof (parse_elems_join (x :: l) IH Hwf ltac:(discriminate)
                  f rest ltac:(simpl in *; lia)) as E.
    rewrite HJ in E |- *. cbn [app] in E |- *.
    cbn [Json.parse_value].
    change (N_of_ascii "[") with 91. change (N_of_ascii "]") with 93.
    change (91 =? 34) with false. change (91 =? 91) with true. cbv iota.
    rewrite skip_ws_head by now apply value_head_ws.
    destruct (value_head_not_close c Hc) as [-> _].
    now rewrite E.
  - apply wf_JObj in Hwf as (Hnd & Hkeys & Hwf).
    cbn [Json.dumps] in Hfuel |- *.
    rewrite !slength_app in Hfuel.
    rewrite !codes_app, <- !app_assoc. cbn [Utf8.codes app].
    destruct d as [|kv d]; [reflexivity|].
    destruct (join_members_head kv d) as (r & HJ).
    pose proof (parse_members_join (kv :: d) IH Hkeys Hwf ltac:(discriminate)
                  f rest ltac:(simpl in *; lia)) as E.
    rewrite HJ in E |- *. cbn [app] in E |- *.
    cbn [Json.parse_value].
    change (N_of_ascii "{") with 123. change (N_of_ascii "}") with 125.
    change (123 =? 34) with false. change (123 =? 91) with false.
    change (123 =? 123) with true. cbv iota.
    rewrite skip_ws_head by reflexivity.
    change (34 =? 125) with false. cbv iota.
    rewrite E. now rewrite of_pairs_nodup.
Qed.

(** [json.loads(json.dumps(v) + "\n") == v] *)
Lemma loads_line_of v : Json.wf v = true -> Json.loads (line_of v) = Some v.
Proof.
  intros Hwf. unfold Json.loads. rewrite decode_line by exact Hwf.
  unfold Json.loads_text. rewrite skip_ws_dumps by exact Hwf.
  rewrite (parse_dumps v Hwf).
  - reflexivity.
  - rewrite length_app, codes_length. lia.
  - reflexivity.
Qed.

End RoundTrip.

Section DecodedStrings.
Local Open Scope N_scope.

Lemma cons_char_some c r x rest :
  Json.cons_char c r = Some (x, rest) ->
  exists x', r = Some (x', rest) /\ x = c :: x'.
Proof. destruct r as [[x' r']|]; [intros [= <- <-]; eauto | discriminate]. Qed.

Lemma unescape_small e y : Json.unescape e = Some y -> y < 128.
Proof.
  unfold Json.unescape.
  repeat match goal with
         | |- context [if ?b then _ else _] => destruct b
         end; intros [= <-]; lia.
Qed.

Lemma not_surrogate n :
  Unicode.is_surrogate n = false ->
  Unicode.is_high n = false /\ Unicode.is_low n = false.
Proof.
  unfold Unicode.is_surrogate, Unicode.is_high, Unicode.is_low. intros Hn.
  apply andb_false_iff in Hn as [Hn|Hn]; apply N.leb_gt in Hn; split;
    apply andb_false_iff; (left; apply N.leb_gt; lia)
                          || (right; apply N.leb_gt; lia).
Qed.

Lemma small_not_surrogate n :
  n < 55296 -> Unicode.is_high n = false /\ Unicode.is_low n = false.
Proof.
  intros Hn. apply not_surrogate. unfold Unicode.is_surrogate.
  destruct (N.leb_spec 55296 n); [lia | reflexivity].
Qed.

Lemma no_pair_cons a x :
  (Unicode.is_high a = true -> starts_low x = false) ->
  Json.no_pair x = true -> Json.no_pair (a :: x) = true.
Proof.
  intros Ha Hx. cbn [Json.no_pair]. rewrite Hx, andb_true_r.
  destruct x as [|b x]; [reflexivity|]. cbn [starts_low] in Ha.
  destruct (Unicode.is_high a); [|reflexivity]. now rewrite Ha.
Qed.

Lemma sound_scan_step c s x r :
  sound_scan s ->
  Json.cons_char c (Json.scan_string s) = Some (x, r) ->
  c < Unicode.max_code ->
  (Unicode.is_high c = true -> low_escape s = false) ->
  Forall (fun n => n < Unicode.max_code) x /\ Json.no_pair x = true
  /\ starts_low x = Unicode.is_low c.
Proof.
  intros IH Hs Hc Hhigh.
  apply cons_char_some in Hs as (x' & Hs & ->).
  destruct (IH _ _ Hs) as (Hv & Hp & Hl).
  split_and!; [now constructor | | reflexivity].
  apply no_pair_cons; [|exact Hp].
  intros Hh. destruct (starts_low x') eqn:E; [|reflexivity].
  rewrite Hl in Hhigh by reflexivity. now apply Hhigh.
Qed.

Lemma scan_string_sound_fuel k :
  forall s, (length s <= k)%nat -> sound_scan s.
Proof.
  induction k as [|k IH]; intros s Hk.
  { destruct s; [|simpl in Hk; lia]. intros x r. discriminate. }
  destruct s as [|c s]; [intros x r; discriminate|].
  simpl in Hk. intros x r. cbn [Json.scan_string].
  destruct (N.eqb_spec c 34) as [->|Hq].
  { intros [= <- <-]. split_and!; [constructor | reflexivity | discriminate]. }
  destruct (N.eqb_spec c 92) as [->|Hb].
  2:{ destruct (N.ltb_spec c 32); [discriminate|].
      destruct (Unicode.is_surrogate c) eqn:Hsur; [discriminate|].
      destruct (N.leb_spec Unicode.max_code c); [discriminate|].
      cbn [orb]. intros Hs.
      destruct (not_surrogate c Hsur) as [Hh Hl].
      destruct (sound_scan_step c s x r (IH s ltac:(lia)) Hs) as (? & ? & E);
        auto; [congruence|].
      split_and!; auto. rewrite E, Hl. discriminate. }
  destruct s as [|e r1]; [discriminate|]. simpl in Hk.
  destruct (Json.unescape e) as [y|] eqn:Hy.
  { intros Hs. pose proof (unescape_small e y Hy) as Hsmall.
    destruct (small_not_surrogate y ltac:(lia)) as [Hh Hl].
    destruct (sound_scan_step y r1 x r (IH r1 ltac:(lia)) Hs) as (? & ? & E);
      auto; [unfold Unicode.max_code; lia | congruence |].
    split_and!; auto. rewrite E, Hl. discriminate. }
  destruct (N.eqb_spec e 117) as [->|_]; [|discriminate].
  destruct r1 as [|h1 [|h2 [|h3 [|h4 r2]]]]; try discriminate.
  simpl in Hk.
  destruct (Json.hex4 h1 h2 h3 h4) as [v|] eqn:Hv; [|discriminate].
  pose proof (hex4_bound _ _ _ _ _ Hv) as Hvb.
  assert (Hlone :
    Json.cons_char v (Json.scan_string r2) = Some (x, r) ->
    (Unicode.is_high v = true -> low_escape r2 = false) ->
    Forall (fun n => n < Unicode.max_code) x /\ Json.no_pair x = true
    /\ (starts_low x = true ->
        low_escape (92 :: 117 :: h1 :: h2 :: h3 :: h4 :: r2) = true)).
  { intros Hs Hhigh.
    destruct (sound_scan_step v r2 x r (IH r2 ltac:(lia)) Hs) as (? & ? & E);
      auto; [unfold Unicode.max_code; lia|].
    split_and!; auto. rewrite E. unfold low_escape. now rewrite Hv. }
  destruct (Unicode.is_high v) eqn:Hhigh;
    [|intros Hs; apply Hlone; [exact Hs | discriminate]].
  destruct r2 as [|b [|u [|l1 [|l2 [|l3 [|l4 r3]]]]]];
    try (intros Hs; apply Hlone; [exact Hs | reflexivity]).
  destruct ((b =? 92) && (u =? 117)) eqn:Hbu.
  2:{ intros Hs. apply Hlone; [exact Hs|]. intros _.
      unfold low_escape. now rewrite Hbu. }
  destruct (Json.hex4 l1 l2 l3 l4) as [y|] eqn:Hy2; [|discriminate].
  destruct (Unicode.is_low y) eqn:Hlow.
  2:{ intros Hs. apply Hlone; [exact Hs|]. intros _.
      unfold low_escape. now rewrite Hbu, Hy2, Hlow. }
  intros Hs. simpl in Hk.
  assert (Hj : 65536 <= Json.join_surrogates v y < Unicode.max_code).
  { unfold Json.join_surrogates, Unicode.max_code.
    unfold Unicode.is_high in Hhigh. unfold Unicode.is_low in Hlow.
    apply andb_true_iff in Hhigh as [H1 H2], Hlow as [H3 H4].
    apply N.leb_le in H1, H2, H3, H4. lia. }
  assert (Hns : Unicode.is_surrogate (Json.join_surrogates v y) = false).
  { unfold Unicode.is_surrogate.
    destruct (N.leb_spec (Json.join_surrogates v y) 57343); [lia|].
    apply andb_false_r. }
  destruct (not_surrogate _ Hns) as [Hh' Hl'].
  destruct (sound_scan_step _ r3 x r (IH r3 ltac:(lia)) Hs) as (? & ? & E);
    auto; [lia | congruence |].
  split_and!; auto. rewrite E, Hl'. discriminate.
Qed.

Lemma scan_string_wf s x r :
  Json.scan_string s = Some (x, r) -> Json.wf_str (Json.text x) = true.
Proof.
  intros Hs.
  destruct (scan_string_sound_fuel (length s) s (le_n _) x r Hs)
    as (Hv & Hp & _).
  unfold Json.wf_str, Json.text. now rewrite decode_encode.
Qed.

End DecodedStrings.

Section DecodedValues.
Context `{PyFloatLaws}.

Lemma scan_number_wf s v r :
  Json.scan_number s = Some (v, r) -> Json.wf v = true.
Proof.
  intros Hs. destruct v; try (exfalso; revert Hs; unfold Json.scan_number;
    repeat match goal with
           | |- context [match ?x with _ => _ end] => destruct x
           | |- context [let (_, _) := ?x in _] => destruct x
           end; discriminate).
  - revert Hs. unfold Json.scan_number.
    destruct (match s with
              | c :: r0 =>
                  if (c =? 45)%N then ("-"%string, r0) else (EmptyString, s)
              | [] => (EmptyString, s)
              end) as [minus s1].
    destruct (Json.scan_digits s1) as [u r0].
    destruct (uint_beq (unorm u) u) eqn:Hu; [|discriminate]. cbn [negb].
    apply internal_uint_dec_bl in Hu.
    destruct (Json.scan_frac r0) as [frac r1].
    destruct (Json.scan_exp r1) as [ex r2].
    destruct (String.eqb frac "" && String.eqb ex ""); [|discriminate].
    destruct (Nat.ltb_spec Json.int_max_str_digits (nb_digits u));
      [discriminate|].
    intros [= <- _]. cbn [Json.wf]. apply Nat.leb_le.
    replace (Z.abs_N _) with (N.of_uint u)
      by (destruct (String.eqb minus ""); lia).
    now rewrite Unsigned.to_of, Hu.
  - cbn [Json.wf]. eapply float_reads_back, Hs.
Qed.

Lemma scan_literal_wf s v r :
  Json.scan_literal s = Some (v, r) -> Json.wf v = true.
Proof.
  unfold Json.scan_literal.
  destruct (Json.scan_constant Json.constants s) as [[v' r']|] eqn:E.
  - intros [= <- <-]. apply scan_constant_some in E as (name & Hin & _).
    unfold Json.constants in Hin. cbn [In] in Hin.
    repeat destruct Hin as [Hin|Hin]; try contradiction;
      injection Hin as _ <-; reflexivity.
  - apply scan_number_wf.
Qed.

Lemma wf_of_pairs ps :
  forallb Json.wf_str (map fst ps) = true ->
  forallb (fun kv => Json.wf (snd kv)) ps = true ->
  Json.wf (JObj (PyDict.of_pairs ps)) = true.
Proof.
  intros Hk Hv. destruct (of_pairs_spec Json.wf ps Hv) as [Hnd Hall].
  cbn [Json.wf]. rewrite Hall, andb_true_r.
  rewrite (of_pairs_keys Json.wf_str ps Hk), andb_true_r.
  now apply bool_decide_eq_true.
Qed.

Lemma parse_wf fuel :
  (forall s v r, Json.parse_value fuel s = Some (v, r) -> Json.wf v = true)
  /\ (forall s l r,
        Json.parse_elems fuel s = Some (l, r) -> forallb Json.wf l = true)
  /\ (forall s ps r,
        Json.parse_members fuel s = Some (ps, r) ->
        forallb Json.wf_str (map fst ps) = true
        /\ forallb (fun kv => Json.wf (snd kv)) ps = true).
Proof.
  induction fuel as [|f (IHv & IHe & IHm)]; [repeat split; discriminate|].
  split_and!.
  - intros s v r. cbn [Json.parse_value].
    destruct s as [|c s]; [discriminate|].
    destruct (c =? 34)%N.
    { destruct (Json.scan_string s) as [[x r']|] eqn:E; intros [= <- _].
      cbn [Json.wf]. eapply scan_string_wf, E. }
    destruct (c =? 91)%N.
    { destruct (Json.skip_ws s) as [|c' r']; [discriminate|].
      destruct (c' =? 93)%N; [intros [= <- _]; reflexivity|].
      destruct (Json.parse_elems f (c' :: r')) as [[l r'']|] eqn:E;
        intros [= <- _]. cbn [Json.wf]. eauto. }
    destruct (c =? 123)%N.
    { destruct (Json.skip_ws s) as [|c' r']; [discriminate|].
      destruct (c' =? 125)%N; [intros [= <- _]; reflexivity|].
      destruct (Json.parse_members f (c' :: r')) as [[ps r'']|] eqn:E;
        intros [= <- _]. destruct (IHm _ _ _ E). now apply wf_of_pairs. }
    apply scan_literal_wf.
  - intros s l r. cbn [Json.parse_elems].
    destruct (Json.parse_value f s) as [[v r1]|] eqn:Ev; [|discriminate].
    destruct (Json.skip_ws r1) as [|c r']; [discriminate|].
    destruct (c =? 93)%N.
    { intros [= <- _]. cbn [forallb]. erewrite IHv by eauto. reflexivity. }
    destruct (c =? 44)%N; [|discriminate].
    destruct (Json.parse_elems f (Json.skip_ws r')) as [[l' r'']|] eqn:E;
      intros [= <- _].
    cbn [forallb]. erewrite IHv, IHe by eauto. reflexivity.
  - intros s ps r. cbn [Json.parse_members].
    destruct s as [|q s]; [discriminate|].
    destruct (negb (q =? 34)%N); [discriminate|].
    destruct (Json.scan_string s) as [[k r1]|] eqn:Ek; [|discriminate].
    apply scan_string_wf in Ek.
    destruct (Json.skip_ws r1) as [|c r2]; [discriminate|].
    destruct (negb (c =? 58)%N); [discriminate|].
    destruct (Json.parse_value f (Json.skip_ws r2)) as [[v r3]|] eqn:Ev;
      [|discriminate].
    destruct (Json.skip_ws r3) as [|c' r4]; [discriminate|].
    destruct (c' =? 125)%N.
    { intros [= <- _]. cbn [forallb map fst snd]. rewrite Ek.
      erewrite IHv by eauto. split; reflexivity. }
    destruct (c' =? 44)%N; [|discriminate].
    destruct (Json.parse_members f (Json.skip_ws r4)) as [[ps' r5]|] eqn:E;
      intros [= <- _].
    destruct (IHm _ _ _ E) as [Hk Hv].
    cbn [forallb map fst snd]. rewrite Ek, Hk, Hv.
    erewrite IHv by eauto. split; reflexivity.
Qed.

(** What [json.loads] returns is a value that reads back: distinct keys
    in every dict, strings without a surrogate pair, integers within the
    limit, floats that read back. *)
Lemma loads_wf s v : Json.loads s = Some v -> Json.wf v = true.
Proof.
  unfold Json.loads, Json.loads_text.
  destruct (Utf8.decode s) as [t|]; [|discriminate].
  destruct (Json.parse_value _ _) as [[v' r]|] eqn:E; [|discriminate].
  destruct (Json.skip_ws r); intros [= <-].
  eapply parse_wf, E.
Qed.

(** A decoded line, written again, decodes to the same value. *)
Lemma loads_stable s v :
  Json.loads s = Some v -> Json.loads (line_of v) = Some v.
Proof. intros Hs. eapply loads_line_of, loads_wf, Hs. Qed.

End DecodedValues.

(** Floats that print as they were written read back. *)
Lemma floats_as_written_laws : @PyFloatLaws Demo.floats_as_written.
Proof.
  constructor. intros s r rest Hs.
  apply (@scan_number_shape Demo.floats_as_written) in Hs
    as (t & Ht & -> & _).
  cbn [float_repr Demo.floats_as_written].
  unfold Json.wf_float.
  rewrite (@float_literal_text Demo.floats_as_written t Ht eq_refl).
  now rewrite !orb_true_r.
Qed.

(** * Keeping first occurrences *)

Section KeepsFacts.
Context {A : Type} (key : A -> exc string).
Implicit Types (s : gset string) (l K : list A).

Local Hint Constructors keeps : core.

Lemma keeps_app s l1 K1 s1 l2 K2 s2 :
  keeps key s l1 K1 s1 -> keeps key s1 l2 K2 s2 ->
  keeps key s (l1 ++ l2) (K1 ++ K2) s2.
Proof. induction 1; intros; simpl; eauto. Qed.

Lemma keeps_grows s l K s' : keeps key s l K s' -> s ⊆ s'.
Proof. induction 1; set_solver. Qed.

(** A pass over what a pass kept keeps everything. *)
Lemma keeps_replay s l K s' : keeps key s l K s' -> keeps key s K K s'.
Proof. induction 1; eauto. Qed.

Lemma keeps_fun s l K1 s1 K2 s2 :
  keeps key s l K1 s1 -> keeps key s l K2 s2 -> K1 = K2 /\ s1 = s2.
Proof.
  intros H1. revert K2 s2.
  induction H1 as [s | s x l K s' Hk _ IH | s x k l K s' Hk Hne Hnin _ IH
                   | s x k l K s' Hk Hne Hin _ IH];
    intros K2 s2 H2; inversion H2; subst;
    try (match goal with
         | H1 : key ?x = Ok ?a, H2 : key ?x = Ok ?b |- _ =>
             rewrite H1 in H2; injection H2 as ?; subst
         end);
    try congruence; try contradiction.
  - now split.
  - destruct (IH _ _ ltac:(eassumption)) as [-> ->]. now split.
  - destruct (IH _ _ ltac:(eassumption)) as [-> ->]. now split.
  - now apply IH.
Qed.

Lemma keeps_sublist s l K s' : keeps key s l K s' -> K `sublist_of` l.
Proof. induction 1; try constructor; auto. Qed.

(** Every record without a key is kept. *)
Lemma keeps_nokeys s l K s' :
  keeps key s l K s' ->
  List.filter (has_no_key key) K = List.filter (has_no_key key) l.
Proof.
  induction 1 as [s | s x l K s' Hk _ IH | s x k l K s' Hk Hne Hnin _ IH
                  | s x k l K s' Hk Hne Hin _ IH]; simpl;
    unfold has_no_key in *; rewrite ?Hk; simpl; try congruence.
  - destruct (String.eqb_spec k ""); [congruence | exact IH].
  - destruct (String.eqb_spec k ""); [congruence | exact IH].
Qed.

Lemma keys_of_cons_nokey x l :
  key x = Ok "" -> keys_of key (x :: l) = keys_of key l.
Proof. intros H. unfold keys_of. simpl. now rewrite H. Qed.

Lemma keys_of_cons_key x k l :
  key x = Ok k -> k <> "" -> keys_of key (x :: l) = k :: keys_of key l.
Proof.
  intros H Hne. unfold keys_of. simpl. rewrite H.
  destruct (String.eqb_spec k ""); [congruence | reflexivity].
Qed.

Lemma elem_of_keys_of k l :
  k ∈ keys_of key l <-> k <> "" /\ exists x, x ∈ l /\ key x = Ok k.
Proof.
  unfold keys_of. rewrite list_elem_of_omap. split.
  - intros (x & Hx & E). destruct (key x) as [k'|] eqn:Hk; [|discriminate].
    destruct (String.eqb_spec k' ""); [discriminate|].
    injection E as E. subst k'. eauto.
  - intros (Hne & x & Hx & Hk). exists x. split; [exact Hx|].
    rewrite Hk. destruct (String.eqb_spec k ""); [congruence | reflexivity].
Qed.

(** The keys seen at the end: those seen at the start and those of the
    records kept. *)
Lemma keeps_seen s l K s' :
  keeps key s l K s' ->
  forall k, k ∈ s' <-> k ∈ s \/ k ∈ keys_of key K.
Proof.
  induction 1 as [s | s x l K s' Hk _ IH | s x k l K s' Hk Hne Hnin _ IH
                  | s x k l K s' Hk Hne Hin _ IH]; intros k0.
  - unfold keys_of. simpl. set_solver.
  - rewrite keys_of_cons_nokey by exact Hk. apply IH.
  - rewrite (keys_of_cons_key x k) by assumption. rewrite IH. set_solver.
  - apply IH.
Qed.

(** No two kept records share a key, and none has a key seen before. *)
Lemma keeps_nodup s l K s' :
  keeps key s l K s' ->
  NoDup (keys_of key K) /\ forall k, k ∈ keys_of key K -> k ∉ s.
Proof.
  induction 1 as [s | s x l K s' Hk _ IH | s x k l K s' Hk Hne Hnin _ IH
                  | s x k l K s' Hk Hne Hin _ IH].
  - split; [constructor | unfold keys_of; simpl; set_solver].
  - rewrite keys_of_cons_nokey by exact Hk. exact IH.
  - rewrite (keys_of_cons_key x k) by assumption. destruct IH as [IH1 IH2]. split.
    + constructor; [|exact IH1]. intros Hin. apply (IH2 _ Hin). set_solver.
    + intros k0 Hk0. apply elem_of_cons in Hk0 as [->|Hk0]; [exact Hnin|].
      specialize (IH2 _ Hk0). set_solver.
  - exact IH.
Qed.

(** The first record of a key not seen before is kept. *)
Lemma keeps_first s l K s' :
  keeps key s l K s' ->
  forall l1 x l2 k,
    l = l1 ++ x :: l2 -> key x = Ok k -> k <> "" -> k ∉ s ->
    (forall y, y ∈ l1 -> key y <> Ok k) ->
    x ∈ K.
Proof.
  induction 1 as [s | s x l K s' Hk _ IH | s x k l K s' Hk Hne Hnin _ IH
                  | s x k l K s' Hk Hne Hin _ IH];
    intros l1 x0 l2 k0 El Hk0 Hne0 Hnin0 Hfirst.
  - destruct l1; discriminate.
  - destruct l1 as [|y l1]; injection El as -> ->; [left|].
    right. eapply IH; eauto. intros z Hz. apply Hfirst. now right.
  - destruct l1 as [|y l1]; injection El as -> ->; [left|].
    right. eapply IH; eauto.
    + assert (key y <> Ok k0) by (apply Hfirst; left).
      assert (k <> k0) by congruence. set_solver.
    + intros z Hz. apply Hfirst. now right.
  - destruct l1 as [|y l1]; injection El as -> ->.
    + rewrite Hk in Hk0. injection Hk0 as ->. contradiction.
    + eapply IH; eauto. intros z Hz. apply Hfirst. now right.
Qed.

(** Every record of the input has its key among the kept ones, or had
    it seen before the pass. *)
Lemma keeps_cover s l K s' :
  keeps key s l K s' ->
  forall x k, x ∈ l -> key x = Ok k -> k <> "" ->
    k ∈ s \/ k ∈ keys_of key K.
Proof.
  intros H x k Hx Hk Hne.
  apply (keeps_seen _ _ _ _ H).
  induction H as [s | s y l K s' Hy _ IH | s y k' l K s' Hy Hne' Hnin Hr IH
                  | s y k' l K s' Hy Hne' Hin Hr IH].
  - inversion Hx.
  - apply elem_of_cons in Hx as [->|Hx]; [congruence | auto].
  - apply elem_of_cons in Hx as [->|Hx]; [|auto].
    rewrite Hy in Hk. injection Hk as ->.
    apply (keeps_grows _ _ _ _ Hr). set_solver.
  - apply elem_of_cons in Hx as [->|Hx]; [|auto].
    rewrite Hy in Hk. injection Hk as ->.
    now apply (keeps_grows _ _ _ _ Hr).
Qed.

(** Every record of a pass that ends has a key. *)
Lemma keeps_keyed s l K s' :
  keeps key s l K s' -> Forall (fun x => exists k, key x = Ok k) K.
Proof. induction 1; eauto. Qed.

(** Records with pairwise distinct new keys are all kept. *)
Lemma keeps_distinct K :
  Forall (fun x => exists k, key x = Ok k) K ->
  forall s,
    NoDup (keys_of key K) -> (forall k, k ∈ keys_of key K -> k ∉ s) ->
    exists s', keeps key s K K s'.
Proof.
  induction 1 as [|x K [k Hk] _ IH]; intros s Hnd Hs; [eauto|].
  destruct (String.eqb_spec k "") as [->|Hne].
  - rewrite keys_of_cons_nokey in Hnd, Hs by exact Hk.
    destruct (IH s Hnd Hs) as [s' Hs']. eauto.
  - rewrite (keys_of_cons_key x k) in Hnd, Hs by assumption.
    apply NoDup_cons in Hnd as [Hnin Hnd].
    destruct (IH ({[k]} ∪ s) Hnd) as [s' Hs'].
    + intros k0 Hk0 Hin. apply elem_of_union in Hin as [Hin|Hin].
      * apply elem_of_singleton in Hin as ->. contradiction.
      * apply (Hs k0); [now right | exact Hin].
    + exists s'. eapply keeps_new; eauto. apply Hs. now left.
Qed.

End KeepsFacts.

(** * The de-duplication pass *)

Section DedupRun.
Context {Fl : PyFloat} {Laws : PyFloatLaws}.
Variable key : json -> exc string.

Lemma write_record_line out o :
  PyFile.write_record out o = out +:+ line_of o.
Proof. reflexivity. Qed.

Lemma render_snoc out o K :
  (out +:+ line_of o) +:+ render K = out +:+ render (o :: K).
Proof. simpl. now rewrite sapp_assoc. Qed.

Lemma nokey_cons_nokey x K :
  key x = Ok "" ->
  List.filter (has_no_key key) (x :: K)
  = x :: List.filter (has_no_key key) K.
Proof. intros H. cbn [List.filter]. unfold has_no_key at 1. now rewrite H. Qed.

Lemma nokey_cons_key x k K :
  key x = Ok k -> k <> "" ->
  List.filter (has_no_key key) (x :: K) = List.filter (has_no_key key) K.
Proof.
  intros H Hne. cbn [List.filter]. unfold has_no_key at 1. rewrite H.
  destruct (String.eqb_spec k ""); [congruence | reflexivity].
Qed.

(** What a pass over the lines computes. *)
Lemma omap_loads_cons line lines :
  omap Json.loads (line :: lines)
  = match Json.loads line with
    | Some o => o :: omap Json.loads lines
    | None => omap Json.loads lines
    end.
Proof. reflexivity. Qed.

Lemma dedup_run lines :
  forall st st',
    for_each (dedup_line key) lines st = Ok st' ->
    exists K,
      keeps key (dd_seen st) (omap Json.loads lines) K (dd_seen st')
      /\ dd_out st' = dd_out st +:+ render K
      /\ dd_total st' = dd_total st + Z.of_nat (length lines)
      /\ dd_kept st' = dd_kept st + Z.of_nat (length K)
      /\ dd_missing st'
         = dd_missing st
           + Z.of_nat (length (List.filter (has_no_key key) K)).
Proof.
  induction lines as [|line lines IH]; intros st st' Hrun.
  - injection Hrun as <-. exists []. simpl.
    rewrite sapp_nil_r. split_and!; [constructor | | lia | lia | lia].
    reflexivity.
  - cbn [for_each] in Hrun.
    destruct (dedup_line key line st) as [st1|] eqn:Hstep; [|discriminate].
    destruct (IH _ _ Hrun) as (K & HK & Hout & Htot & Hkept & Hmiss).
    destruct st as [seen out tot kp ms]. unfold dedup_line in Hstep.
    rewrite omap_loads_cons. cbn [length].
    cbn [dd_seen dd_out dd_total dd_kept dd_missing].
    destruct (Json.loads line) as [obj|] eqn:Hload.
    2:{ injection Hstep as <-. exists K.
        cbn [dd_seen dd_out dd_total dd_kept dd_missing] in *.
        split_and!; auto; lia. }
    destruct (key obj) as [k|] eqn:Hkey; [|discriminate].
    cbn [exc_bind] in Hstep.
    destruct (String.eqb_spec k "") as [->|Hne].
    { injection Hstep as <-. exists (obj :: K).
      cbn [dd_seen dd_out dd_total dd_kept dd_missing] in *.
      split_and!.
      - now apply keeps_nokey.
      - now rewrite Hout, write_record_line, render_snoc.
      - lia.
      - cbn [length]. lia.
      - rewrite nokey_cons_nokey by exact Hkey. cbn [length]. lia. }
    destruct (bool_decide_reflect (k ∈ seen)) as [Hin|Hnin].
    { injection Hstep as <-. exists K.
      cbn [dd_seen dd_out dd_total dd_kept dd_missing] in *.
      split_and!; auto; try lia. eapply keeps_dup; eauto. }
    injection Hstep as <-. exists (obj :: K).
    cbn [dd_seen dd_out dd_total dd_kept dd_missing] in *.
    split_and!.
    + eapply keeps_new; eauto.
    + now rewrite Hout, write_record_line, render_snoc.
    + lia.
    + cbn [length]. lia.
    + rewrite (nokey_cons_key obj k) by assumption. lia.
Qed.

(** A pass over the lines of records that decode back to themselves. *)
Lemma replay_run s l K s' :
  keeps key s l K s' ->
  Forall (fun o => Json.loads (line_of o) = Some o) l ->
  forall out t kp m,
    for_each (dedup_line key) (map line_of l) (DedupState s out t kp m)
    = Ok (DedupState s' (out +:+ render K)
            (t + Z.of_nat (length l)) (kp + Z.of_nat (length K))
            (m + Z.of_nat (length (List.filter (has_no_key key) K)))).
Proof.
  induction 1 as [s | s x l K s' Hk _ IH | s x k l K s' Hk Hne Hnin _ IH
                  | s x k l K s' Hk Hne Hin _ IH];
    intros Hl out t kp m.
  - simpl. rewrite sapp_nil_r. do 2 f_equal; lia.
  - apply Forall_cons in Hl as [Hx Hl].
    cbn [map for_each]. unfold dedup_line at 1. rewrite Hx, Hk. cbn [exc_bind].
    cbn [String.eqb].
    rewrite IH by exact Hl. rewrite write_record_line, sapp_assoc.
    rewrite nokey_cons_nokey by exact Hk. cbn [length render].
    do 2 f_equal; lia.
  - apply Forall_cons in Hl as [Hx Hl].
    cbn [map for_each]. unfold dedup_line at 1. rewrite Hx, Hk. cbn [exc_bind].
    destruct (String.eqb_spec k ""); [congruence|].
    rewrite bool_decide_eq_false_2 by exact Hnin.
    rewrite IH by exact Hl. rewrite write_record_line, sapp_assoc.
    rewrite (nokey_cons_key x k) by assumption. cbn [length render].
    do 2 f_equal; lia.
  - apply Forall_cons in Hl as [Hx Hl].
    cbn [map for_each]. unfold dedup_line at 1. rewrite Hx, Hk. cbn [exc_bind].
    destruct (String.eqb_spec k ""); [congruence|].
    rewrite bool_decide_eq_true_2 by exact Hin.
    rewrite IH by exact Hl. cbn [length]. do 2 f_equal; lia.
Qed.

Lemma parsed_stable content :
  Forall (fun o => Json.loads (line_of o) = Some o) (parsed content).
Proof.
  unfold parsed. apply Forall_forall. intros o Ho.
  apply list_elem_of_omap in Ho as (line & _ & Hload).
  eapply loads_stable, Hload.
Qed.

Lemma stable_wf K :
  Forall (fun o => Json.loads (line_of o) = Some o) K ->
  Forall (fun o => Json.wf o = true) K.
Proof.
  intros HK. eapply Forall_impl; [exact HK|].
  intros o Ho. eapply loads_wf, Ho.
Qed.

Lemma parsed_render K :
  Forall (fun o => Json.loads (line_of o) = Some o) K ->
  parsed (render K) = K.
Proof.
  intros HK. unfold parsed. rewrite lines_render by now apply stable_wf.
  induction HK as [|o K Ho _ IH]; [reflexivity|].
  cbn. rewrite Ho. cbn. now f_equal.
Qed.

(** What [dedup_file] returns, in terms of the records it keeps. *)
Lemma dedup_file_spec content out st :
  dedup_file key content = Ok (out, st) ->
  exists K s',
    keeps key ∅ (parsed content) K s'
    /\ out = render K
    /\ total st = Z.of_nat (length (PyFile.lines content))
    /\ kept st = Z.of_nat (length K)
    /\ duplicates st = total st - kept st
    /\ missing st = Z.of_nat (length (List.filter (has_no_key key) K)).
Proof.
  unfold dedup_file.
  destruct (for_each _ _ _) as [st'|] eqn:Hrun; [|discriminate].
  intros [= <- <-].
  destruct (dedup_run _ _ _ Hrun) as (K & HK & Hout & Htot & Hkept & Hmiss).
  exists K, (dd_seen st'). cbn in *.
  split_and!; auto; lia.
Qed.

(** Running the pass on its own output changes nothing. *)
Lemma dedup_file_idempotent content out st :
  dedup_file key content = Ok (out, st) ->
  dedup_file key out = Ok (out, DedupStats (kept st) (kept st) 0 (missing st)).
Proof.
  intros H.
  destruct (dedup_file_spec _ _ _ H) as (K & s' & HK & -> & _ & Hk & _ & Hm).
  assert (HKs : Forall (fun o => Json.loads (line_of o) = Some o) K).
  { pose proof (parsed_stable content) as Hp.
    rewrite Forall_forall in Hp |- *. intros o Ho. apply Hp.
    eapply elem_of_sublist; [exact Ho | eapply keeps_sublist, HK]. }
  unfold dedup_file. rewrite lines_render by now apply stable_wf.
  unfold dedup_init.
  rewrite (replay_run _ _ _ _ (keeps_replay _ _ _ _ _ HK) HKs).
  unfold dedup_result. cbn. rewrite Hk, Hm. do 2 f_equal.
  f_equal; lia.
Qed.

End DedupRun.

Section DedupRerun.
Context {Fl : PyFloat} {Laws : PyFloatLaws}.
Variables key key2 : json -> exc string.

(** Running the pass again with another key function, under which the
    records written have pairwise distinct keys, changes nothing
    either. *)
Lemma dedup_file_rerun content out st :
  dedup_file key content = Ok (out, st) ->
  (forall o k, key o = Ok k -> exists k', key2 o = Ok k') ->
  NoDup (keys_of key2 (parsed out)) ->
  dedup_file key2 out
  = Ok (out,
        DedupStats (kept st) (kept st) 0
          (Z.of_nat (length (List.filter (has_no_key key2) (parsed out))))).
Proof.
  intros Hrun Hdef Hnd.
  destruct (dedup_file_spec _ _ _ _ Hrun) as (K & s' & HK & -> & _ & Hk & _).
  assert (HKs : Forall (fun o => Json.loads (line_of o) = Some o) K).
  { pose proof (parsed_stable content) as Hp.
    rewrite Forall_forall in Hp |- *. intros o Ho. apply Hp.
    eapply elem_of_sublist; [exact Ho | eapply keeps_sublist, HK]. }
  rewrite parsed_render in Hnd |- * by exact HKs.
  destruct (keeps_distinct key2 K) with (s := (∅ : gset string))
    as [s2 H2]; [| exact Hnd | set_solver |].
  { eapply Forall_impl; [eapply keeps_keyed, HK|].
    intros o [k Ho]. eapply Hdef, Ho. }
  unfold dedup_file. rewrite lines_render by now apply stable_wf.
  unfold dedup_init.
  rewrite (replay_run key2 _ _ _ _ H2 HKs).
  unfold dedup_result. cbn. rewrite Hk. do 2 f_equal.
  f_equal; lia.
Qed.

End DedupRerun.

(** * The filter pass *)

Section FilterRun.
Context {Fl : PyFloat} `{PyRuntime}.

Lemma filter_run groups scope lines :
  forall st st',
    for_each (Crossref.filter_line groups scope) lines st = Ok st' ->
    exists K,
      K `sublist_of` omap Json.loads lines
      /\ fl_out st' = fl_out st +:+ render K
      /\ fl_kept st' = fl_kept st + Z.of_nat (length K)
      /\ fl_total st'
         = fl_total st + Z.of_nat (length (omap Json.loads lines)).
Proof.
  induction lines as [|line lines IH]; intros st st' Hrun.
  - injection Hrun as <-. exists []. simpl. rewrite sapp_nil_r.
    split_and!; [constructor | reflexivity | lia | lia].
  - cbn [for_each] in Hrun.
    destruct (Crossref.filter_line groups scope line st) as [st1|] eqn:Hstep;
      [|discriminate].
    destruct (IH _ _ Hrun) as (K & HK & Hout & Hkept & Htot).
    destruct st as [seen out tot kp]. unfold Crossref.filter_line in Hstep.
    rewrite omap_loads_cons.
    cbn [fl_seen fl_out fl_total fl_kept].
    destruct (Json.loads line) as [obj|] eqn:Hload.
    2:{ injection Hstep as <-. exists K.
        cbn [fl_seen fl_out fl_total fl_kept] in *. auto. }
    assert (Hskip : forall seen',
              st1 = FilterState seen' out (tot + 1) kp ->
              exists K0, K0 `sublist_of` obj :: omap Json.loads lines
                /\ fl_out st' = out +:+ render K0
                /\ fl_kept st' = kp + Z.of_nat (length K0)
                /\ fl_total st'
                   = tot + Z.of_nat (length (obj :: omap Json.loads lines))).
    { intros seen' ->. exists K.
      cbn [fl_seen fl_out fl_total fl_kept length] in *.
      split_and!; [now constructor | auto | auto | lia]. }
    assert (Hkeep : forall seen',
              st1 = FilterState seen' (PyFile.write_record out obj)
                      (tot + 1) (kp + 1) ->
              exists K0, K0 `sublist_of` obj :: omap Json.loads lines
                /\ fl_out st' = out +:+ render K0
                /\ fl_kept st' = kp + Z.of_nat (length K0)
                /\ fl_total st'
                   = tot + Z.of_nat (length (obj :: omap Json.loads lines))).
    { intros seen' ->. exists (obj :: K).
      cbn [fl_seen fl_out fl_total fl_kept length] in *.
      split_and!; [now constructor | | lia | lia].
      now rewrite Hout, write_record_line, render_snoc. }
    destruct obj as [| b | n | r | s | l | entry]; try discriminate.
    destruct (Crossref._matches_entry_groups entry groups scope).
    2:{ injection Hstep as <-. eapply Hskip; reflexivity. }
    destruct (Crossref.doi_of (JObj entry)) as [doi|]; [|discriminate].
    cbn [exc_bind] in Hstep.
    destruct (negb (String.eqb doi "") && bool_decide (doi ∈ seen)).
    { injection Hstep as <-. eapply Hskip; reflexivity. }
    injection Hstep as <-. eapply Hkeep; reflexivity.
Qed.

Lemma regex_filter_spec content cfg out st :
  Crossref.regex_filter_crossref_jsonl content cfg = Ok (out, st) ->
  exists K,
    K `sublist_of` parsed content
    /\ out = render K
    /\ f_kept st = Z.of_nat (length K)
    /\ f_total st = Z.of_nat (length (parsed content)).
Proof.
  unfold Crossref.regex_filter_crossref_jsonl.
  destruct (_normalize_regex_cfg cfg) as [[groups scope]|]; [|discriminate].
  cbn [exc_bind].
  destruct (for_each _ _ _) as [st'|] eqn:Hrun; [|discriminate].
  intros [= <- <-].
  destruct (filter_run _ _ _ _ _ Hrun) as (K & HK & Hout & Hkept & Htot).
  exists K. cbn in *. split_and!; auto.
Qed.

End FilterRun.

(** * Identity keys *)

Section Keys.
Context `{PyRuntime}.

(** The Europe PMC key always has its prefix: it is never empty. *)
Lemma eupmc_key_nonempty o k :
  EuropePMC._dedup_key_eupmc o = Ok k -> k <> "".
Proof.
  unfold EuropePMC._dedup_key_eupmc.
  repeat match goal with
         | |- context [match ?x with _ => _ end] => destruct x
         end; intros [= <-]; discriminate.
Qed.

Lemma eupmc_no_missing K :
  List.filter (has_no_key EuropePMC._dedup_key_eupmc) K = [].
Proof.
  induction K as [|o K IH]; [reflexivity|].
  cbn [List.filter]. unfold has_no_key at 1.
  destruct (EuropePMC._dedup_key_eupmc o) as [k|] eqn:E; [|exact IH].
  apply eupmc_key_nonempty in E.
  destruct (String.eqb_spec k ""); [contradiction | exact IH].
Qed.

(** Lowering the case of a DOI does not change the Crossref key. *)
Lemma truthy_JStr x : Json.truthy (JStr x) = negb (String.eqb x "").
Proof. reflexivity. Qed.

Lemma doi_of_case_blind s d :
  Crossref.doi_of (JObj (("DOI", JStr (PyStr.lower s)) :: d))
  = Crossref.doi_of (JObj (("DOI", JStr s) :: d)).
Proof.
  assert (E : PyStr.lower (PyStr.strip (PyStr.lower s))
              = PyStr.lower (PyStr.strip s))
    by now rewrite lower_strip, lower_idem, <- lower_strip.
  unfold Crossref.doi_of, Json.get, Json.or_. cbn [PyDict.lookup].
  change (String.eqb "DOI" "DOI") with true. cbv iota.
  rewrite !truthy_JStr, lower_empty.
  destruct (String.eqb s ""); cbn [negb]; cbv iota; [reflexivity|].
  rewrite !truthy_JStr, lower_empty.
  destruct (String.eqb s ""); cbn [negb]; cbv iota; [reflexivity|].
  now rewrite E.
Qed.

End Keys.

(** Whether the Europe PMC key is defined does not depend on [hash]. *)
Lemma eupmc_key_defined (R1 R2 : PyRuntime) o k :
  @EuropePMC._dedup_key_eupmc R1 o = Ok k ->
  exists k', @EuropePMC._dedup_key_eupmc R2 o = Ok k'.
Proof.
  unfold EuropePMC._dedup_key_eupmc.
  repeat match goal with
         | |- context [match ?x with _ => _ end] => destruct x
         end; intros [= <-]; eauto.
Qed.

(** * The relevance filter *)

Section Matching.
Context {Fl : PyFloat} `{PyRuntime}.
Implicit Types (groups : list (string * list pattern)).

Lemma every_group_matches_spec text vals :
  every_group_matches text vals = true
  <-> Forall (fun pats => Exists (fun rx => re_search rx text = true) pats)
        vals.
Proof.
  induction vals as [|pats vals IH]; simpl.
  - split; [constructor | reflexivity].
  - destruct (existsb (fun rx => re_search rx text) pats) eqn:E; simpl.
    + rewrite IH. split.
      * intros Hv. constructor; [|exact Hv].
        apply existsb_exists in E as (rx & Hin & Hrx).
        apply Exists_exists. exists rx. split; [|exact Hrx].
        now apply list_elem_of_In.
      * intros Hv. now apply Forall_cons in Hv as [_ Hv].
    + split; [discriminate|]. intros Hv.
      apply Forall_cons in Hv as [Hp _].
      apply Exists_exists in Hp as (rx & Hin & Hrx).
      assert (existsb (fun rx => re_search rx text) pats = true) as E'.
      { apply existsb_exists. exists rx. split; [|exact Hrx].
        now apply list_elem_of_In. }
      congruence.
Qed.

Lemma text_matches_spec text groups :
  _text_matches_groups (JStr text) groups = true <-> satisfies text groups.
Proof.
  unfold _text_matches_groups, satisfies.
  destruct groups as [|g groups].
  { split; [discriminate | intros [Hne _]; congruence]. }
  rewrite truthy_JStr, negb_involutive.
  destruct (String.eqb_spec text "") as [->|Hne]; cbn [negb].
  { split; [discriminate | intros (_ & Hne & _); congruence]. }
  rewrite every_group_matches_spec. unfold PyDict.values.
  rewrite Forall_map. split.
  - intros Hall. split_and!; [discriminate | exact Hne | exact Hall].
  - intros (_ & _ & Hall). exact Hall.
Qed.

Lemma text_matches_no_groups text : _text_matches_groups text [] = false.
Proof. reflexivity. Qed.

Lemma matches_fields_no_groups title abstract scope :
  matches_fields title abstract [] scope = false.
Proof.
  unfold matches_fields.
  destruct (String.eqb scope "title"); [reflexivity|].
  destruct (String.eqb scope "abstract"); [reflexivity|].
  destruct (String.eqb scope "field"); reflexivity.
Qed.

(** Any scope but the three named ones is read as [combined]. *)
Lemma matches_fields_other title abstract groups scope :
  scope <> "title" -> scope <> "abstract" -> scope <> "field" ->
  matches_fields title abstract groups scope
  = _text_matches_groups (JStr (combined_text title abstract)) groups.
Proof.
  intros H1 H2 H3. unfold matches_fields.
  destruct (String.eqb_spec scope "title"); [contradiction|].
  destruct (String.eqb_spec scope "abstract"); [contradiction|].
  destruct (String.eqb_spec scope "field"); [contradiction|].
  reflexivity.
Qed.

Lemma combined_text_cases title abstract :
  combined_text title abstract
  = if String.eqb title "" then abstract
    else if String.eqb abstract "" then title
    else title +:+ " " +:+ abstract.
Proof.
  unfold combined_text.
  destruct (String.eqb_spec title "") as [->|Ht];
    destruct (String.eqb_spec abstract "") as [->|Ha].
  - reflexivity.
  - cbn [filter list_filter]. rewrite decide_False by congruence.
    rewrite decide_True by exact Ha. reflexivity.
  - cbn [filter list_filter]. rewrite decide_True by exact Ht.
    rewrite decide_False by congruence. reflexivity.
  - cbn [filter list_filter]. rewrite decide_True by exact Ht.
    rewrite decide_True by exact Ha. reflexivity.
Qed.

(** *** Configurations without a usable group *)



Lemma filter_none scope lines :
  Forall (fun o => is_object o = true) (omap Json.loads lines) ->
  forall seen out t k,
    for_each (Crossref.filter_line [] scope) lines
      (FilterState seen out t k)
    = Ok (FilterState seen out
            (t + Z.of_nat (length (omap Json.loads lines))) k).
Proof.
  induction lines as [|line lines IH]; intros Hall seen out t k.
  - simpl. do 2 f_equal. lia.
  - rewrite omap_loads_cons in Hall |- *.
    cbn [for_each]. unfold Crossref.filter_line at 1.
    destruct (Json.loads line) as [obj|]; [|now apply IH].
    apply Forall_cons in Hall as [Hobj Hall].
    destruct obj; try discriminate.
    unfold Crossref._matches_entry_groups.
    rewrite matches_fields_no_groups.
    rewrite IH by exact Hall. cbn [length]. do 2 f_equal. lia.
Qed.


End Matching.

(** * The pagination loop *)

Section PaginateFacts.
Context {St : Type}.
Variable emit : event -> St -> St.
Variable handle : json -> St -> exc (St * option json).
Variable query : string.



Lemma paginate_invariant (I : St -> Prop) :
  (forall c st, I st -> I (emit (EvRequest query c) st)) ->
  (forall p st, I st -> I (emit (EvSleep p) st)) ->
  (forall data st st' oc, I st -> handle data st = Ok (st', oc) -> I st') ->
  forall rs c st st' rest,
    I st -> paginate emit handle query c rs st = Returned st' rest -> I st'.
Proof.
  intros Hreq Hsleep Hpage.
  induction rs as [|r rs IH]; intros c st st' rest Hst; [discriminate|].
  cbn [paginate]. destruct r as [| |data].
  - apply IH; auto.
  - apply IH; auto.
  - destruct (handle data _) as [[st1 [nc|]]|] eqn:E; [ | |discriminate].
    + apply IH. eapply Hsleep, Hpage; [|exact E]. auto.
    + intros [= <- _]. eapply Hpage; [|exact E]. auto.
Qed.

End PaginateFacts.

Section ForEach.
Context {A S : Type} (body : A -> S -> exc S).

Lemma for_each_invariant (I : S -> Prop) :
  (forall x s s', I s -> body x s = Ok s' -> I s') ->
  forall l s s', I s -> for_each body l s = Ok s' -> I s'.
Proof.
  intros Hbody. induction l as [|x l IH]; intros s s' Hs.
  - now intros [= <-].
  - cbn [for_each]. destruct (body x s) as [s1|] eqn:E; [|discriminate].
    apply IH. eapply Hbody; eauto.
Qed.
End ForEach.

Section CrossrefPages.




End CrossrefPages.

Section EuropePMCPages.
Context `{PyRuntime} {S : Type} (body : json -> S -> exc S).



End EuropePMCPages.

(** * One seen-set for all the queries of a keyword harvest *)

Section Traces.

Lemma records_of_app l1 l2 :
  records_of (l1 ++ l2) = records_of l1 ++ records_of l2.
Proof. apply omap_app. Qed.

Lemma render_app A B : render (A ++ B) = render A +:+ render B.
Proof.
  induction A as [|o A IH]; [reflexivity|].
  cbn [app render]. now rewrite IH, sapp_assoc.
Qed.

Lemma get_set_other d k v k' :
  k <> k' -> Json.get (PyDict.set d k v) k' = Json.get d k'.
Proof. intros Hne. unfold Json.get. now rewrite lookup_set_ne. Qed.

Lemma get_set_same d k v : Json.get (PyDict.set d k v) k = v.
Proof. unfold Json.get. now rewrite lookup_set_eq. Qed.

Lemma doi_of_tagged d q :
  Crossref.doi_of (JObj (PyDict.set d "source_query" (JStr q)))
  = Crossref.doi_of (JObj d).
Proof.
  unfold Crossref.doi_of. now rewrite !get_set_other by discriminate.
Qed.

Lemma set_item_tagged q e e' :
  set_item e "source_query" (JStr q) = Ok e' ->
  is_object e = true /\ e' = tagged (q, e).
Proof. destruct e; try discriminate. intros [= <-]. now split. Qed.

End Traces.

Section CrossrefHarvest.

Lemma crossref_inv_init : crossref_inv (Harvest ∅ "" []).
Proof. exists []. split_and!; [constructor | reflexivity | constructor]. Qed.

Lemma crossref_inv_event ev st :
  (forall q x, ev <> EvRecord q x) ->
  crossref_inv st -> crossref_inv (log_event ev st).
Proof.
  intros Hev (W & HW & Hfile & Hobj). exists W. split_and!; auto.
  unfold log_event. cbn [h_log h_seen]. rewrite records_of_app.
  destruct ev; try (now rewrite app_nil_r). now specialize (Hev query item).
Qed.

Lemma crossref_inv_entry q e st st' :
  crossref_inv st ->
  Crossref.write_entry q true e st = Ok st' ->
  crossref_inv st'.
Proof.
  intros (W & HW & Hfile & Hobj). unfold Crossref.write_entry.
  destruct (set_item e _ _) as [e'|] eqn:Eset; [|discriminate].
  apply set_item_tagged in Eset as [He ->]. cbn [exc_bind].
  destruct (Crossref.doi_of (tagged (q, e))) as [doi|] eqn:Edoi;
    [|discriminate].
  cbn [exc_bind].
  assert (Hkey : crossref_arrival_key (q, e) = Ok doi).
  { destruct e; try discriminate. unfold crossref_arrival_key. cbn [snd].
    unfold tagged in Edoi. cbn [snd fst] in Edoi.
    now rewrite doi_of_tagged in Edoi. }
  unfold log_event. cbn [h_seen h_file h_log andb].
  destruct (String.eqb_spec doi "") as [->|Hne]; cbn [negb].
  - intros [= <-]. exists (W ++ [(q, e)]). cbn [h_seen h_file h_log].
    rewrite records_of_app. split_and!.
    + eapply keeps_app; [exact HW|]. apply keeps_nokey; [exact Hkey|].
      constructor.
    + rewrite map_app, render_app, <- Hfile. cbn [map render].
      now rewrite sapp_nil_r.
    + apply Forall_app. split; [exact Hobj | now repeat constructor].
  - destruct (bool_decide_reflect (doi ∈ h_seen st)) as [Hin|Hnin].
    + intros [= <-]. exists W. cbn [h_seen h_file h_log].
      rewrite records_of_app. split_and!; auto.
      rewrite <- (app_nil_r W). eapply keeps_app; [exact HW|].
      eapply keeps_dup; eauto. constructor.
    + intros [= <-]. exists (W ++ [(q, e)]). cbn [h_seen h_file h_log].
      rewrite records_of_app. split_and!.
      * eapply keeps_app; [exact HW|]. eapply keeps_new; eauto.
        constructor.
      * rewrite map_app, render_app, <- Hfile. cbn [map render].
        now rewrite sapp_nil_r.
      * apply Forall_app. split; [exact Hobj | now repeat constructor].
Qed.

Lemma crossref_inv_page q rows data st st' oc :
  crossref_inv st ->
  Crossref.handle_page q rows true data st = Ok (st', oc) ->
  crossref_inv st'.
Proof.
  intros Hst. unfold Crossref.handle_page.
  destruct (Crossref.message_field data "items" _) as [batch|];
    [|discriminate].
  cbn [exc_bind].
  destruct (iter_items batch) as [entries|]; [|discriminate].
  cbn [exc_bind].
  destruct (for_each _ entries st) as [st1|] eqn:Erun; [|discriminate].
  cbn [exc_bind].
  assert (crossref_inv st1) as H1.
  { eapply for_each_invariant; [|exact Hst|exact Erun].
    intros x s s' Hs Hx. eapply crossref_inv_entry; eauto. }
  destruct (_ || _); [now intros [= <- _]|].
  destruct (Crossref.message_field data "next-cursor" _) as [nc|];
    [|discriminate].
  cbn [exc_bind].
  destruct (negb _); now intros [= <- _].
Qed.

Lemma crossref_inv_queries queries rows :
  forall rs st st' rest,
    crossref_inv st ->
    Crossref.query_loop queries rows true rs st = Returned st' rest ->
    crossref_inv st'.
Proof.
  induction queries as [|q qs IH]; intros rs st st' rest Hst.
  - now intros [= <- _].
  - cbn [Crossref.query_loop].
    destruct (Crossref.cursor_loop q rows true (JStr "*") rs st)
      as [st1 rs1| |] eqn:E; try discriminate.
    apply IH. unfold Crossref.cursor_loop in E.
    eapply (paginate_invariant _ _ _ crossref_inv); [| | |exact Hst|exact E].
    + intros c s Hs. apply crossref_inv_event; [discriminate | exact Hs].
    + intros p s Hs. apply crossref_inv_event; [discriminate | exact Hs].
    + intros d s s' oc Hs Hp. eapply crossref_inv_page; eauto.
Qed.

End CrossrefHarvest.

Section EuropePMCHarvest.
Context `{PyRuntime}.
Variable extra_and : option string.

Lemma eupmc_key_tagged d q :
  EuropePMC._dedup_key_eupmc (JObj (PyDict.set d "source_query" (JStr q)))
  = EuropePMC._dedup_key_eupmc (JObj d).
Proof.
  unfold EuropePMC._dedup_key_eupmc.
  now rewrite !get_set_other by discriminate.
Qed.

Lemma eupmc_inv_init : eupmc_inv extra_and ((∅, ""), []).
Proof. exists []. split_and!; [constructor | reflexivity | constructor]. Qed.

Lemma eupmc_inv_event ev sl :
  (forall q x, ev <> EvRecord q x) ->
  eupmc_inv extra_and sl -> eupmc_inv extra_and (EuropePMC.emit ev sl).
Proof.
  intros Hev (W & HW & Hfile & Hobj). exists W. split_and!; auto.
  unfold EuropePMC.emit. cbn [fst snd]. rewrite records_of_app.
  destruct ev; try (now rewrite app_nil_r). now specialize (Hev query item).
Qed.

Lemma eupmc_inv_item q item sl sl' :
  eupmc_inv extra_and sl ->
  EuropePMC.yield_item (EuropePMC.write_item q true)
    (EuropePMC.effective_query extra_and q) item sl = Ok sl' ->
  eupmc_inv extra_and sl'.
Proof.
  intros (W & HW & Hfile & Hobj).
  unfold EuropePMC.yield_item, EuropePMC.write_item.
  destruct (set_item item _ _) as [e'|] eqn:Eset; [|discriminate].
  apply set_item_tagged in Eset as [He ->]. cbn [exc_bind].
  destruct (EuropePMC._dedup_key_eupmc (tagged (q, item))) as [k|] eqn:Ek;
    [|discriminate].
  cbn [exc_bind].
  assert (Hkey : eupmc_arrival_key
                   (EuropePMC.effective_query extra_and q, item) = Ok k).
  { destruct item; try discriminate. unfold eupmc_arrival_key. cbn [snd].
    unfold tagged in Ek. cbn [snd fst] in Ek.
    now rewrite eupmc_key_tagged in Ek. }
  assert (Hne : k <> "") by (eapply eupmc_key_nonempty, Ek).
  cbn [andb].
  destruct (bool_decide_reflect (k ∈ fst (fst sl))) as [Hin|Hnin].
  - cbn [exc_bind]. intros [= <-]. exists W. cbn [fst snd].
    rewrite records_of_app. split_and!; auto.
    rewrite <- (app_nil_r (map _ W)). eapply keeps_app; [exact HW|].
    eapply keeps_dup; eauto. constructor.
  - cbn [exc_bind]. intros [= <-]. exists (W ++ [(q, item)]). cbn [fst snd].
    rewrite records_of_app. split_and!.
    + rewrite map_app. eapply keeps_app; [exact HW|].
      eapply keeps_new; eauto. constructor.
    + rewrite map_app, render_app, <- Hfile. cbn [map render].
      now rewrite sapp_nil_r.
    + apply Forall_app. split; [exact Hobj | now repeat constructor].
Qed.

Lemma eupmc_inv_page q page_size data sl sl' oc :
  eupmc_inv extra_and sl ->
  EuropePMC.handle_page (EuropePMC.write_item q true)
    (EuropePMC.effective_query extra_and q) page_size data sl
  = Ok (sl', oc) ->
  eupmc_inv extra_and sl'.
Proof.
  intros Hsl. unfold EuropePMC.handle_page.
  destruct (EuropePMC.page_results data) as [results|]; [|discriminate].
  cbn [exc_bind].
  destruct (iter_items results) as [items|]; [|discriminate].
  cbn [exc_bind].
  destruct (for_each _ items sl) as [sl1|] eqn:Erun; [|discriminate].
  cbn [exc_bind].
  assert (eupmc_inv extra_and sl1) as H1.
  { eapply for_each_invariant; [|exact Hsl|exact Erun].
    intros x s s' Hs Hx. eapply eupmc_inv_item; eauto. }
  destruct (_ || _); now intros [= <- _].
Qed.

Lemma eupmc_inv_queries queries page_size :
  forall rs sl sl' rest,
    eupmc_inv extra_and sl ->
    EuropePMC.keywords_loop queries page_size true extra_and rs sl
    = Returned sl' rest ->
    eupmc_inv extra_and sl'.
Proof.
  induction queries as [|q qs IH]; intros rs sl sl' rest Hsl.
  - now intros [= <- _].
  - cbn [EuropePMC.keywords_loop].
    destruct (EuropePMC.eupmc_iter_results _ _ _ rs sl)
      as [sl1 rs1| |] eqn:E; try discriminate.
    apply IH. unfold EuropePMC.eupmc_iter_results, EuropePMC.iter_from in E.
    eapply (paginate_invariant _ _ _ (eupmc_inv extra_and)); [| | |exact Hsl|exact E].
    + intros c s Hs.
      apply eupmc_inv_event; [discriminate | exact Hs].
    + intros p s Hs.
      apply eupmc_inv_event; [discriminate | exact Hs].
    + intros d s s' oc Hs Hp. eapply eupmc_inv_page; eauto.
Qed.

End EuropePMCHarvest.

(** * The properties of the specification *)

Section Claims.
Context {Fl : PyFloat} {Laws : PyFloatLaws} {R : PyRuntime}.

(** C1. Batch de-duplication is idempotent, for both clients: when
    [_deduplicate_jsonl_file] returns on a file, running it again on its
    output returns the same output, byte for byte; the second run reads
    and keeps as many lines as the first kept and drops none.  The floats
    of the records are read back from what [repr] wrote of them.  The
    same holds of a second run in another process, whose [hash] is another
    function, when that function gives the records written pairwise
    distinct keys. *)
Theorem dedup_idempotent (c : source) (F out : string) (st : dedup_stats) :
  deduplicate c F = Ok (out, st) ->
  deduplicate c out = Ok (out, DedupStats (kept st) (kept st) 0 (missing st))
  /\ forall R2 : PyRuntime,
       NoDup (keys_of (@EuropePMC._dedup_key_eupmc R2) (parsed out)) ->
       @deduplicate Fl R2 c out
       = Ok (out, DedupStats (kept st) (kept st) 0 (missing st)).
Proof.
  intros Hrun. split;
    [destruct c; eapply dedup_file_idempotent; exact Hrun|].
  intros R2 Hnd. destruct c; cbn [deduplicate] in *.
  - eapply dedup_file_idempotent; exact Hrun.
  - unfold EuropePMC._deduplicate_jsonl_file in *.
    erewrite dedup_file_rerun;
      [| exact Hrun | apply (eupmc_key_defined R R2) | exact Hnd].
    destruct (dedup_file_spec _ _ _ _ Hrun) as (K & s' & _ & _ & _ & _ & _ & Hm).
    rewrite Hm, !eupmc_no_missing. reflexivity.
Qed.

Lemma eupmc_title_key d :
  Json.truthy (Json.get d "doi") = false ->
  Json.truthy (Json.get d "DOI") = false ->
  Json.truthy (Json.get d "id") = false ->
  EuropePMC._dedup_key_eupmc (JObj d)
  = Ok ("title:" +:+ PyStr.of_Z (py_hash (_text_to_str (Json.get d "title")))).
Proof.
  intros H1 H2 H3. unfold EuropePMC._dedup_key_eupmc, Json.or_.
  rewrite H1, H2, H3. reflexivity.
Qed.

(** C2, as amended.  Crossref: every record without a DOI is written, in
    order, and counted in [missing_doi]; none is merged with another.
    Europe PMC: no record lacks a key, since one with neither DOI nor id
    is keyed by the hash of its title; [missing_key] is 0, the records
    written have pairwise distinct keys, every key of the input is the key
    of a written record, and a record is written when none before it has
    its key. *)
Theorem missing_key_records (c : source) (F out : string)
  (st : dedup_stats) :
  deduplicate c F = Ok (out, st) ->
  exists K,
    out = render K /\ K `sublist_of` parsed F /\
    match c with
    | SrcCrossref =>
        List.filter (has_no_key Crossref.doi_of) K
        = List.filter (has_no_key Crossref.doi_of) (parsed F)
        /\ missing st
           = Z.of_nat
               (length (List.filter (has_no_key Crossref.doi_of) (parsed F)))
    | SrcEuropePMC =>
        (forall o k, EuropePMC._dedup_key_eupmc o = Ok k -> k <> "")
        /\ (forall d,
              Json.truthy (Json.get d "doi") = false ->
              Json.truthy (Json.get d "DOI") = false ->
              Json.truthy (Json.get d "id") = false ->
              EuropePMC._dedup_key_eupmc (JObj d)
              = Ok ("title:"
                    +:+ PyStr.of_Z
                          (py_hash (_text_to_str (Json.get d "title")))))
        /\ missing st = 0
        /\ NoDup (keys_of EuropePMC._dedup_key_eupmc K)
        /\ (forall o k,
              o ∈ parsed F -> EuropePMC._dedup_key_eupmc o = Ok k ->
              k ∈ keys_of EuropePMC._dedup_key_eupmc K)
        /\ (forall l1 o l2 k,
              parsed F = l1 ++ o :: l2 ->
              EuropePMC._dedup_key_eupmc o = Ok k ->
              (forall y, y ∈ l1 -> EuropePMC._dedup_key_eupmc y <> Ok k) ->
              o ∈ K)
    end.
Proof.
  intros Hrun. destruct c; cbn [deduplicate] in Hrun.
  - destruct (dedup_file_spec _ _ _ _ Hrun)
      as (K & s' & HK & -> & _ & _ & _ & Hm).
    exists K. split_and!; [reflexivity | eapply keeps_sublist, HK | |].
    + eapply keeps_nokeys, HK.
    + rewrite Hm. now rewrite (keeps_nokeys _ _ _ _ _ HK).
  - destruct (dedup_file_spec _ _ _ _ Hrun)
      as (K & s' & HK & -> & _ & _ & _ & Hm).
    exists K. split_and!; [reflexivity | eapply keeps_sublist, HK | ..].
    + apply eupmc_key_nonempty.
    + apply eupmc_title_key.
    + rewrite Hm, eupmc_no_missing. reflexivity.
    + eapply keeps_nodup, HK.
    + intros o k Ho Hk.
      destruct (keeps_cover _ _ _ _ _ HK o k Ho Hk) as [Hin|Hin];
        [eapply eupmc_key_nonempty, Hk | set_solver | exact Hin].
    + intros l1 o l2 k El Hk Hfirst.
      eapply (keeps_first _ _ _ _ _ HK); eauto;
        [eapply eupmc_key_nonempty, Hk | set_solver].
Qed.

(** C8, as amended.  The de-duplication and filter passes write, for
    every record they keep, its [json.dumps] encoding and a line feed:
    the output is the rendering of a sub-sequence of the decoded input
    records, its lines are those encodings, and each of them decodes to
    the record it was written from. *)
Theorem kept_lines_reserialised (p : pass) (F out : string) :
  run_pass p F = Ok out ->
  exists K,
    out = render K
    /\ K `sublist_of` parsed F
    /\ PyFile.lines out = map line_of K
    /\ Forall (fun o => Json.loads (line_of o) = Some o) K.
Proof.
  intros Hrun.
  assert (exists K, out = render K /\ K `sublist_of` parsed F)
    as (K & -> & Hsub).
  { destruct p; cbn [run_pass] in Hrun.
    - destruct (Crossref._deduplicate_jsonl_file F) as [[o st]|] eqn:E;
        [|discriminate].
      injection Hrun as <-.
      destruct (dedup_file_spec _ _ _ _ E) as (K & s' & HK & -> & _).
      exists K. split; [reflexivity | eapply keeps_sublist, HK].
    - destruct (EuropePMC._deduplicate_jsonl_file F) as [[o st]|] eqn:E;
        [|discriminate].
      injection Hrun as <-.
      destruct (dedup_file_spec _ _ _ _ E) as (K & s' & HK & -> & _).
      exists K. split; [reflexivity | eapply keeps_sublist, HK].
    - destruct (Crossref.regex_filter_crossref_jsonl F regex_cfg)
        as [[o st]|] eqn:E; [|discriminate].
      injection Hrun as <-.
      destruct (regex_filter_spec _ _ _ _ E) as (K & HK & -> & _).
      exists K. now split. }
  assert (HK : Forall (fun o => Json.loads (line_of o) = Some o) K).
  { pose proof (parsed_stable F) as Hp.
    rewrite Forall_forall in Hp |- *. intros o Ho. apply Hp.
    eapply elem_of_sublist; eauto. }
  exists K. split_and!; [reflexivity | exact Hsub | | exact HK].
  now apply lines_render, stable_wf.
Qed.


End Claims.

Section ClaimsPagination.
Context {R : PyRuntime}.



Lemma tagged_source_query q d :
  exists d', tagged (q, JObj d) = JObj d'
             /\ Json.get d' "source_query" = JStr q.
Proof. eexists. split; [reflexivity | apply get_set_same]. Qed.

(** C10. With [dedupe_on_write], the set of seen keys of a keyword
    harvest is one for all its queries.  The output file holds, tagged
    with the query they arrived under, a sub-sequence [W] of the records
    that arrived, in order; no two written records share an identity key;
    and the first arrival of a key, over all queries, is the one written:
    the record in the file carries the [source_query] of the first query
    that returned it, and a later arrival of the key, under any query, is
    skipped.  (A Crossref record without a DOI has no key and is always
    written.) *)
Theorem seen_keys_shared_across_queries :
  (forall queries rows rs st rest,
      Crossref.search_crossref_cursor queries rows true rs
      = Returned st rest ->
      exists W,
        h_file st = render (map tagged W)
        /\ W `sublist_of` records_of (h_log st)
        /\ Forall (fun qe => is_object (snd qe) = true) W
        /\ NoDup (keys_of crossref_arrival_key W)
        /\ (forall A1 qe A2 k,
              records_of (h_log st) = A1 ++ qe :: A2 ->
              crossref_arrival_key qe = Ok k -> k <> "" ->
              (forall y, y ∈ A1 -> crossref_arrival_key y <> Ok k) ->
              qe ∈ W))
  /\
  (forall queries page_size extra_and rs s log rest,
      EuropePMC.search_eupmc_keywords queries page_size true extra_and rs
      = Returned (s, log) rest ->
      exists W,
        snd s = render (map tagged W)
        /\ map (effective extra_and) W `sublist_of` records_of log
        /\ Forall (fun qe => is_object (snd qe) = true) W
        /\ NoDup (keys_of eupmc_arrival_key W)
        /\ (forall A1 qe A2 k,
              records_of log = A1 ++ qe :: A2 ->
              eupmc_arrival_key qe = Ok k ->
              (forall y, y ∈ A1 -> eupmc_arrival_key y <> Ok k) ->
              qe ∈ map (effective extra_and) W))
  /\
  (forall q d,
      exists d', tagged (q, JObj d) = JObj d'
                 /\ Json.get d' "source_query" = JStr q).
Proof.
  split_and!.
  - intros queries rows rs st rest Hrun.
    unfold Crossref.search_crossref_cursor in Hrun.
    destruct (crossref_inv_queries _ _ _ _ _ _ crossref_inv_init Hrun)
      as (W & HW & Hfile & Hobj).
    exists W. split_and!; auto.
    + eapply keeps_sublist, HW.
    + eapply keeps_nodup, HW.
    + intros A1 qe A2 k EA Hk Hne Hfirst.
      eapply (keeps_first _ _ _ _ _ HW); eauto. set_solver.
  - intros queries page_size extra_and rs s log rest Hrun.
    unfold EuropePMC.search_eupmc_keywords in Hrun.
    destruct (eupmc_inv_queries extra_and _ _ _ _ _ _
                (eupmc_inv_init extra_and) Hrun)
      as (W & HW & Hfile & Hobj).
    cbn [fst snd] in HW, Hfile.
    exists W. split_and!; auto.
    + eapply keeps_sublist, HW.
    + destruct (keeps_nodup _ _ _ _ _ HW) as [Hnd _].
      replace (keys_of eupmc_arrival_key W)
        with (keys_of eupmc_arrival_key (map (effective extra_and) W));
        [exact Hnd|].
      clear. induction W as [|[q e] W IH]; [reflexivity|].
      unfold keys_of in *. cbn [map omap list_omap]. now rewrite IH.
    + intros A1 qe A2 k EA Hk Hfirst.
      eapply (keeps_first _ _ _ _ _ HW); eauto;
        [eapply eupmc_key_nonempty, Hk | set_solver].
  - apply tagged_source_query.
Qed.

End ClaimsPagination.

Section ClaimsFilter.
Context {Fl : PyFloat} {R : PyRuntime}.

Lemma matches_combined_literal title abstract
  (groups : list (string * list pattern)) :
  matches_fields title abstract groups "combined"
  = _text_matches_groups (JStr (combined_text title abstract)) groups.
Proof. apply matches_fields_other; discriminate. Qed.

Lemma for_each_ext {A S : Type} (f g : A -> S -> exc S) l :
  (forall x s, f x s = g x s) ->
  forall s, for_each f l s = for_each g l s.
Proof.
  intros Hfg. induction l as [|x l IH]; intros s; [reflexivity|].
  cbn [for_each]. rewrite Hfg. destruct (g x s); [apply IH | reflexivity].
Qed.

Lemma filter_line_other groups scope line st :
  scope <> "title" -> scope <> "abstract" -> scope <> "field" ->
  Crossref.filter_line groups scope line st
  = Crossref.filter_line groups "combined" line st.
Proof.
  intros H1 H2 H3. unfold Crossref.filter_line.
  destruct st as [seen out tot kp].
  destruct (Json.loads line) as [[| | | | | |entry]|]; try reflexivity.
  unfold Crossref._matches_entry_groups.
  now rewrite matches_fields_other, matches_combined_literal.
Qed.

Lemma normalize_scope_combined d scope :
  scope <> "" -> Json.get d "scope" = JStr scope ->
  _normalize_regex_cfg (JObj d)
  = let* '(groups, _) :=
      _normalize_regex_cfg (JObj (PyDict.set d "scope" (JStr "combined"))) in
    Ok (groups, scope).
Proof.
  intros Hne Hscope. unfold _normalize_regex_cfg.
  rewrite get_set_same, get_set_other by discriminate. rewrite Hscope.
  unfold Json.or_. rewrite truthy_JStr.
  destruct (String.eqb_spec scope ""); [contradiction|]. cbn [negb].
  destruct (Json.get d "groups"); cbn; try reflexivity.
  destruct (for_each normalize_group members []); reflexivity.
Qed.

(** C9, as amended.  A scope string that is none of [title], [abstract]
    and [field] is read as [combined] by the matchers of both modules,
    without an error; and a configuration whose scope is such a string,
    and is not empty, makes the filter do exactly what it does under the
    scope [combined]. *)
Theorem unrecognised_scope_is_combined (scope : string) :
  scope <> "title" -> scope <> "abstract" -> scope <> "field" ->
  (forall entry groups,
      Crossref._matches_entry_groups entry groups scope
      = Crossref._matches_entry_groups entry groups "combined")
  /\ (forall entry groups,
        EuropePMC._eupmc_matches_entry_groups entry groups scope
        = EuropePMC._eupmc_matches_entry_groups entry groups "combined")
  /\ (forall d F,
        scope <> "" -> Json.get d "scope" = JStr scope ->
        Crossref.regex_filter_crossref_jsonl F (JObj d)
        = Crossref.regex_filter_crossref_jsonl F
            (JObj (PyDict.set d "scope" (JStr "combined")))).
Proof.
  intros H1 H2 H3. split_and!.
  - intros entry groups. unfold Crossref._matches_entry_groups.
    now rewrite matches_fields_other, matches_combined_literal.
  - intros entry groups. unfold EuropePMC._eupmc_matches_entry_groups.
    now rewrite matches_fields_other, matches_combined_literal.
  - intros d F Hne Hscope. unfold Crossref.regex_filter_crossref_jsonl.
    rewrite (normalize_scope_combined d scope Hne Hscope).
    destruct (_normalize_regex_cfg _) as [[groups sc]|] eqn:E;
      [|reflexivity].
    cbn [exc_bind].
    assert (sc = "combined") as ->.
    { unfold _normalize_regex_cfg in E.
      rewrite get_set_same in E. unfold Json.or_ in E. cbn in E.
      destruct (for_each normalize_group _ []); now inversion E. }
    rewrite (for_each_ext _ (Crossref.filter_line groups "combined"));
      [reflexivity|].
    intros line st. now apply filter_line_other.
Qed.

End ClaimsFilter.

(** C5, as amended.  Under [title] (or [abstract]) a record matches iff
    there is a group, the title (the abstract) is not empty, and every
    group has a pattern that matches it; under [field] iff the title
    alone or the abstract alone does; under [combined] iff the combined
    text does, which is the title and the abstract joined by a space when
    neither is empty, and the non-empty one alone otherwise.  A record
    with foo in its title and bar in its abstract matches the groups A:
    foo, B: bar under [combined] and not under [field]. *)
Theorem filter_matching_semantics :
  (forall (R : PyRuntime) entry (groups : list (string * list pattern)),
      let title := _text_to_str (Json.get entry "title") in
      let abstract := _text_to_str (Json.get entry "abstract") in
      (Crossref._matches_entry_groups entry groups "title" = true
       <-> satisfies title groups)
      /\ (Crossref._matches_entry_groups entry groups "abstract" = true
          <-> satisfies abstract groups)
      /\ (Crossref._matches_entry_groups entry groups "field" = true
          <-> satisfies title groups \/ satisfies abstract groups)
      /\ (Crossref._matches_entry_groups entry groups "combined" = true
          <-> satisfies (combined_text title abstract) groups)
      /\ combined_text title abstract
         = (if String.eqb title "" then abstract
            else if String.eqb abstract "" then title
            else title +:+ " " +:+ abstract))
  /\ Crossref._matches_entry_groups Demo.foo_bar_entry
       (Demo.groups_of (Demo.cfg_AB (JStr "combined"))) "combined" = true
  /\ Crossref._matches_entry_groups Demo.foo_bar_entry
       (Demo.groups_of (Demo.cfg_AB (JStr "field"))) "field" = false.
Proof.
  split_and!; [|reflexivity|reflexivity].
  intros R entry groups title abstract.
  unfold Crossref._matches_entry_groups. fold title. fold abstract.
  split_and!.
  - unfold matches_fields. cbn. apply text_matches_spec.
  - unfold matches_fields. cbn. apply text_matches_spec.
  - unfold matches_fields. cbn. rewrite orb_true_iff.
    now rewrite !text_matches_spec.
  - rewrite matches_combined_literal. apply text_matches_spec.
  - apply combined_text_cases.
Qed.

(** C7. On the three lines of the scenario, Crossref de-duplication keeps
    the first record of the DOI and the record without a DOI, and returns
    the statistics 3, 2, 1, 1, whatever the floats of the interpreter;
    in every run [duplicates] is [total] minus [kept]; and the key of a
    DOI does not depend on its case. *)
Theorem crossref_scenario_stats {Fl : PyFloat} :
  Crossref._deduplicate_jsonl_file Demo.scenario_file
  = Ok (Demo.scenario_output, DedupStats 3 2 1 1)
  /\ parsed Demo.scenario_output = [Demo.lithium; Demo.no_doi]
  /\ (forall F,
        match Crossref._deduplicate_jsonl_file F with
        | Ok (_, st) => duplicates st = total st - kept st
        | Raise _ => True
        end)
  /\ (forall s d,
        Crossref.doi_of (JObj (("DOI", JStr (PyStr.lower s)) :: d))
        = Crossref.doi_of (JObj (("DOI", JStr s) :: d))).
Proof.
  split_and!.
  - vm_compute. reflexivity.
  - vm_compute. reflexivity.
  - intros F. destruct (Crossref._deduplicate_jsonl_file F) as [[o st]|] eqn:E;
      [|exact I].
    now destruct (dedup_file_spec _ _ _ _ E) as (K & s' & _ & _ & _ & _ & H & _).
  - apply doi_of_case_blind.
Qed.

(** * The properties at concrete inputs *)

Section Examples.
#[local] Existing Instance Demo.floats_as_written.
#[local] Existing Instance floats_as_written_laws.

Lemma dedup_idempotent_witness :
  deduplicate SrcCrossref Demo.scenario_file
  = Ok (Demo.scenario_output, DedupStats 3 2 1 1)
  /\ deduplicate SrcCrossref Demo.scenario_output
     = Ok (Demo.scenario_output, DedupStats 2 2 0 1).
Proof.
  assert (H : deduplicate SrcCrossref Demo.scenario_file
              = Ok (Demo.scenario_output, DedupStats 3 2 1 1))
    by (vm_compute; reflexivity).
  split; [exact H | exact (proj1 (dedup_idempotent SrcCrossref _ _ _ H))].
Defined.

(** C2 fails on Europe PMC: of two records with neither DOI nor id and
    the same title, only the first is written. *)
Lemma same_title_records_merged :
  parsed Demo.same_title_file = [Demo.same_title; Demo.same_title]
  /\ EuropePMC._dedup_key_eupmc Demo.same_title
     = Ok ("title:" +:+ PyStr.of_Z (py_hash "Same"))
  /\ EuropePMC._deduplicate_jsonl_file Demo.same_title_file
     = Ok (line_of Demo.same_title, DedupStats 2 1 1 0).
Proof. split_and!; vm_compute; reflexivity. Qed.

Lemma missing_key_records_witness :
  exists K,
    line_of Demo.same_title = render K
    /\ K `sublist_of` parsed Demo.same_title_file
    /\ NoDup (keys_of EuropePMC._dedup_key_eupmc K).
Proof.
  destruct (missing_key_records SrcEuropePMC Demo.same_title_file
              (line_of Demo.same_title) (DedupStats 2 1 1 0))
    as (K & HK & Hsub & _ & _ & _ & Hnd & _).
  - vm_compute. reflexivity.
  - exists K. split_and!; assumption.
Defined.



(** C5 fails in three places: with no group the code rejects, although
    every group (there is none) has a matching pattern; an empty text is
    rejected, although a pattern matches it; and under [combined] an
    empty title puts no space before the abstract. *)
Lemma filter_iff_fails :
  (Crossref._matches_entry_groups Demo.foo_bar_entry [] "title" = false
   /\ spec_matches "foo" "bar" [] "title" = true)
  /\ (Crossref._matches_entry_groups Demo.bar_only
        (Demo.groups_of (Demo.cfg_one "")) "title" = false
      /\ spec_matches "" "bar" (Demo.groups_of (Demo.cfg_one "")) "title"
         = true)
  /\ (Crossref._matches_entry_groups Demo.bar_only
        (Demo.groups_of (Demo.cfg_one " bar")) "combined" = false
      /\ spec_matches "" "bar" (Demo.groups_of (Demo.cfg_one " bar"))
           "combined" = true).
Proof. repeat split; vm_compute; reflexivity. Qed.



(** C8 fails on the scenario of the specification: the line kept for the
    first record is not the input line, the encoder puts a space after
    each colon and comma. *)
Lemma kept_line_rewritten :
  run_pass DedupCrossref Demo.scenario_file = Ok Demo.scenario_output
  /\ hd_error (PyFile.lines Demo.scenario_file)
     = Some (Json.lit "{'DOI':'10.1/a','title':'Lithium anode'}" +:+ PyStr.nl)
  /\ hd_error (PyFile.lines Demo.scenario_output)
     = Some (Json.lit "{'DOI': '10.1/a', 'title': 'Lithium anode'}"
             +:+ PyStr.nl)
  /\ ~ In (Json.lit "{'DOI': '10.1/a', 'title': 'Lithium anode'}"
           +:+ PyStr.nl)
         (PyFile.lines Demo.scenario_file).
Proof.
  split_and!; try (vm_compute; reflexivity).
  vm_compute. intros [H|[H|[H|[]]]]; discriminate H.
Qed.

Lemma kept_lines_reserialised_witness :
  exists K,
    Demo.scenario_output = render K
    /\ K `sublist_of` parsed Demo.scenario_file
    /\ PyFile.lines Demo.scenario_output = map line_of K.
Proof.
  destruct (kept_lines_reserialised DedupCrossref Demo.scenario_file
              Demo.scenario_output)
    as (K & H1 & H2 & H3 & _).
  - vm_compute. reflexivity.
  - exists K. split_and!; assumption.
Defined.

(** C9 fails at the empty scope string: normalization replaces it by the
    default [field], under which the record is rejected, while under
    [combined] it is kept. *)
Lemma empty_scope_is_field :
  Crossref.regex_filter_crossref_jsonl Demo.foo_bar_file
    (Demo.cfg_AB (JStr ""))
  = Ok ("", FilterStats 1 0)
  /\ Crossref.regex_filter_crossref_jsonl Demo.foo_bar_file
       (Demo.cfg_AB (JStr "combined"))
     = Ok (Demo.foo_bar_file, FilterStats 1 1).
Proof. split; vm_compute; reflexivity. Qed.

Lemma unrecognised_scope_is_combined_witness :
  Crossref._matches_entry_groups Demo.foo_bar_entry
    (Demo.groups_of (Demo.cfg_AB (JStr "bogus"))) "bogus" = true
  /\ Crossref.regex_filter_crossref_jsonl Demo.foo_bar_file
       (Demo.cfg_AB (JStr "bogus"))
     = Ok (Demo.foo_bar_file, FilterStats 1 1).
Proof.
  destruct (unrecognised_scope_is_combined "bogus") as (H1 & _ & H3);
    try discriminate.
  split.
  - rewrite H1. reflexivity.
  - unfold Demo.cfg_AB. rewrite H3; [|discriminate|reflexivity].
    vm_compute. reflexivity.
Defined.

Lemma seen_keys_shared_across_queries_witness :
  exists st W,
    Crossref.search_crossref_cursor ["q1"; "q2"] 2 true
      [Resp429;
       RespOk (Demo.crossref_page [Demo.rec_a; Demo.rec_b] (JStr "c1"));
       RespOk (Demo.crossref_page [Demo.rec_c] JNull);
       RespOk (Demo.crossref_page [Demo.rec_A] JNull)]
    = Returned st []
    /\ h_file st = render (map tagged W)
    /\ NoDup (keys_of crossref_arrival_key W)
    /\ ("q1", Demo.rec_a) ∈ W.
Proof.
  eexists.
  epose proof (proj1 seen_keys_shared_across_queries ["q1"; "q2"] 2
                 [Resp429;
                  RespOk (Demo.crossref_page [Demo.rec_a; Demo.rec_b]
                            (JStr "c1"));
                  RespOk (Demo.crossref_page [Demo.rec_c] JNull);
                  RespOk (Demo.crossref_page [Demo.rec_A] JNull)] _ []) as H.
  edestruct H as (W & Hfile & Hsub & Hobj & Hnd & Hfirst); clear H.
  - vm_compute. reflexivity.
  - exists W. split_and!; [reflexivity | exact Hfile | exact Hnd |].
    eapply (Hfirst [] ("q1", Demo.rec_a)).
    + reflexivity.
    + reflexivity.
    + discriminate.
    + intros y Hy. inversion Hy.
Defined.

End Examples.
